(** * ffplayout: a verification model of the playout scheduler

    Shallow embedding of [ffplayout.py]: the messenger, the filter-graph
    synthesiser ([build_filtergraph] and its helpers), the time-aligned
    input builder ([timed_source], [handle_list_end], [src_or_dummy]), the
    folder source (modules [MediaStore] and [GetSource]) and the methods of
    the playlist iterator that prepare a clip (module [GetSourceIter]);
    further the clock and the start time of [load_config] (module [Clock]),
    the folder watcher (module [MediaWatcher]), the walk over the playlist
    in [GetSourceIter.next] (module [Walk]) and the file [main] names in
    the log.

    Conventions of the embedding:
    - Python numbers (int and float alike) that carry times, lengths and
      aspect ratios are exact rationals [Q]; configuration integers
      (width, height, fps) are [Z].
    - An argument vector is a [list string], as in the source.
    - The text Python produces for a float ([str], ['{}'.format],
      ['{0:.2f}'.format]) is left abstract: the functions are parametrised
      by [str_float] and [fmt_2f].  Integers are printed in decimal.
    - Logging, mailing and the vectors a generator yields are recorded as
      a trace of [event]s; a raised Python exception ends the computation
      with [Raise].
    - The file system, ffprobe, the clock and the random generator are
      inputs of the functions that consult them. *)

From Stdlib Require Import QArith Qabs Qround Qminmax Lia Lqa.
From stdpp Require Import base strings list gmap sorting pretty.

(** ** Python helpers *)

Module Py.

Definition Qltb (x y : Q) : bool := negb (Qle_bool y x).
Definition Qgtb (x y : Q) : bool := Qltb y x.
Definition Qneqb (x y : Q) : bool := negb (Qeq_bool x y).

(** [math.isclose(a, b, abs_tol=t)]; the relative tolerance keeps its
    default value [1e-09]. *)
Definition rel_tol : Q := 1 # 1000000000.

Definition isclose (a b abs_tol : Q) : bool :=
  if Qeq_bool a b then true
  else
    let diff := Qabs (b - a) in
    Qle_bool diff (Qabs (rel_tol * b))
    || Qle_bool diff (Qabs (rel_tol * a))
    || Qle_bool diff abs_tol.

(** Truthiness of an optional float ([None] and [0.0] are false). *)
Definition truthy (o : option Q) : bool :=
  match o with
  | None => false
  | Some q => negb (Qeq_bool q 0)
  end.

Definition nonempty (s : string) : bool :=
  match s with EmptyString => false | _ => true end.

(** [sep.join(l)] *)
Definition join (sep : string) (l : list string) : string :=
  String.concat sep l.

(** [s.replace('\n', ' ')] *)
Definition newline : Ascii.ascii := Ascii.ascii_of_nat 10.
Definition space : Ascii.ascii := Ascii.ascii_of_nat 32.

Fixpoint replace_nl (s : string) : string :=
  match s with
  | EmptyString => EmptyString
  | String c r =>
      String (if Ascii.eqb c newline then space else c) (replace_nl r)
  end.

Definition nl : string := String newline EmptyString.

(** the double-quote character, as a one-character string *)
Definition dq : string := String (Ascii.ascii_of_nat 34) EmptyString.

(** [sub in s] on strings *)
Fixpoint contains (sub s : string) : bool :=
  String.prefix sub s ||
  match s with
  | EmptyString => false
  | String _ r => contains sub r
  end.

(** [s.split(sep)[0]] *)
Fixpoint split_head (sep s : string) : string :=
  match s with
  | EmptyString => EmptyString
  | String c r =>
      if String.prefix sep s then EmptyString else String c (split_head sep r)
  end.

Definition str_int (z : Z) : string := pretty z.

Definition head_char (s : string) : option Ascii.ascii :=
  match s with
  | EmptyString => None
  | String c _ => Some c
  end.

End Py.

(** ** Effects: the event trace and exceptions *)

Inductive level := DEBUG | INFO | WARNING | ERROR.

Inductive event :=
| Logged (l : level) (msg : string)
| Mailed (msg : string)
| Yielded (cmd : list string).

Inductive exn :=
| ZeroDivisionError
| TypeError
| IndexError
| KeyError
| AttributeError
| SystemExit (code : Z).

Inductive outcome (A : Type) :=
| Return (a : A)
| Raise (e : exn).
Arguments Return {A} a.
Arguments Raise {A} e.

Definition M (A : Type) : Type := (list event * outcome A)%type.

Definition trace {A} (m : M A) : list event := fst m.
Definition result {A} (m : M A) : outcome A := snd m.

Global Instance M_ret : MRet M := λ A a, ([], Return a).
Global Instance M_bind : MBind M := λ A B f m,
  match m with
  | (t, Return a) => let '(t', r) := f a in (t ++ t', r)
  | (t, Raise e) => (t, Raise e)
  end.

Definition emit (e : list event) : M unit := (e, Return tt).
Definition raise {A} (e : exn) : M A := ([], Raise e).

(** ** Configuration: the namespaces [_general], [_mail], [_pre_comp],
    [_playlist], [_storage] and [stdin_args] *)

Record Config := {
  general_stop : bool;
  general_threshold : Q;
  mail_recip : string;
  mail_level : string;
  pre_comp_add_logo : bool;
  pre_comp_logo : string;
  pre_comp_opacity : string;
  pre_comp_logo_filter : string;
  pre_comp_add_loudnorm : bool;
  pre_comp_loud_i : Q;
  pre_comp_loud_tp : Q;
  pre_comp_loud_lra : Q;
  pre_comp_protocols : string;
  pre_comp_w : Z;
  pre_comp_h : Z;
  pre_comp_aspect : Q;
  pre_comp_fps : Z;
  playlist_start : Q;
  playlist_length : option Q;
  storage_filler : string;
  storage_extensions : list string;
  storage_shuffle : bool;
  stdin_loop : bool
}.

(** ** The probe record filled by [MediaProbe.load] *)

Record video_stream := {
  v_field_order : option string;
  v_aspect : Q;
  v_fps : Q;
  v_width : Z;
  v_height : Z;
  v_duration : option Q
}.

Record audio_stream := {
  a_duration : option Q
}.

(** [probe_format] is [None] for [format = None]; otherwise it holds the
    format's [duration] entry, if there is one. *)
Record MediaProbe := {
  probe_src : string;
  probe_format : option (option Q);
  probe_audio : list (option audio_stream);
  probe_video : list (option video_stream)
}.

(** What ffprobe prints for one stream, before [MediaProbe.load] derives
    [aspect] and [fps]. *)
Record raw_video := {
  rv_width : Z;
  rv_height : Z;
  rv_display_aspect_ratio : option (Q * Q);
  rv_r_frame_rate : Q * Q;
  rv_field_order : option string;
  rv_duration : option Q
}.

Inductive raw_stream :=
| RawAudio (a : audio_stream)
| RawVideo (v : raw_video)
| RawOther.

Record raw_info := {
  ri_format : option Q;
  ri_streams : list raw_stream
}.

(** ** The environment: number formatting, the file system and ffprobe *)

Record Env := {
  (** [str(x)] and ['{}'.format(x)] of a float *)
  str_float : Q → string;
  (** ['{0:.2f}'.format(x)] *)
  fmt_2f : Q → string;
  (** [str(timedelta(seconds=x))] *)
  str_timedelta : Q → string;
  (** [float(s)] of a string, [None] on [ValueError] *)
  parse_float : string → option Q;
  (** [os.path.isfile] *)
  isfile : string → bool;
  (** ffprobe's [format=duration] query, [None] on [CalledProcessError] *)
  ffprobe_duration : string → option string;
  (** the text of that [CalledProcessError] *)
  ffprobe_error : string → string;
  (** ffprobe's JSON report, [None] on [CalledProcessError] *)
  ffprobe_info : string → option raw_info
}.

(** ** [Mailer] and [Messenger] *)

Section Messenger.
Context (cfg : Config).

Definition level_in (l : list string) : bool :=
  existsb (String.eqb (mail_level cfg)) l.

Definition send_mail (msg : string) : list event :=
  if Py.nonempty (mail_recip cfg) then [Mailed msg] else [].

Definition mailer_info (msg : string) : list event :=
  if level_in ["INFO"] then send_mail msg else [].

Definition mailer_warning (msg : string) : list event :=
  if level_in ["INFO"; "WARNING"] then send_mail msg else [].

Definition mailer_error (msg : string) : list event :=
  if level_in ["INFO"; "WARNING"; "ERROR"] then send_mail msg else [].

Definition messenger_debug (msg : string) : M unit :=
  emit [Logged DEBUG (Py.replace_nl msg)].

Definition messenger_info (msg : string) : M unit :=
  emit (Logged INFO (Py.replace_nl msg) :: mailer_info msg).

Definition messenger_warning (msg : string) : M unit :=
  emit (Logged WARNING (Py.replace_nl msg) :: mailer_warning msg).

Definition messenger_error (msg : string) : M unit :=
  emit (Logged ERROR (Py.replace_nl msg) :: mailer_error msg).

End Messenger.

(** ** Building filters *)

Section Filters.
Context (cfg : Config) (env : Env).

Local Open Scope Q_scope.

(** [probe.video[0]] followed by a key test or a subscript *)
Definition video0 (probe : MediaProbe) : M video_stream :=
  match probe_video probe with
  | [] => raise IndexError
  | None :: _ => raise TypeError
  | Some v :: _ => mret v
  end.

Definition deinterlace_filter (probe : MediaProbe) : M (list string) :=
  v ← video0 probe;
  mret (match v_field_order v with
        | Some fo =>
            if negb (String.eqb fo "progressive") then ["yadif=0:-1:0"]
            else []
        | None => []
        end).

Definition pad_filter (probe : MediaProbe) : M (list string) :=
  v ← video0 probe;
  mret (if negb (Py.isclose (v_aspect v) (pre_comp_aspect cfg) (3 # 100))
        then
          if Py.Qltb (v_aspect v) (pre_comp_aspect cfg) then
            ["pad=ih*" +:+ Py.str_int (pre_comp_w cfg) +:+ "/"
               +:+ Py.str_int (pre_comp_h cfg)
               +:+ "/sar:ih:(ow-iw)/2:(oh-ih)/2"]
          else if Py.Qgtb (v_aspect v) (pre_comp_aspect cfg) then
            ["pad=iw:iw*" +:+ Py.str_int (pre_comp_h cfg) +:+ "/"
               +:+ Py.str_int (pre_comp_w cfg)
               +:+ "/sar:(ow-iw)/2:(oh-ih)/2"]
          else []
        else []).

Definition fps_filter (probe : MediaProbe) : M (list string) :=
  v ← video0 probe;
  mret (if Py.Qneqb (v_fps v) (inject_Z (pre_comp_fps cfg))
        then ["framerate=fps=" +:+ Py.str_int (pre_comp_fps cfg)]
        else []).

Definition scale_filter (probe : MediaProbe) : M (list string) :=
  v ← video0 probe;
  let chain :=
    if negb (v_width v =? pre_comp_w cfg)%Z
       || negb (v_height v =? pre_comp_h cfg)%Z
    then ["scale=" +:+ Py.str_int (pre_comp_w cfg) +:+ ":"
            +:+ Py.str_int (pre_comp_h cfg)]
    else [] in
  mret (if negb (Py.isclose (v_aspect v) (pre_comp_aspect cfg) (3 # 100))
        then chain ++ ["setdar=dar=" +:+ str_float env (pre_comp_aspect cfg)]
        else chain).

Definition fade_filter (duration seek out : Q) (track : string)
  : list string :=
  (if Py.Qgtb seek 0 then [track +:+ "fade=in:st=0:d=0.5"] else [])
  ++ (if Py.Qneqb out duration
      then [track +:+ "fade=out:st=" +:+ str_float env (out - seek - 1)
              +:+ ":d=1.0"]
      else []).

Definition overlay_filter (duration : Q) (ad ad_last ad_next : bool)
  : string :=
  if pre_comp_add_logo cfg && isfile env (pre_comp_logo cfg) && negb ad then
    let opacity :=
      "format=rgba,colorchannelmixer=aa=" +:+ pre_comp_opacity cfg in
    let loop :=
      "loop=loop=" +:+ str_float env (duration * inject_Z (pre_comp_fps cfg))
        +:+ ":size=1:start=0" in
    let logo_chain :=
      ["movie=" +:+ pre_comp_logo cfg +:+ "," +:+ loop +:+ "," +:+ opacity]
      ++ (if ad_last then ["fade=in:st=0:d=1.0:alpha=1"] else [])
      ++ (if ad_next
          then ["fade=out:st=" +:+ str_float env (duration - 1)
                  +:+ ":d=1.0:alpha=1"]
          else []) in
    Py.join "," logo_chain +:+ "[l];[v][l]" +:+ pre_comp_logo_filter cfg
      +:+ "[logo]"
  else "[v]null[logo]".

Definition add_audio (probe : MediaProbe) (duration : Q)
  : M (list string) :=
  match probe_audio probe with
  | [] =>
      messenger_warning cfg
        ("Clip " +:+ Py.dq +:+ probe_src probe +:+ Py.dq
           +:+ " has no audio!");;
      mret ["aevalsrc=0:channel_layout=2:duration=" +:+ str_float env duration
              +:+ ":sample_rate=" +:+ Py.str_int 48000]
  | _ => mret []
  end.

Definition add_loudnorm (probe : MediaProbe) : M (list string) :=
  a_samples ←
    (if (pre_comp_fps cfg =? 0)%Z then raise ZeroDivisionError
     else mret (Z.quot 192000 (pre_comp_fps cfg)));
  mret (match probe_audio probe with
        | [] => []
        | _ :: _ =>
            if pre_comp_add_loudnorm cfg then
              ["loudnorm=I=" +:+ str_float env (pre_comp_loud_i cfg)
                 +:+ ":TP=" +:+ str_float env (pre_comp_loud_tp cfg)
                 +:+ ":LRA=" +:+ str_float env (pre_comp_loud_lra cfg)
                 +:+ ",asetnsamples=n=" +:+ Py.str_int a_samples]
            else []
        end).

Definition extend_audio (probe : MediaProbe) (duration : Q)
  : M (list string) :=
  match probe_audio probe with
  | [] => mret []
  | None :: _ => raise TypeError
  | Some a :: _ =>
      mret (match a_duration a with
            | Some d =>
                if Py.Qgtb duration (d + (3 # 10))
                then ["apad=whole_dur=" +:+ str_float env duration]
                else []
            | None => []
            end)
  end.

Definition extend_video (probe : MediaProbe) (duration target_duration : Q)
  : M (list string) :=
  v ← video0 probe;
  mret (match v_duration v with
        | Some d =>
            if Py.Qltb target_duration duration
               && Py.Qgtb duration (d + (3 # 10))
            then ["tpad=stop_mode=add:stop_duration="
                    +:+ str_float env (duration - d)]
            else []
        | None => []
        end).

(** The two chains of [build_filtergraph], built when [dummy] is false. *)
Definition video_chain (duration seek out : Q) (probe : MediaProbe)
  : M (list string) :=
  c1 ← deinterlace_filter probe;
  c2 ← pad_filter probe;
  c3 ← fps_filter probe;
  c4 ← scale_filter probe;
  c5 ← extend_video probe duration (out - seek);
  mret (c1 ++ c2 ++ c3 ++ c4 ++ c5 ++ fade_filter duration seek out "").

Definition audio_chain (duration seek out : Q) (probe : MediaProbe)
  : M (list string) :=
  a ← add_audio probe (out - seek);
  match a with
  | [] =>
      l ← add_loudnorm probe;
      e ← extend_audio probe (out - seek);
      mret (["[0:a]anull"] ++ l ++ e ++ fade_filter duration seek out "a")
  | _ => mret a
  end.

Definition build_filtergraph (duration seek out : Q)
    (ad ad_last ad_next dummy : bool) (probe : MediaProbe)
  : M (list string) :=
  let video_map := ["-map"; "[logo]"] in
  let seek := if Py.Qgtb out duration then 0 else seek in
  '(video_chain, audio_chain) ←
    (if negb dummy then
       vc ← video_chain duration seek out probe;
       ac ← audio_chain duration seek out probe;
       mret (vc, ac)
     else mret ([], []));
  let video_filter :=
    match video_chain with
    | [] => "null[v]"
    | _ => Py.join "," video_chain +:+ "[v]"
    end in
  let logo_filter := overlay_filter (out - seek) ad ad_last ad_next in
  let video_filter :=
    ["-filter_complex"; "[0:v]" +:+ video_filter +:+ ";" +:+ logo_filter] in
  let '(audio_filter, audio_map) :=
    match audio_chain with
    | [] => ([], ["-map"; "0:a"])
    | _ => (["-filter_complex"; Py.join "," audio_chain +:+ "[a]"],
            ["-map"; "[a]"])
    end in
  if dummy then mret (video_filter ++ video_map ++ ["-map"; "1:a"])
  else mret (video_filter ++ audio_filter ++ video_map ++ audio_map).

End Filters.

(** ** The time-aligned input builder *)

Section Timing.
Context (cfg : Config) (env : Env).

Local Open Scope Q_scope.

(** [_playlist.length] when it is set, else [86400.0] *)
Definition total_playtime_of : Q :=
  match playlist_length cfg with
  | Some l => if negb (Qeq_bool l 0) then l else 86400
  | None => 86400
  end.

Definition seek_in (seek : Q) : list string :=
  if Py.Qgtb seek 0 then ["-ss"; str_float env seek] else [].

Definition set_length (duration seek out : Q) : list string :=
  if Py.Qltb out duration then ["-t"; str_float env (out - seek)] else [].

Definition loop_input (source : string) (src_duration target_duration : Q)
  : M (list string) :=
  loop_count ←
    (if Qeq_bool src_duration 0 then raise ZeroDivisionError
     else mret (Qceiling (target_duration / src_duration)));
  messenger_info cfg
    ("Loop " +:+ Py.dq +:+ source +:+ Py.dq +:+ " "
       +:+ Py.str_int loop_count +:+ " times, total duration: "
       +:+ fmt_2f env target_duration);;
  mret ["-stream_loop"; Py.str_int loop_count; "-i"; source;
        "-t"; str_float env target_duration].

Definition gen_dummy (duration : Q) : list string :=
  let color := "#121212" in
  ["-f"; "lavfi"; "-i";
   "color=c=" +:+ color +:+ ":s=" +:+ Py.str_int (pre_comp_w cfg)
     +:+ "x" +:+ Py.str_int (pre_comp_h cfg)
     +:+ ":d=" +:+ str_float env duration
     +:+ ":r=" +:+ Py.str_int (pre_comp_fps cfg)
     +:+ ",format=pix_fmts=yuv420p";
   "-f"; "lavfi"; "-i";
   "anoisesrc=d=" +:+ str_float env duration +:+ ":c=pink:r=48000:a=0.05"].

Definition gen_filler (duration : Q) : M (list string) :=
  if negb (Py.nonempty (storage_filler cfg)) then
    messenger_warning cfg "No filler is set!";;
    mret (gen_dummy duration)
  else
    let file_duration :=
      match ffprobe_duration env (storage_filler cfg) with
      | Some output => parse_float env output
      | None => None
      end in
    match file_duration with
    | Some fd =>
        if negb (Qeq_bool fd 0) then
          if Py.Qgtb fd duration then
            messenger_info cfg
              ("Generate filler with " +:+ fmt_2f env duration
                 +:+ " seconds");;
            mret (["-i"; storage_filler cfg] ++ set_length fd 0 duration)
          else loop_input (storage_filler cfg) fd duration
        else
          messenger_error cfg "Can't get filler length, generate dummy!";;
          mret (gen_dummy duration)
    | None =>
        messenger_error cfg "Can't get filler length, generate dummy!";;
        mret (gen_dummy duration)
    end.

(** [src] is [None] when the iterator has cleared it. *)
Definition str_src (src : option string) : string :=
  match src with Some s => s | None => "None" end.

Definition is_live (src : option string) : bool :=
  match src with
  | Some s =>
      Py.nonempty s
      && Py.contains (Py.split_head "://" s) (pre_comp_protocols cfg)
  | None => false
  end.

Definition is_local_file (src : option string) : bool :=
  match src with
  | Some s => Py.nonempty s && isfile env s
  | None => false
  end.

Definition src_or_dummy (src : option string) (dur seek out : Q)
  : M (list string) :=
  if is_live src then
    (if Py.Qgtb seek 0 then
       messenger_warning cfg
         ("Seek in live source " +:+ Py.dq +:+ str_src src +:+ Py.dq
            +:+ " not supported!")
     else mret tt);;
    mret (["-i"; str_src src] ++ set_length dur seek out)
  else if is_local_file src then
    if Py.Qgtb out dur then
      if Py.Qgtb seek 0 then
        messenger_warning cfg
          ("Seek in looped source " +:+ Py.dq +:+ str_src src +:+ Py.dq
             +:+ " not supported!");;
        mret (["-i"; str_src src] ++ set_length dur seek (out - seek))
      else loop_input (str_src src) dur out
    else
      mret (seek_in seek ++ ["-i"; str_src src] ++ set_length dur seek out)
  else
    messenger_error cfg ("Clip/URL not exist:" +:+ Py.nl +:+ str_src src);;
    mret (gen_dummy (out - seek)).

(** [get_delta]; [current_time] is the reading of [get_time('full_sec')].
    Stopping the child processes before [sys.exit(1)] is outside the
    model. *)
Definition get_delta (current_time begin seek : Q) (first : bool)
  : M (Q * Q) :=
  let target_playtime := total_playtime_of in
  let current_time :=
    if Qle_bool current_time (playlist_start cfg)
       && negb (Qeq_bool begin (playlist_start cfg))
    then current_time + target_playtime else current_time in
  let time_delta :=
    if first then begin + seek - current_time
    else begin - current_time in
  let time_delta :=
    if Py.isclose time_delta 86400 6 then time_delta - 86400
    else time_delta in
  (if negb first && negb (stdin_loop cfg) then
     (if general_stop cfg
         && Py.Qgtb (Qabs time_delta) (general_threshold cfg)
      then
        messenger_error cfg
          ("Sync tolerance value exceeded with " +:+ fmt_2f env time_delta
             +:+ " seconds," +:+ Py.nl +:+ "program terminated!");;
        raise (SystemExit 1)
      else mret tt);;
     messenger_debug ("time_delta: " +:+ str_float env time_delta)
   else mret tt);;
  mret (target_playtime, time_delta).

(** The value returned by [handle_list_end] and [timed_source]:
    [(src_cmd, seek, out, next_playlist)]. *)
Definition timed := (option (list string) * Q * Q * bool)%type.

Definition handle_list_end (time_delta ref_time : Q) (src : option string)
    (begin dur seek out : Q) : M timed :=
  let new_length := ref_time - (begin + time_delta) in
  let new_out := if Py.Qgtb seek 0 then seek + new_length else new_length in
  new_out ←
    (if Py.Qgtb new_out dur then mret dur
     else
       messenger_info cfg
         ("We are over time, new length is: " +:+ fmt_2f env new_length);;
       mret new_out);
  if Py.Qgtb new_length 3 then
    src_cmd ← src_or_dummy src dur seek new_out;
    mret (Some src_cmd, seek, new_out, true)
  else if Py.Qgtb new_length 1 then
    mret (Some (gen_dummy new_length), seek, new_out, true)
  else if Py.Qgtb new_length 0 then
    messenger_info cfg
      ("Last clip less then a second long, skip:" +:+ Py.nl
         +:+ str_src src);;
    mret (None, seek, new_out, true)
  else
    let missing_secs := Qabs (new_length - dur) in
    src_cmd ← src_or_dummy src dur seek out;
    messenger_error cfg
      ("Playlist is not long enough:" +:+ Py.nl
         +:+ fmt_2f env missing_secs +:+ " seconds needed.");;
    mret (Some src_cmd, seek, out, false).

Definition timed_source (current_time : Q) (src : option string)
    (begin dur seek out : Q) (first last : bool) : M timed :=
  '(target_playtime, time_delta) ← get_delta current_time begin seek first;
  let ref_time := target_playtime + playlist_start cfg in
  if first then
    let new_seek := Qabs time_delta in
    let new_seek := if Py.Qgtb 1 new_seek then 0 else new_seek in
    src_cmd ← src_or_dummy src dur new_seek out;
    mret (Some src_cmd, new_seek, out, false)
  else if (Py.Qltb (begin + out + time_delta) ref_time && negb last)
          || negb (Py.truthy (playlist_length cfg))
          || stdin_loop cfg then
    src_cmd ← src_or_dummy src dur seek out;
    mret (Some src_cmd, seek, out, false)
  else if Py.Qgtb (begin + time_delta) ref_time then
    messenger_info cfg
      ("Start time is over " +:+ str_timedelta env target_playtime
         +:+ ", skip clip:" +:+ Py.nl +:+ str_src src);;
    mret (None, 0, 0, true)
  else if Py.Qgtb (begin + out + time_delta) ref_time || last then
    handle_list_end time_delta ref_time src begin dur seek out
  else mret (None, 0, 0, true).

End Timing.

(** ** [MediaProbe.load] *)

Section Probe.
Context (cfg : Config) (env : Env).

Local Open Scope Q_scope.

Definition float_div (a b : Q) : M Q :=
  if Qeq_bool b 0 then raise ZeroDivisionError else mret (a / b).

Definition load_video (rv : raw_video) : M video_stream :=
  aspect ←
    match rv_display_aspect_ratio rv with
    | None => float_div (inject_Z (rv_width rv)) (inject_Z (rv_height rv))
    | Some (a, b) => float_div a b
    end;
  fps ← float_div (fst (rv_r_frame_rate rv)) (snd (rv_r_frame_rate rv));
  mret {| v_field_order := rv_field_order rv;
          v_aspect := aspect;
          v_fps := fps;
          v_width := rv_width rv;
          v_height := rv_height rv;
          v_duration := rv_duration rv |}.

Fixpoint load_streams (streams : list raw_stream) (probe : MediaProbe)
  : M MediaProbe :=
  match streams with
  | [] => mret probe
  | RawAudio a :: rest =>
      load_streams rest
        {| probe_src := probe_src probe;
           probe_format := probe_format probe;
           probe_audio := probe_audio probe ++ [Some a];
           probe_video := probe_video probe |}
  | RawVideo rv :: rest =>
      v ← load_video rv;
      load_streams rest
        {| probe_src := probe_src probe;
           probe_format := probe_format probe;
           probe_audio := probe_audio probe;
           probe_video := probe_video probe ++ [Some v] |}
  | RawOther :: rest => load_streams rest probe
  end.

Definition load (file : string) : M MediaProbe :=
  match ffprobe_info env file with
  | None =>
      messenger_error cfg ("MediaProbe error in: " +:+ file);;
      mret {| probe_src := file; probe_format := None;
              probe_audio := [None]; probe_video := [None] |}
  | Some info =>
      load_streams (ri_streams info)
        {| probe_src := file; probe_format := Some (ri_format info);
           probe_audio := []; probe_video := [] |}
  end.

(** [float(probe.format['duration'])] *)
Definition format_duration (probe : MediaProbe) : M Q :=
  match probe_format probe with
  | None => raise TypeError
  | Some None => raise KeyError
  | Some (Some d) => mret d
  end.

End Probe.

(** ** The folder source: [MediaStore] and [GetSource] *)

(** The order of [sorted] on paths. *)
Definition str_le (a b : string) : Prop := String.leb a b = true.

Global Instance str_le_dec : RelDecision str_le.
Proof. intros a b. unfold str_le. apply _. Defined.

Module MediaStore.

Section Methods.
Context (cfg : Config).
(** [glob.glob(os.path.join(folder, '**', ext), recursive=True)] *)
Context (glob : string → list string).

Definition sort (store : list string) : list string :=
  merge_sort str_le store.

Definition fill (store : list string) : list string :=
  sort (foldl (λ st ext, st ++ glob ext) store (storage_extensions cfg)).

Definition add (store : list string) (file : string) : list string :=
  sort (store ++ [file]).

(** [list.remove]: drops the first occurrence, [None] for [ValueError] *)
Fixpoint list_remove (file : string) (l : list string)
  : option (list string) :=
  match l with
  | [] => None
  | x :: r =>
      if String.eqb x file then Some r
      else option_map (cons x) (list_remove file r)
  end.

Definition remove (store : list string) (file : string)
  : option (list string) :=
  option_map sort (list_remove file store).

End Methods.

End MediaStore.

Module GetSource.

Record t := {
  last_played : list string;
  index : nat
}.

Section Methods.
Context (cfg : Config) (env : Env).

Definition init : t := {| last_played := []; index := 0 |}.

(** [random.choice(store)], driven by the random number [r] *)
Definition random_choice (store : list string) (r : nat) : M string :=
  match store !! (r mod length store)%nat with
  | Some clip => mret clip
  | None => raise IndexError
  end.

(** [len(l)] as a number *)
Definition len_Q (l : list string) : Q := inject_Z (Z.of_nat (length l)).

(** [probe.load(clip)], the default filter graph and the [yield] *)
Definition emit_clip (clip : string) : M unit :=
  probe ← load cfg env clip;
  d ← format_duration probe;
  d' ← format_duration probe;
  filtergraph ←
    build_filtergraph cfg env d 0 d' false false false false probe;
  emit [Yielded (["-i"; clip] ++ filtergraph)].

(** One turn of the [while True] loop of [next] in shuffle mode. *)
Definition next_shuffle (store : list string) (r : nat) (g : t) : M t :=
  clip ← random_choice store r;
  let last_played :=
    if Py.Qgtb (len_Q (last_played g)) (len_Q store / 2)
    then drop 1 (last_played g) else last_played g in
  if negb (existsb (String.eqb clip) last_played) then
    let last_played := last_played ++ [clip] in
    emit_clip clip;;
    mret {| last_played := last_played; index := index g |}
  else mret {| last_played := last_played; index := index g |}.

(** One turn of the inner loop in sorted mode: a clip, or the wrap back to
    index 0. *)
Definition next_sorted (store : list string) (g : t) : M t :=
  match store !! index g with
  | Some clip =>
      emit_clip clip;;
      mret {| last_played := last_played g; index := S (index g) |}
  | None => mret {| last_played := last_played g; index := 0 |}
  end.

Definition next_turn (store : list string) (r : nat) (g : t) : M t :=
  if storage_shuffle cfg then next_shuffle store r g
  else next_sorted store g.

(** The generator, run for as many turns as there are random numbers. *)
Fixpoint next (store : list string) (rs : list nat) (g : t) : M t :=
  match rs with
  | [] => mret g
  | r :: rs' => g' ← next_turn store r g; next store rs' g'
  end.

End Methods.

End GetSource.

(** ** The playlist iterator: [GetSourceIter] *)

(** A JSON value of a clip node, a clip node, and a playlist document with
    its [program] array. *)
Inductive jval :=
| JNum (q : Q)
| JStr (s : string)
| JBool (b : bool)
| JNull.

Definition node := gmap string jval.

Record playlist_doc := {
  doc_date : option string;
  doc_program : list node
}.

Module GetSourceIter.

(** The attributes of the iterator object.  [begin] and [next_playlist] are
    not set by [__init__]: they are [None] until [next] and [get_input]
    assign them. *)
Record t := {
  init_time : Q;
  last_time : Q;
  total_playtime : Q;
  last_mod_time : Q;
  json_file : option string;
  clip_nodes : option playlist_doc;
  src_cmd : option (list string);
  probe : MediaProbe;
  filtergraph : list string;
  first : bool;
  last : bool;
  list_date : string;
  is_dummy : bool;
  last_error : string;
  timestamp : Q;
  src : option string;
  seek : Q;
  out : Q;
  duration : Q;
  ad : bool;
  ad_last : bool;
  ad_next : bool;
  begin : option Q;
  next_playlist : option bool
}.

(** Attribute assignment, [self.x = v]. *)
Definition with_last_time (v : Q) (s : t) : t :=
  {| init_time := init_time s; last_time := v;
     total_playtime := total_playtime s; last_mod_time := last_mod_time s;
     json_file := json_file s; clip_nodes := clip_nodes s;
     src_cmd := src_cmd s; probe := probe s; filtergraph := filtergraph s;
     first := first s; last := last s; list_date := list_date s;
     is_dummy := is_dummy s; last_error := last_error s;
     timestamp := timestamp s; src := src s; seek := seek s; out := out s;
     duration := duration s; ad := ad s; ad_last := ad_last s;
     ad_next := ad_next s; begin := begin s;
     next_playlist := next_playlist s |}.

Definition with_last_mod_time (v : Q) (s : t) : t :=
  {| init_time := init_time s; last_time := last_time s;
     total_playtime := total_playtime s; last_mod_time := v;
     json_file := json_file s; clip_nodes := clip_nodes s;
     src_cmd := src_cmd s; probe := probe s; filtergraph := filtergraph s;
     first := first s; last := last s; list_date := list_date s;
     is_dummy := is_dummy s; last_error := last_error s;
     timestamp := timestamp s; src := src s; seek := seek s; out := out s;
     duration := duration s; ad := ad s; ad_last := ad_last s;
     ad_next := ad_next s; begin := begin s;
     next_playlist := next_playlist s |}.

Definition with_src_cmd (v : option (list string)) (s : t) : t :=
  {| init_time := init_time s; last_time := last_time s;
     total_playtime := total_playtime s; last_mod_time := last_mod_time s;
     json_file := json_file s; clip_nodes := clip_nodes s; src_cmd := v;
     probe := probe s; filtergraph := filtergraph s; first := first s;
     last := last s; list_date := list_date s; is_dummy := is_dummy s;
     last_error := last_error s; timestamp := timestamp s; src := src s;
     seek := seek s; out := out s; duration := duration s; ad := ad s;
     ad_last := ad_last s; ad_next := ad_next s; begin := begin s;
     next_playlist := next_playlist s |}.

Definition with_probe (v : MediaProbe) (s : t) : t :=
  {| init_time := init_time s; last_time := last_time s;
     total_playtime := total_playtime s; last_mod_time := last_mod_time s;
     json_file := json_file s; clip_nodes := clip_nodes s;
     src_cmd := src_cmd s; probe := v; filtergraph := filtergraph s;
     first := first s; last := last s; list_date := list_date s;
     is_dummy := is_dummy s; last_error := last_error s;
     timestamp := timestamp s; src := src s; seek := seek s; out := out s;
     duration := duration s; ad := ad s; ad_last := ad_last s;
     ad_next := ad_next s; begin := begin s;
     next_playlist := next_playlist s |}.

Definition with_filtergraph (v : list string) (s : t) : t :=
  {| init_time := init_time s; last_time := last_time s;
     total_playtime := total_playtime s; last_mod_time := last_mod_time s;
     json_file := json_file s; clip_nodes := clip_nodes s;
     src_cmd := src_cmd s; probe := probe s; filtergraph := v;
     first := first s; last := last s; list_date := list_date s;
     is_dummy := is_dummy s; last_error := last_error s;
     timestamp := timestamp s; src := src s; seek := seek s; out := out s;
     duration := duration s; ad := ad s; ad_last := ad_last s;
     ad_next := ad_next s; begin := begin s;
     next_playlist := next_playlist s |}.

Definition with_first (v : bool) (s : t) : t :=
  {| init_time := init_time s; last_time := last_time s;
     total_playtime := total_playtime s; last_mod_time := last_mod_time s;
     json_file := json_file s; clip_nodes := clip_nodes s;
     src_cmd := src_cmd s; probe := probe s; filtergraph := filtergraph s;
     first := v; last := last s; list_date := list_date s;
     is_dummy := is_dummy s; last_error := last_error s;
     timestamp := timestamp s; src := src s; seek := seek s; out := out s;
     duration := duration s; ad := ad s; ad_last := ad_last s;
     ad_next := ad_next s; begin := begin s;
     next_playlist := next_playlist s |}.

Definition with_last (v : bool) (s : t) : t :=
  {| init_time := init_time s; last_time := last_time s;
     total_playtime := total_playtime s; last_mod_time := last_mod_time s;
     json_file := json_file s; clip_nodes := clip_nodes s;
     src_cmd := src_cmd s; probe := probe s; filtergraph := filtergraph s;
     first := first s; last := v; list_date := list_date s;
     is_dummy := is_dummy s; last_error := last_error s;
     timestamp := timestamp s; src := src s; seek := seek s; out := out s;
     duration := duration s; ad := ad s; ad_last := ad_last s;
     ad_next := ad_next s; begin := begin s;
     next_playlist := next_playlist s |}.

Definition with_list_date (v : string) (s : t) : t :=
  {| init_time := init_time s; last_time := last_time s;
     total_playtime := total_playtime s; last_mod_time := last_mod_time s;
     json_file := json_file s; clip_nodes := clip_nodes s;
     src_cmd := src_cmd s; probe := probe s; filtergraph := filtergraph s;
     first := first s; last := last s; list_date := v;
     is_dummy := is_dummy s; last_error := last_error s;
     timestamp := timestamp s; src := src s; seek := seek s; out := out s;
     duration := duration s; ad := ad s; ad_last := ad_last s;
     ad_next := ad_next s; begin := begin s;
     next_playlist := next_playlist s |}.

Definition with_is_dummy (v : bool) (s : t) : t :=
  {| init_time := init_time s; last_time := last_time s;
     total_playtime := total_playtime s; last_mod_time := last_mod_time s;
     json_file := json_file s; clip_nodes := clip_nodes s;
     src_cmd := src_cmd s; probe := probe s; filtergraph := filtergraph s;
     first := first s; last := last s; list_date := list_date s;
     is_dummy := v; last_error := last_error s; timestamp := timestamp s;
     src := src s; seek := seek s; out := out s; duration := duration s;
     ad := ad s; ad_last := ad_last s; ad_next := ad_next s;
     begin := begin s; next_playlist := next_playlist s |}.

Definition with_last_error (v : string) (s : t) : t :=
  {| init_time := init_time s; last_time := last_time s;
     total_playtime := total_playtime s; last_mod_time := last_mod_time s;
     json_file := json_file s; clip_nodes := clip_nodes s;
     src_cmd := src_cmd s; probe := probe s; filtergraph := filtergraph s;
     first := first s; last := last s; list_date := list_date s;
     is_dummy := is_dummy s; last_error := v; timestamp := timestamp s;
     src := src s; seek := seek s; out := out s; duration := duration s;
     ad := ad s; ad_last := ad_last s; ad_next := ad_next s;
     begin := begin s; next_playlist := next_playlist s |}.

Definition with_timestamp (v : Q) (s : t) : t :=
  {| init_time := init_time s; last_time := last_time s;
     total_playtime := total_playtime s; last_mod_time := last_mod_time s;
     json_file := json_file s; clip_nodes := clip_nodes s;
     src_cmd := src_cmd s; probe := probe s; filtergraph := filtergraph s;
     first := first s; last := last s; list_date := list_date s;
     is_dummy := is_dummy s; last_error := last_error s; timestamp := v;
     src := src s; seek := seek s; out := out s; duration := duration s;
     ad := ad s; ad_last := ad_last s; ad_next := ad_next s;
     begin := begin s; next_playlist := next_playlist s |}.

Definition with_src (v : option string) (s : t) : t :=
  {| init_time := init_time s; last_time := last_time s;
     total_playtime := total_playtime s; last_mod_time := last_mod_time s;
     json_file := json_file s; clip_nodes := clip_nodes s;
     src_cmd := src_cmd s; probe := probe s; filtergraph := filtergraph s;
     first := first s; last := last s; list_date := list_date s;
     is_dummy := is_dummy s; last_error := last_error s;
     timestamp := timestamp s; src := v; seek := seek s; out := out s;
     duration := duration s; ad := ad s; ad_last := ad_last s;
     ad_next := ad_next s; begin := begin s;
     next_playlist := next_playlist s |}.

Definition with_seek (v : Q) (s : t) : t :=
  {| init_time := init_time s; last_time := last_time s;
     total_playtime := total_playtime s; last_mod_time := last_mod_time s;
     json_file := json_file s; clip_nodes := clip_nodes s;
     src_cmd := src_cmd s; probe := probe s; filtergraph := filtergraph s;
     first := first s; last := last s; list_date := list_date s;
     is_dummy := is_dummy s; last_error := last_error s;
     timestamp := timestamp s; src := src s; seek := v; out := out s;
     duration := duration s; ad := ad s; ad_last := ad_last s;
     ad_next := ad_next s; begin := begin s;
     next_playlist := next_playlist s |}.

Definition with_out (v : Q) (s : t) : t :=
  {| init_time := init_time s; last_time := last_time s;
     total_playtime := total_playtime s; last_mod_time := last_mod_time s;
     json_file := json_file s; clip_nodes := clip_nodes s;
     src_cmd := src_cmd s; probe := probe s; filtergraph := filtergraph s;
     first := first s; last := last s; list_date := list_date s;
     is_dummy := is_dummy s; last_error := last_error s;
     timestamp := timestamp s; src := src s; seek := seek s; out := v;
     duration := duration s; ad := ad s; ad_last := ad_last s;
     ad_next := ad_next s; begin := begin s;
     next_playlist := next_playlist s |}.

Definition with_duration (v : Q) (s : t) : t :=
  {| init_time := init_time s; last_time := last_time s;
     total_playtime := total_playtime s; last_mod_time := last_mod_time s;
     json_file := json_file s; clip_nodes := clip_nodes s;
     src_cmd := src_cmd s; probe := probe s; filtergraph := filtergraph s;
     first := first s; last := last s; list_date := list_date s;
     is_dummy := is_dummy s; last_error := last_error s;
     timestamp := timestamp s; src := src s; seek := seek s; out := out s;
     duration := v; ad := ad s; ad_last := ad_last s; ad_next := ad_next s;
     begin := begin s; next_playlist := next_playlist s |}.

Definition with_ad (v : bool) (s : t) : t :=
  {| init_time := init_time s; last_time := last_time s;
     total_playtime := total_playtime s; last_mod_time := last_mod_time s;
     json_file := json_file s; clip_nodes := clip_nodes s;
     src_cmd := src_cmd s; probe := probe s; filtergraph := filtergraph s;
     first := first s; last := last s; list_date := list_date s;
     is_dummy := is_dummy s; last_error := last_error s;
     timestamp := timestamp s; src := src s; seek := seek s; out := out s;
     duration := duration s; ad := v; ad_last := ad_last s;
     ad_next := ad_next s; begin := begin s;
     next_playlist := next_playlist s |}.

Definition with_ad_last (v : bool) (s : t) : t :=
  {| init_time := init_time s; last_time := last_time s;
     total_playtime := total_playtime s; last_mod_time := last_mod_time s;
     json_file := json_file s; clip_nodes := clip_nodes s;
     src_cmd := src_cmd s; probe := probe s; filtergraph := filtergraph s;
     first := first s; last := last s; list_date := list_date s;
     is_dummy := is_dummy s; last_error := last_error s;
     timestamp := timestamp s; src := src s; seek := seek s; out := out s;
     duration := duration s; ad := ad s; ad_last := v;
     ad_next := ad_next s; begin := begin s;
     next_playlist := next_playlist s |}.

Definition with_ad_next (v : bool) (s : t) : t :=
  {| init_time := init_time s; last_time := last_time s;
     total_playtime := total_playtime s; last_mod_time := last_mod_time s;
     json_file := json_file s; clip_nodes := clip_nodes s;
     src_cmd := src_cmd s; probe := probe s; filtergraph := filtergraph s;
     first := first s; last := last s; list_date := list_date s;
     is_dummy := is_dummy s; last_error := last_error s;
     timestamp := timestamp s; src := src s; seek := seek s; out := out s;
     duration := duration s; ad := ad s; ad_last := ad_last s;
     ad_next := v; begin := begin s; next_playlist := next_playlist s |}.

Definition with_next_playlist (v : option bool) (s : t) : t :=
  {| init_time := init_time s; last_time := last_time s;
     total_playtime := total_playtime s; last_mod_time := last_mod_time s;
     json_file := json_file s; clip_nodes := clip_nodes s;
     src_cmd := src_cmd s; probe := probe s; filtergraph := filtergraph s;
     first := first s; last := last s; list_date := list_date s;
     is_dummy := is_dummy s; last_error := last_error s;
     timestamp := timestamp s; src := src s; seek := seek s; out := out s;
     duration := duration s; ad := ad s; ad_last := ad_last s;
     ad_next := ad_next s; begin := begin s; next_playlist := v |}.
Definition with_json_file (v : option string) (s : t) : t :=
  {| init_time := init_time s; last_time := last_time s;
     total_playtime := total_playtime s; last_mod_time := last_mod_time s;
     json_file := v; clip_nodes := clip_nodes s; src_cmd := src_cmd s;
     probe := probe s; filtergraph := filtergraph s; first := first s;
     last := last s; list_date := list_date s; is_dummy := is_dummy s;
     last_error := last_error s; timestamp := timestamp s; src := src s;
     seek := seek s; out := out s; duration := duration s; ad := ad s;
     ad_last := ad_last s; ad_next := ad_next s; begin := begin s;
     next_playlist := next_playlist s |}.

Definition with_clip_nodes (v : option playlist_doc) (s : t) : t :=
  {| init_time := init_time s; last_time := last_time s;
     total_playtime := total_playtime s; last_mod_time := last_mod_time s;
     json_file := json_file s; clip_nodes := v; src_cmd := src_cmd s;
     probe := probe s; filtergraph := filtergraph s; first := first s;
     last := last s; list_date := list_date s; is_dummy := is_dummy s;
     last_error := last_error s; timestamp := timestamp s; src := src s;
     seek := seek s; out := out s; duration := duration s; ad := ad s;
     ad_last := ad_last s; ad_next := ad_next s; begin := begin s;
     next_playlist := next_playlist s |}.

Definition with_begin (v : option Q) (s : t) : t :=
  {| init_time := init_time s; last_time := last_time s;
     total_playtime := total_playtime s; last_mod_time := last_mod_time s;
     json_file := json_file s; clip_nodes := clip_nodes s;
     src_cmd := src_cmd s; probe := probe s; filtergraph := filtergraph s;
     first := first s; last := last s; list_date := list_date s;
     is_dummy := is_dummy s; last_error := last_error s;
     timestamp := timestamp s; src := src s; seek := seek s; out := out s;
     duration := duration s; ad := ad s; ad_last := ad_last s;
     ad_next := ad_next s; begin := v; next_playlist := next_playlist s |}.

Section Methods.
Context (cfg : Config) (env : Env).

Local Open Scope Q_scope.

(** [__init__].  [now] is the reading of [get_time('full_sec')], [date] the
    value of [get_date(True)] and [stamp] the reading of
    [get_time('stamp')].  The fresh [MediaProbe()] carries no attributes
    yet; it is only read after a [load]. *)
Definition init (now stamp : Q) (date : string) : t :=
  let total := total_playtime_of cfg in
  {| init_time := playlist_start cfg;
     last_time :=
       if Py.Qltb now (playlist_start cfg) then now + total else now;
     total_playtime := total;
     last_mod_time := 0;
     json_file := None;
     clip_nodes := None;
     src_cmd := None;
     probe := {| probe_src := ""; probe_format := None;
                 probe_audio := []; probe_video := [] |};
     filtergraph := [];
     first := true;
     last := false;
     list_date := date;
     is_dummy := false;
     last_error := "";
     timestamp := stamp;
     src := None;
     seek := 0;
     out := 20;
     duration := 20;
     ad := false;
     ad_last := false;
     ad_next := false;
     begin := None;
     next_playlist := None |}.

Definition url_or_live_source (s : t) : M t :=
  match src s with
  | None => raise AttributeError
  | Some source =>
      if is_live cfg (Some source) then
        output ←
          match ffprobe_duration env source with
          | Some o => mret (Some o)
          | None =>
              messenger_error cfg
                ("ffprobe error: " +:+ ffprobe_error env source);;
              mret None
          end;
        match output with
        | Some o =>
            if negb (Py.nonempty o) then
              messenger_error cfg
                ("URL not exist:" +:+ Py.nl +:+ source);;
              mret (with_src None s)
            else
              match parse_float env o with
              | Some d => mret (with_duration d s)
              | None =>
                  mret (with_seek 0
                          (with_out (out s - seek s)
                             (with_duration (total_playtime s) s)))
              end
        | None =>
            messenger_error cfg ("URL not exist:" +:+ Py.nl +:+ source);;
            mret (with_src None s)
        end
      else mret s
  end.

(** [now] is the reading of [get_time('full_sec')] in [get_delta]. *)
Definition get_input (now : Q) (s : t) : M t :=
  match begin s with
  | None => raise AttributeError
  | Some b =>
      '(cmd, new_seek, new_out, np) ←
        timed_source cfg env now (src s) b (duration s) (seek s) (out s)
          (first s) (last s);
      mret (with_next_playlist (Some np)
              (with_out new_out (with_seek new_seek (with_src_cmd cmd s))))
  end.

Definition is_source_dummy (s : t) : t :=
  match src_cmd s with
  | Some (x :: l) =>
      if existsb (String.eqb "lavfi") (x :: l) then with_is_dummy true s
      else with_is_dummy false s
  | _ => with_is_dummy false s
  end.

(** [self.clip_nodes["program"]] *)
Definition program (s : t) : M (list node) :=
  match clip_nodes s with
  | None => raise TypeError
  | Some doc => mret (doc_program doc)
  end.

(** [self.clip_nodes["program"][i]["category"]] *)
Definition category_at (s : t) (i : nat) : M jval :=
  p ← program s;
  match p !! i with
  | None => raise IndexError
  | Some n =>
      match n !! "category" with
      | None => raise KeyError
      | Some c => mret c
      end
  end.

Definition is_advertisement (c : jval) : bool :=
  match c with
  | JStr c => String.eqb c "advertisement"
  | _ => false
  end.

Definition get_category (index : nat) (nd : node) (s : t) : M t :=
  match nd !! "category" with
  | Some category =>
      last_category ←
        (if (0 <=? Z.of_nat index - 1)%Z then category_at s (index - 1)
         else mret (JStr "noad"));
      p ← program s;
      next_category ←
        (if (Z.of_nat index + 2 <=? Z.of_nat (length p))%Z
         then category_at s (index + 1)
         else mret (JStr "noad"));
      let s := with_ad (is_advertisement category) s in
      let s := with_ad_last (is_advertisement last_category) s in
      let s := with_ad_next (is_advertisement next_category) s in
      mret s
  | None => mret s
  end.

Definition set_filtergraph (s : t) : M t :=
  fg ← build_filtergraph cfg env (duration s) (seek s) (out s)
         (ad s) (ad_last s) (ad_next s) (is_dummy s) (probe s);
  mret (with_filtergraph fg s).

(** [_playlist.length != 86400.0] *)
Definition length_differs : bool :=
  match playlist_length cfg with
  | Some l => Py.Qneqb l 86400
  | None => true
  end.

(** [today] is the value of [get_date(False)]. *)
Definition check_for_next_playlist (today : string) (s : t) : M t :=
  match next_playlist s with
  | None => raise AttributeError
  | Some np =>
      if negb np then
        match begin s with
        | None => raise AttributeError
        | Some b => mret (with_last_time b s)
        end
      else if np && length_differs then
        mret (with_last_time (86400 * 2) s)
      else
        mret (with_last_time (playlist_start cfg - 1)
                (with_last_mod_time 0 (with_list_date today s)))
  end.

Definition str_json_file (s : t) : string :=
  match json_file s with Some f => f | None => "None" end.

(** [eof_handling].  [now] is the reading of [get_time('full_sec')],
    [today] the value of [get_date(False)], [stamp] and [stamp'] the two
    readings of [get_time('stamp')]. *)
Definition eof_handling (now : Q) (today : string) (stamp stamp' : Q)
    (message : string) (filler : bool) (s : t) : M t :=
  let s := with_seek 0 s in
  let s := with_ad false s in
  let ref_time := total_playtime s + playlist_start cfg in
  let current_time :=
    if Py.Qltb now (playlist_start cfg) then now + total_playtime s
    else now in
  let time_diff := out s - seek s + current_time in
  let new_len := out s - seek s - (time_diff - ref_time) in
  let s := with_out (Qabs new_len) s in
  let s := with_duration (Qabs new_len) s in
  let s := with_list_date today s in
  let s := with_last_mod_time 0 s in
  let s := with_first false s in
  let s := with_last_time 0 s in
  s ←
    (if filler && Py.Qgtb (out s) 2 then
       cmd ← gen_filler cfg env (duration s);
       let s := with_src_cmd (Some cmd) s in
       if Py.nonempty (storage_filler cfg) && isfile env (storage_filler cfg)
       then
         let s := with_is_dummy false s in
         let s := with_duration (duration s + 1) s in
         p ← load cfg env (storage_filler cfg);
         mret (with_probe p s)
       else mret (with_is_dummy true s)
     else
       mret (with_is_dummy true
               (with_src_cmd (Some (gen_dummy cfg env (duration s))) s)));
  s ← set_filtergraph s;
  s ←
    (if Py.Qgtb (stamp - timestamp s) 3600
        && negb (String.eqb message (last_error s))
     then
       let s := with_last_error message s in
       messenger_error cfg (message +:+ Py.nl +:+ str_json_file s);;
       mret (with_timestamp stamp' s)
     else mret s);
  messenger_error cfg (message +:+ " " +:+ str_json_file s);;
  mret (with_last false s).

(** [peperation_task]; a [source] entry that is not a string makes
    ffprobe's invocation raise [TypeError]. *)
Definition peperation_task (now : Q) (today : string) (index : nat)
    (nd : node) (s : t) : M t :=
  source ←
    match nd !! "source" with
    | None => raise KeyError
    | Some (JStr source) => mret source
    | Some _ => raise TypeError
    end;
  let s := with_src (Some source) s in
  p ← load cfg env source;
  let s := with_probe p s in
  s ← url_or_live_source s;
  s ← get_input now s;
  let s := is_source_dummy s in
  s ← get_category index nd s;
  s ← set_filtergraph s;
  check_for_next_playlist today s.

End Methods.

End GetSourceIter.

(** ** Observations on argument vectors, results and traces *)

(** How often the argument [a] occurs in the vector [V]. *)
Definition count_arg (a : string) (V : list string) : nat :=
  count_occ String.string_dec V a.

(** [a; b] occur next to each other in [V], as an option and its value. *)
Fixpoint has_pair (a b : string) (V : list string) : bool :=
  match V with
  | x :: ((y :: _) as r) =>
      (String.eqb x a && String.eqb y b) || has_pair a b r
  | _ => false
  end.

Definition is_pad (f : string) : bool := String.prefix "pad=" f.
Definition is_setdar (f : string) : bool := String.prefix "setdar=" f.
Definition is_pillarbox (f : string) : bool := String.prefix "pad=ih*" f.
Definition is_letterbox (f : string) : bool :=
  String.prefix "pad=iw:iw*" f.

(** A filter that is neither a pad nor a setdar filter. *)
Definition plain (f : string) : Prop :=
  is_pad f = false ∧ is_setdar f = false.

Definition mails (t : list event) : list string :=
  omap (λ e, match e with Mailed m => Some m | _ => None end) t.

Definition error_logs (t : list event) : list string :=
  omap (λ e, match e with Logged ERROR m => Some m | _ => None end) t.

(** The paths of the clips a trace yields, in order. *)
Fixpoint yielded_paths (t : list event) : list string :=
  match t with
  | [] => []
  | Yielded (_ :: clip :: _) :: t' => clip :: yielded_paths t'
  | _ :: t' => yielded_paths t'
  end.

(** A computation is quiet when its trace yields no clip. *)
Definition quiet {A} (m : M A) : Prop := yielded_paths (trace m) = [].

Definition outcome_map {A B} (f : A → B) (o : outcome A) : outcome B :=
  match o with
  | Return a => Return (f a)
  | Raise e => Raise e
  end.

(** The [new_out] component of what the input builder returns. *)
Definition new_out_of (r : outcome timed) : option Q :=
  match r with
  | Return (_, _, new_out, _) => Some new_out
  | Raise _ => None
  end.

(** The seek that the list-end handler adds to the remaining time. *)
Definition seek_offset (seek : Q) : Q :=
  if Py.Qgtb seek 0 then seek else 0%Q.

(** [new_out] as the list-end handler has it before its four cases. *)
Definition capped (dur seek remaining : Q) : Q :=
  let n := if Py.Qgtb seek 0 then (seek + remaining)%Q else remaining in
  if Py.Qgtb n dur then dur else n.

(** [x] clipped to the interval [[lo, hi]]. *)
Definition clip (lo hi x : Q) : Q := Qmax lo (Qmin x hi).

(** Every window of [k] consecutive entries of [l] is free of repeats. *)
Definition windows_nodup (k : nat) (l : list string) : Prop :=
  ∀ i, NoDup (take k (drop i l)).

(** The invariant that ties the shuffle history [lp] to the paths [H]
    yielded so far; [m] is [len(store) // 2]. *)
Record history_inv (m : nat) (H lp : list string) : Prop := {
  inv_suffix : lp `suffix_of` H;
  inv_nodup : NoDup lp;
  inv_bound : length lp ≤ S m;
  inv_recent : m ≤ length lp ∨ lp = H
}.

(** Everything the patterns match, in the order [fill] meets it. *)
Definition matched (cfg : Config) (glob : string → list string)
  : list string :=
  foldl (λ st ext, st ++ glob ext) [] (storage_extensions cfg).

(** All attributes of the iterator but [ad], [ad_last] and [ad_next]
    agree. *)
Definition same_but_ads (s s' : GetSourceIter.t) : Prop :=
  GetSourceIter.init_time s' = GetSourceIter.init_time s ∧
  GetSourceIter.last_time s' = GetSourceIter.last_time s ∧
  GetSourceIter.total_playtime s' = GetSourceIter.total_playtime s ∧
  GetSourceIter.last_mod_time s' = GetSourceIter.last_mod_time s ∧
  GetSourceIter.json_file s' = GetSourceIter.json_file s ∧
  GetSourceIter.clip_nodes s' = GetSourceIter.clip_nodes s ∧
  GetSourceIter.src_cmd s' = GetSourceIter.src_cmd s ∧
  GetSourceIter.probe s' = GetSourceIter.probe s ∧
  GetSourceIter.filtergraph s' = GetSourceIter.filtergraph s ∧
  GetSourceIter.first s' = GetSourceIter.first s ∧
  GetSourceIter.last s' = GetSourceIter.last s ∧
  GetSourceIter.list_date s' = GetSourceIter.list_date s ∧
  GetSourceIter.is_dummy s' = GetSourceIter.is_dummy s ∧
  GetSourceIter.last_error s' = GetSourceIter.last_error s ∧
  GetSourceIter.timestamp s' = GetSourceIter.timestamp s ∧
  GetSourceIter.src s' = GetSourceIter.src s ∧
  GetSourceIter.seek s' = GetSourceIter.seek s ∧
  GetSourceIter.out s' = GetSourceIter.out s ∧
  GetSourceIter.duration s' = GetSourceIter.duration s ∧
  GetSourceIter.begin s' = GetSourceIter.begin s ∧
  GetSourceIter.next_playlist s' = GetSourceIter.next_playlist s.

(** All attributes of the iterator but [last_time], [list_date] and
    [last_mod_time] agree. *)
Definition same_but_cursor (s s' : GetSourceIter.t) : Prop :=
  GetSourceIter.init_time s' = GetSourceIter.init_time s ∧
  GetSourceIter.total_playtime s' = GetSourceIter.total_playtime s ∧
  GetSourceIter.json_file s' = GetSourceIter.json_file s ∧
  GetSourceIter.clip_nodes s' = GetSourceIter.clip_nodes s ∧
  GetSourceIter.src_cmd s' = GetSourceIter.src_cmd s ∧
  GetSourceIter.probe s' = GetSourceIter.probe s ∧
  GetSourceIter.filtergraph s' = GetSourceIter.filtergraph s ∧
  GetSourceIter.first s' = GetSourceIter.first s ∧
  GetSourceIter.last s' = GetSourceIter.last s ∧
  GetSourceIter.is_dummy s' = GetSourceIter.is_dummy s ∧
  GetSourceIter.last_error s' = GetSourceIter.last_error s ∧
  GetSourceIter.timestamp s' = GetSourceIter.timestamp s ∧
  GetSourceIter.src s' = GetSourceIter.src s ∧
  GetSourceIter.seek s' = GetSourceIter.seek s ∧
  GetSourceIter.out s' = GetSourceIter.out s ∧
  GetSourceIter.duration s' = GetSourceIter.duration s ∧
  GetSourceIter.ad s' = GetSourceIter.ad s ∧
  GetSourceIter.ad_last s' = GetSourceIter.ad_last s ∧
  GetSourceIter.ad_next s' = GetSourceIter.ad_next s ∧
  GetSourceIter.begin s' = GetSourceIter.begin s ∧
  GetSourceIter.next_playlist s' = GetSourceIter.next_playlist s.

(** ** A sample installation, used to run the model on concrete inputs *)

(** A rendering of floats for the samples: [30.0] for a whole number, a
    fraction otherwise. *)
Definition show_Q (q : Q) : string :=
  if (Zpos (Qden q) =? 1)%Z then pretty (Qnum q) +:+ ".0"
  else pretty (Qnum q) +:+ "/" +:+ pretty (Zpos (Qden q)).

Definition sample_raw : raw_info :=
  {| ri_format := Some 30%Q;
     ri_streams :=
       [RawVideo {| rv_width := 1024%Z;
                    rv_height := 576%Z;
                    rv_display_aspect_ratio := Some (16%Q, 9%Q);
                    rv_r_frame_rate := (25%Q, 1%Q);
                    rv_field_order := Some "progressive";
                    rv_duration := Some 30%Q |};
        RawAudio {| a_duration := Some 30%Q |}] |}.

Definition sample_env : Env :=
  {| str_float := show_Q;
     fmt_2f := show_Q;
     str_timedelta := show_Q;
     parse_float := λ _, None;
     isfile := λ _, true;
     ffprobe_duration := λ _, None;
     ffprobe_error := λ _, "";
     ffprobe_info := λ _, Some sample_raw |}.

Definition sample_cfg : Config :=
  {| general_stop := false;
     general_threshold := 11%Q;
     mail_recip := "ops@example.org";
     mail_level := "ERROR";
     pre_comp_add_logo := true;
     pre_comp_logo := "logo.png";
     pre_comp_opacity := "0.7";
     pre_comp_logo_filter := "overlay=W-w-12:12";
     pre_comp_add_loudnorm := false;
     pre_comp_loud_i := (-18)%Q;
     pre_comp_loud_tp := (-3 # 2)%Q;
     pre_comp_loud_lra := 11%Q;
     pre_comp_protocols := "http, https, ftp, smb, sftp, rtmp";
     pre_comp_w := 1024%Z;
     pre_comp_h := 576%Z;
     pre_comp_aspect := (16 # 9)%Q;
     pre_comp_fps := 25%Z;
     playlist_start := 21600%Q;
     playlist_length := Some 86400%Q;
     storage_filler := "filler.mp4";
     storage_extensions := ["*.mp4"];
     storage_shuffle := true;
     stdin_loop := false |}.

(** The configuration [c] with another target aspect and playlist
    length. *)
Definition with_aspect_length (a : Q) (l : option Q) (c : Config)
  : Config :=
  {| general_stop := general_stop c;
     general_threshold := general_threshold c;
     mail_recip := mail_recip c;
     mail_level := mail_level c;
     pre_comp_add_logo := pre_comp_add_logo c;
     pre_comp_logo := pre_comp_logo c;
     pre_comp_opacity := pre_comp_opacity c;
     pre_comp_logo_filter := pre_comp_logo_filter c;
     pre_comp_add_loudnorm := pre_comp_add_loudnorm c;
     pre_comp_loud_i := pre_comp_loud_i c;
     pre_comp_loud_tp := pre_comp_loud_tp c;
     pre_comp_loud_lra := pre_comp_loud_lra c;
     pre_comp_protocols := pre_comp_protocols c;
     pre_comp_w := pre_comp_w c;
     pre_comp_h := pre_comp_h c;
     pre_comp_aspect := a;
     pre_comp_fps := pre_comp_fps c;
     playlist_start := playlist_start c;
     playlist_length := l;
     storage_filler := storage_filler c;
     storage_extensions := storage_extensions c;
     storage_shuffle := storage_shuffle c;
     stdin_loop := stdin_loop c |}.

(** A target aspect of [1e8] and a playlist of 25 hours. *)
Definition wide_cfg : Config :=
  with_aspect_length 100000000%Q (Some 86400%Q) sample_cfg.

Definition long_cfg : Config :=
  with_aspect_length (16 # 9)%Q (Some 90000%Q) sample_cfg.

Definition video_with_aspect (a : Q) : video_stream :=
  {| v_field_order := Some "progressive";
     v_aspect := a;
     v_fps := 25%Q;
     v_width := 1024%Z;
     v_height := 576%Z;
     v_duration := Some 30%Q |}.

Definition probe_with_aspect (a : Q) : MediaProbe :=
  {| probe_src := "clip.mp4";
     probe_format := Some (Some 30%Q);
     probe_audio := [Some {| a_duration := Some 30%Q |}];
     probe_video := [Some (video_with_aspect a)] |}.

Definition sample_probe : MediaProbe := probe_with_aspect (16 # 9)%Q.

(** The vectors [build_filtergraph] returns for the sample clip, played
    whole: from the probed source, and for a dummy. *)
Definition sample_vector : list string :=
  ["-filter_complex";
   "[0:v]null[v];movie=logo.png,loop=loop=750.0:size=1:start=0,"
     +:+ "format=rgba,colorchannelmixer=aa=0.7[l];"
     +:+ "[v][l]overlay=W-w-12:12[logo]";
   "-filter_complex"; "[0:a]anull[a]";
   "-map"; "[logo]"; "-map"; "[a]"].

Definition sample_dummy_vector : list string :=
  ["-filter_complex";
   "[0:v]null[v];movie=logo.png,loop=loop=750.0:size=1:start=0,"
     +:+ "format=rgba,colorchannelmixer=aa=0.7[l];"
     +:+ "[v][l]overlay=W-w-12:12[logo]";
   "-map"; "[logo]"; "-map"; "1:a"].

(** A 4:3 clip, and a clip whose aspect is [1e8 + 1/16]. *)
Definition narrow_probe : MediaProbe := probe_with_aspect (4 # 3)%Q.
Definition wide_probe : MediaProbe :=
  probe_with_aspect (1600000001 # 16)%Q.

(** An iterator that has loaded a playlist path, at 08:20:00. *)
Definition sample_iter : GetSourceIter.t :=
  GetSourceIter.with_json_file (Some "playlists/2020/01/2020-01-01.json")
    (GetSourceIter.init sample_cfg 30000%Q 1000%Q "2020-01-01").

(** A clip node without a [category] entry. *)
Definition plain_node : node :=
  <["source" := JStr "clip.mp4"]> (<["in" := JNum 0%Q]>
    (<["out" := JNum 30%Q]> (<["duration" := JNum 30%Q]> ∅))).

Definition ad_node : node := <["category" := JStr "advertisement"]> plain_node.

(** The iterator after a clip inside the window, and after a clip that
    closes the window. *)
Definition normal_iter : GetSourceIter.t :=
  GetSourceIter.with_next_playlist (Some false)
    (GetSourceIter.with_begin (Some 21630%Q) sample_iter).

Definition boundary_iter : GetSourceIter.t :=
  GetSourceIter.with_next_playlist (Some true)
    (GetSourceIter.with_begin (Some 108000%Q) sample_iter).

(** The iterator after a clip that had all three ad flags set, and the
    iterator with a playlist of two advertisements loaded. *)
Definition ads_iter : GetSourceIter.t :=
  GetSourceIter.with_ad true
    (GetSourceIter.with_ad_last true
       (GetSourceIter.with_ad_next true sample_iter)).

Definition ad_doc : playlist_doc :=
  {| doc_date := Some "2020-01-01"; doc_program := [ad_node; ad_node] |}.

Definition loaded_iter : GetSourceIter.t :=
  GetSourceIter.with_clip_nodes (Some ad_doc) sample_iter.

Definition eof_message : string := "Playlist not exist:".

Definition eof_notice : string :=
  "Playlist not exist: playlists/2020/01/2020-01-01.json".


(** * The clock, the watcher and the walk over the playlist *)

(** ** The clock and the start time of [load_config] *)

Module Clock.

(** [get_time('full_sec')] for the clock reading
    [hour:minute:second.microsecond] *)
Definition full_sec (hour minute second microsecond : Z) : Q :=
  (inject_Z (hour * 3600 + minute * 60 + second)
   + inject_Z microsecond / 1000000)%Q.

(** [s.split(sep)] for a separator of one character *)
Fixpoint split (sep : Ascii.ascii) (s : string) : list string :=
  match s with
  | EmptyString => [EmptyString]
  | String c r =>
      if Ascii.eqb c sep then EmptyString :: split sep r
      else
        match split sep r with
        | [] => [String c EmptyString]
        | x :: xs => String c x :: xs
        end
  end.

Definition colon : Ascii.ascii := Ascii.ascii_of_nat 58.

(** [float(s[i])] inside the [try] of [str_to_sec]: a missing field raises
    [IndexError], which nothing catches; a field that is no number makes
    [str_to_sec] print a notice on the console and leave through
    [sys.exit(1)]. *)
Definition field (env : Env) (parts : list string) (i : nat) : M Q :=
  match parts !! i with
  | None => raise IndexError
  | Some f =>
      match parse_float env f with
      | Some x => mret x
      | None => raise (SystemExit 1)
      end
  end.

(** [str_to_sec]; the argument is [None] for Python's [None] *)
Definition str_to_sec (env : Env) (s : option string) : M (option Q) :=
  match s with
  | None => mret None
  | Some s =>
      if String.eqb s "now" || String.eqb s "" then mret None
      else
        let parts := split colon s in
        h ← field env parts 0;
        m ← field env parts 1;
        sec ← field env parts 2;
        mret (Some (h * 3600 + m * 60 + sec)%Q)
  end.

(** The start of the playlist day as [load_config] settles it: [start] is
    [stdin_args.start], [day_start] the configured text and [now] the
    reading of [get_time('full_sec')]. *)
Definition playlist_start_of (env : Env) (start : option string)
    (day_start : string) (now : Q) : M Q :=
  p_start ←
    match start with
    | Some s =>
        if Py.nonempty s then str_to_sec env (Some s)
        else str_to_sec env (Some day_start)
    | None => str_to_sec env (Some day_start)
    end;
  mret (if Py.truthy p_start then default 0%Q p_start else now).

End Clock.

(** ** [main]: the file named in the log *)

(** [src_cmd[i]] *)
Definition subscript (src_cmd : list string) (i : nat) : M string :=
  match src_cmd !! i with
  | Some x => mret x
  | None => raise IndexError
  end.

(** [current_file] of the emission loop in [main] *)
Definition current_file (src_cmd : list string) : M string :=
  a ← subscript src_cmd 0;
  if String.eqb a "-i" then subscript src_cmd 1 else subscript src_cmd 3.

(** ** The folder watcher: [MediaWatcher] *)

Module MediaWatcher.

Section Methods.
Context (cfg : Config).

(** [on_moved] and [on_deleted] on the store they share with the emitter.
    The result is [None] when [list.remove] raises [ValueError]; nothing
    is logged and nothing added in that case. *)
Definition on_moved (store : list string) (src_path dest_path : string)
  : option (list event * list string) :=
  match MediaStore.remove store src_path with
  | None => None
  | Some store =>
      Some (trace (messenger_info cfg
                     ("Move file from " +:+ Py.dq +:+ src_path +:+ Py.dq
                        +:+ " to " +:+ Py.dq +:+ dest_path +:+ Py.dq)),
            MediaStore.add store dest_path)
  end.

Definition on_deleted (store : list string) (src_path : string)
  : option (list event * list string) :=
  match MediaStore.remove store src_path with
  | None => None
  | Some store =>
      Some (trace (messenger_info cfg
                     ("Remove file from media list: " +:+ Py.dq
                        +:+ src_path +:+ Py.dq)),
            store)
  end.

End Methods.

End MediaWatcher.

(** ** The walk over the playlist in [GetSourceIter.next] *)

Module Walk.

(** What [get_clip_in_out] leaves in [self.seek], [self.duration] and
    [self.out]: the node's own value when [is_float] accepts it, which may
    be a number (a JSON boolean counts as 1 or 0) or a string that reads as
    a float and is stored as the string it is. *)
Inductive pyval :=
| PNum (q : Q)
| PStr (s : string).

Record clip := {
  seek : pyval;
  duration : pyval;
  out : pyval
}.

(** The value kept when [is_float(v)] holds, [None] when it does not. *)
Definition floatable (env : Env) (v : jval) : option pyval :=
  match v with
  | JNum q => Some (PNum q)
  | JBool b => Some (PNum (if b then 1%Q else 0%Q))
  | JStr s =>
      match parse_float env s with
      | Some _ => Some (PStr s)
      | None => None
      end
  | JNull => None
  end.

Definition is_float (env : Env) (v : jval) : bool :=
  match floatable env v with Some _ => true | None => false end.

(** [node[k]] *)
Definition item (nd : node) (k : string) : M jval :=
  match nd !! k with
  | Some v => mret v
  | None => raise KeyError
  end.

Definition get_clip_in_out (env : Env) (nd : node) : M clip :=
  i ← item nd "in";
  let seek := default (PNum 0%Q) (floatable env i) in
  d ← item nd "duration";
  let duration := default (PNum 20%Q) (floatable env d) in
  o ← item nd "out";
  let out := default duration (floatable env o) in
  mret {| seek := seek; duration := duration; out := out |}.

(** A stored value as an operand of [+] or [-] next to a number: a string
    raises [TypeError]. *)
Definition operand (v : pyval) : M Q :=
  match v with
  | PNum q => mret q
  | PStr _ => raise TypeError
  end.

(** [self.begin + self.out - self.seek] *)
Definition clip_end (begin : Q) (c : clip) : M Q :=
  o ← operand (out c);
  s ← operand (seek c);
  mret (begin + o - s)%Q.

(** [self.out - self.seek] *)
Definition clip_length (c : clip) : M Q :=
  o ← operand (out c);
  s ← operand (seek c);
  mret (o - s)%Q.

(** How the [for] loop ends: at the [break] after [peperation_task] for
    entry [index], scheduled at [begin], or exhausted (the loop's [else]).
    [catch_up] tells the first branch, after which [first] is cleared;
    [last] is [self.last] as the loop leaves it. *)
Inductive selection :=
| Prepare (index : nat) (nd : node) (c : clip) (begin : Q)
    (catch_up last : bool)
| Exhausted (begin : Q).

(** The [for] loop of [next] from entry [index] on, up to the call of
    [peperation_task]; [len] is [len(self.clip_nodes["program"])]. *)
Fixpoint walk (env : Env) (first : bool) (last_time : Q) (last : bool)
    (len index : nat) (begin : Q) (program : list node) : M selection :=
  match program with
  | [] => mret (Exhausted begin)
  | nd :: rest =>
      c ← get_clip_in_out env nd;
      catch_up ←
        (if first then
           e ← clip_end begin c; mret (Py.Qltb last_time e)
         else mret false);
      if (catch_up : bool) then mret (Prepare index nd c begin true last)
      else if Py.Qltb last_time begin then
        mret (Prepare index nd c begin false (index + 1 =? len)%nat)
      else
        l ← clip_length c;
        walk env first last_time last len (S index) (begin + l)%Q rest
  end.

(** The loop from its start: [self.begin = self.init_time]. *)
Definition select (env : Env) (first : bool) (last_time : Q) (last : bool)
    (init_time : Q) (program : list node) : M selection :=
  walk env first last_time last (length program) 0 init_time program.

End Walk.

(** ** More observations *)

(** *** On ffprobe reports *)

(** The audio streams of an ffprobe report, in order, as [load] stores
    them, and its video streams. *)
Definition audio_streams (streams : list raw_stream)
  : list (option audio_stream) :=
  omap (λ s, match s with RawAudio a => Some (Some a) | _ => None end)
    streams.

Definition video_streams (streams : list raw_stream) : list raw_video :=
  omap (λ s, match s with RawVideo rv => Some rv | _ => None end) streams.

(** A video stream whose aspect or frame rate has a zero denominator:
    height 0 without a display aspect ratio, a ratio [w:0], or a frame
    rate [a/0]. *)
Definition zero_denominator (rv : raw_video) : bool :=
  match rv_display_aspect_ratio rv with
  | None => (rv_height rv =? 0)%Z
  | Some (_, b) => Qeq_bool b 0
  end
  || Qeq_bool (snd (rv_r_frame_rate rv)) 0.

(** The aspect and frame rate [load] derives for a video stream. *)
Definition derived_aspect (rv : raw_video) : Q :=
  match rv_display_aspect_ratio rv with
  | None => (inject_Z (rv_width rv) / inject_Z (rv_height rv))%Q
  | Some (a, b) => (a / b)%Q
  end.

Definition derived_fps (rv : raw_video) : Q :=
  (fst (rv_r_frame_rate rv) / snd (rv_r_frame_rate rv))%Q.

(** The stream [load] stores for a video stream whose divisions succeed. *)
Definition derived_stream (rv : raw_video) : video_stream :=
  {| v_field_order := rv_field_order rv;
     v_aspect := derived_aspect rv;
     v_fps := derived_fps rv;
     v_width := rv_width rv;
     v_height := rv_height rv;
     v_duration := rv_duration rv |}.

(** *** On the program of a playlist *)

(** A node whose [in], [duration] and [out] are the JSON numbers [i], [d]
    and [o]. *)
Definition numeric_node (nd : node) (x : Q * Q * Q) : Prop :=
  nd !! "in" = Some (JNum x.1.1) ∧
  nd !! "duration" = Some (JNum x.1.2) ∧
  nd !! "out" = Some (JNum x.2).

(** The playing length [out − in] of such a node. *)
Definition playing_length (x : Q * Q * Q) : Q := (x.2 - x.1.1)%Q.

Definition Qsum (l : list Q) : Q := foldr Qplus 0%Q l.

(** The scheduled begin of entry [i]: the anchor plus the lengths of the
    entries before it. *)
Definition begin_of (init_time : Q) (xs : list (Q * Q * Q)) (i : nat) : Q :=
  (init_time + Qsum (playing_length <$> take i xs))%Q.

(** *** On texts *)

(** The character [c] occurs in [s]. *)
Fixpoint has_char (c : Ascii.ascii) (s : string) : bool :=
  match s with
  | EmptyString => false
  | String x r => Ascii.eqb x c || has_char c r
  end.

Fixpoint has_newline (s : string) : bool :=
  match s with
  | EmptyString => false
  | String c r => Ascii.eqb c Py.newline || has_newline r
  end.

(** A log entry takes one line. *)
Definition one_line (e : event) : Prop :=
  match e with Logged _ msg => has_newline msg = false | _ => True end.

(** *** On what is logged and mailed *)

(** The severity of a log level, and the severity from which on the
    configured mail level lets messages through ([None] for a level the
    mailer does not know). *)
Definition rank (l : level) : nat :=
  match l with DEBUG => 0 | INFO => 1 | WARNING => 2 | ERROR => 3 end.

Definition mail_threshold (cfg : Config) : option nat :=
  if String.eqb (mail_level cfg) "INFO" then Some 1
  else if String.eqb (mail_level cfg) "WARNING" then Some 2
  else if String.eqb (mail_level cfg) "ERROR" then Some 3
  else None.

(** A message logged at level [l] is also mailed: a recipient is set and
    the level reaches the threshold. *)
Definition mailable (cfg : Config) (l : level) : bool :=
  Py.nonempty (mail_recip cfg)
  && match mail_threshold cfg with
     | Some k => (k <=? rank l)%nat
     | None => false
     end.

(** The log entries of a trace that are mailable, in order. *)
Definition logs_mailable (cfg : Config) (t : list event) : list string :=
  omap (λ e, match e with
             | Logged l m => if mailable cfg l then Some m else None
             | _ => None
             end) t.

(** Mail and log agree: the mails of the trace are, in order and up to
    the replaced line breaks, its mailable log entries. *)
Definition mail_follows_log (cfg : Config) (t : list event) : Prop :=
  Py.replace_nl <$> mails t = logs_mailable cfg t.

(** Every log entry of the trace takes one line. *)
Definition one_line_log (t : list event) : Prop := Forall one_line t.

(** ** More samples *)

(** A second installation: ffprobe reports nothing but the filler's
    duration, and only the filler exists. *)

(** [float(s)] as far as the sample goes: a string of decimal digits *)
Fixpoint read_digits (acc : option Z) (s : string) : option Z :=
  match s with
  | EmptyString => acc
  | String c r =>
      let d := (Z.of_nat (Ascii.nat_of_ascii c) - 48)%Z in
      if ((0 <=? d) && (d <=? 9))%Z
      then read_digits (Some (10 * default 0%Z acc + d)%Z) r
      else None
  end.

Definition bare_env : Env :=
  {| str_float := show_Q;
     fmt_2f := show_Q;
     str_timedelta := show_Q;
     parse_float := λ s, inject_Z <$> read_digits None s;
     isfile := λ f, String.eqb f "filler.mp4";
     ffprobe_duration :=
       λ f, if String.eqb f "filler.mp4" then Some "25" else None;
     ffprobe_error := λ _, "exit status 1";
     ffprobe_info := λ _, None |}.

(** The sample configuration in sorted folder mode *)
Definition sorted_cfg : Config :=
  {| general_stop := general_stop sample_cfg;
     general_threshold := general_threshold sample_cfg;
     mail_recip := mail_recip sample_cfg;
     mail_level := mail_level sample_cfg;
     pre_comp_add_logo := pre_comp_add_logo sample_cfg;
     pre_comp_logo := pre_comp_logo sample_cfg;
     pre_comp_opacity := pre_comp_opacity sample_cfg;
     pre_comp_logo_filter := pre_comp_logo_filter sample_cfg;
     pre_comp_add_loudnorm := pre_comp_add_loudnorm sample_cfg;
     pre_comp_loud_i := pre_comp_loud_i sample_cfg;
     pre_comp_loud_tp := pre_comp_loud_tp sample_cfg;
     pre_comp_loud_lra := pre_comp_loud_lra sample_cfg;
     pre_comp_protocols := pre_comp_protocols sample_cfg;
     pre_comp_w := pre_comp_w sample_cfg;
     pre_comp_h := pre_comp_h sample_cfg;
     pre_comp_aspect := pre_comp_aspect sample_cfg;
     pre_comp_fps := pre_comp_fps sample_cfg;
     playlist_start := playlist_start sample_cfg;
     playlist_length := playlist_length sample_cfg;
     storage_filler := storage_filler sample_cfg;
     storage_extensions := storage_extensions sample_cfg;
     storage_shuffle := false;
     stdin_loop := stdin_loop sample_cfg |}.

(** A playlist whose second entry has no [category], loaded. *)
Definition mixed_doc : playlist_doc :=
  {| doc_date := Some "2020-01-01"; doc_program := [ad_node; plain_node] |}.

Definition mixed_iter : GetSourceIter.t :=
  GetSourceIter.with_clip_nodes (Some mixed_doc) sample_iter.

(** An entry whose file does not exist, the iterator about to prepare it
    as the first clip at 06:00:00, and the iterator about to prepare it as
    a clip of 60 seconds that begins one minute before the end of the
    day. *)
Definition missing_node : node := <["source" := JStr "gone.mp4"]> plain_node.

Definition first_iter : GetSourceIter.t :=
  GetSourceIter.with_begin (Some 21600%Q) sample_iter.

Definition closing_iter : GetSourceIter.t :=
  GetSourceIter.with_first false
    (GetSourceIter.with_out 60%Q
       (GetSourceIter.with_duration 60%Q
          (GetSourceIter.with_begin (Some 107940%Q) sample_iter))).

(** A program of three plain clips of 30 seconds, and their [in],
    [duration] and [out]. *)
Definition sample_program : list node := [plain_node; plain_node; plain_node].

Definition sample_times : list (Q * Q * Q) :=
  [(0, 30, 30)%Q; (0, 30, 30)%Q; (0, 30, 30)%Q].

(** A clip whose [out] is the text [30] instead of the number. *)
Definition quoted_node : node := <["out" := JStr "30"]> plain_node.

(** * Properties *)

(** ** The monad and the comparisons *)

Lemma bind_ret_l {A B} (a : A) (f : A → M B) : (mret a ≫= f) = f a.
Proof. unfold mret, M_ret, mbind, M_bind. by destruct (f a). Qed.

Lemma bind_Return {A B} (m : M A) (f : A → M B) t b :
  (m ≫= f) = (t, Return b) →
  ∃ t1 a t2, m = (t1, Return a) ∧ f a = (t2, Return b) ∧ t = t1 ++ t2.
Proof.
  unfold mbind, M_bind. destruct m as [t1 [a|e]]; [|discriminate].
  destruct (f a) as [t2 r] eqn:Hf. intros [= <- ->]. by exists t1, a, t2.
Qed.

Lemma result_bind {A B} (m : M A) (f : A → M B) :
  result (m ≫= f) =
  match result m with
  | Return a => result (f a)
  | Raise e => Raise e
  end.
Proof.
  unfold mbind, M_bind, result. destruct m as [t1 [a|e]]; simpl; [|done].
  by destruct (f a).
Qed.

Lemma trace_bind {A B} (m : M A) (f : A → M B) :
  trace (m ≫= f) =
  match result m with
  | Return a => trace m ++ trace (f a)
  | Raise e => trace m
  end.
Proof.
  unfold mbind, M_bind, result, trace.
  destruct m as [t1 [a|e]]; simpl; [|done]. by destruct (f a).
Qed.

Lemma Qltb_lt (x y : Q) : Py.Qltb x y = true ↔ (x < y)%Q.
Proof.
  unfold Py.Qltb. rewrite negb_true_iff, <- not_true_iff_false, Qle_bool_iff.
  split; [apply Qnot_le_lt | apply Qlt_not_le].
Qed.

Lemma Qltb_ge (x y : Q) : Py.Qltb x y = false ↔ (y <= x)%Q.
Proof. unfold Py.Qltb. rewrite negb_false_iff. apply Qle_bool_iff. Qed.

Lemma Qgtb_gt (x y : Q) : Py.Qgtb x y = true ↔ (y < x)%Q.
Proof. apply Qltb_lt. Qed.

Lemma Qgtb_le (x y : Q) : Py.Qgtb x y = false ↔ (x <= y)%Q.
Proof. apply Qltb_ge. Qed.

(** [math.isclose] accepts whatever lies within the absolute tolerance, and
    rejects what lies beyond both the absolute and the relative one. *)
Lemma isclose_abs_tol (a b tol : Q) :
  (Qabs (a - b) <= tol)%Q → Py.isclose a b tol = true.
Proof.
  intros H. unfold Py.isclose. destruct (Qeq_bool a b); [done|].
  assert (E : Qabs (b - a) = Qabs (a - b)) by apply Qabs_Qminus.
  assert (Hle : Qle_bool (Qabs (b - a)) tol = true).
  { apply Qle_bool_iff. by rewrite E. }
  rewrite Hle. by rewrite !orb_true_r.
Qed.

Lemma isclose_false (a b tol : Q) :
  (tol < Qabs (a - b))%Q →
  (Py.rel_tol * Qabs a < Qabs (a - b))%Q →
  (Py.rel_tol * Qabs b < Qabs (a - b))%Q →
  Py.isclose a b tol = false.
Proof.
  intros Ht Ha Hb. unfold Py.isclose.
  assert (E : Qabs (b - a) = Qabs (a - b)) by apply Qabs_Qminus.
  assert (Hr : ∀ x, (Qabs (Py.rel_tol * x) == Py.rel_tol * Qabs x)%Q).
  { intros x. rewrite Qabs_Qmult. reflexivity. }
  destruct (Qeq_bool a b) eqn:Hab.
  - apply Qeq_bool_iff in Hab. exfalso. rewrite Hab in Ha.
    assert (Hz : (b - b == 0)%Q) by ring. rewrite Hz in Ha.
    apply (Qlt_irrefl 0). eapply Qle_lt_trans; [|exact Ha].
    apply Qmult_le_0_compat; [done | apply Qabs_nonneg].
  - rewrite !orb_false_iff. repeat split; apply not_true_iff_false;
      rewrite Qle_bool_iff; rewrite E, ?Hr; by apply Qlt_not_le.
Qed.

Lemma isclose_false_ne (a b tol : Q) :
  Py.isclose a b tol = false → ¬ (a == b)%Q.
Proof.
  unfold Py.isclose. destruct (Qeq_bool a b) eqn:E; [done|].
  intros _ H. apply Qeq_bool_iff in H. congruence.
Qed.

(** ** Strings *)

Lemma prefix_app_l (p x y : string) :
  String.prefix p x = true → String.prefix p (x +:+ y) = true.
Proof.
  revert x. induction p as [|c p IH]; intros x.
  - intros _. by destruct (x +:+ y).
  - destruct x as [|e x]; simpl; [done|].
    destruct (Ascii.ascii_dec c e); [apply IH | done].
Qed.

Lemma prefix_join (p sep x : string) (r : list string) :
  String.prefix p x = true → String.prefix p (Py.join sep (x :: r)) = true.
Proof.
  intros H. unfold Py.join. simpl. destruct r; [done|].
  by apply prefix_app_l.
Qed.

Lemma existsb_eqb_elem_of (c : string) (l : list string) :
  existsb (String.eqb c) l = true ↔ c ∈ l.
Proof.
  rewrite existsb_exists. split.
  - intros (x & Hx & E). apply String.eqb_eq in E. subst.
    by apply list_elem_of_In.
  - intros Hc. exists c. split; [by apply list_elem_of_In|].
    apply String.eqb_refl.
Qed.

(** ** The filter graph *)

Lemma audio_chain_shape cfg env d s o probe t ac :
  audio_chain cfg env d s o probe = (t, Return ac) →
  ∃ x r, ac = x :: r ∧
    (String.prefix "aevalsrc=" x = true ∨ x = "[0:a]anull").
Proof.
  unfold audio_chain, add_audio.
  destruct (probe_audio probe) as [|a l] eqn:Ha.
  - simpl. intros [= <- <-]. eexists _, _. split; [done|]. by left.
  - rewrite bind_ret_l. intros H.
    apply bind_Return in H as (t1 & c1 & t2 & _ & H & _).
    apply bind_Return in H as (t3 & c2 & t4 & _ & H & _).
    injection H as <- <-. eexists _, _. split; [done|]. by right.
Qed.

(** The shape of every vector returned for a probed source. *)
Lemma build_filtergraph_real cfg env d s o ad al an probe t V :
  build_filtergraph cfg env d s o ad al an false probe = (t, Return V) →
  ∃ vf af,
    V = ["-filter_complex"; vf; "-filter_complex"; af;
         "-map"; "[logo]"; "-map"; "[a]"] ∧
    String.prefix "[0:v]" vf = true ∧
    (String.prefix "aevalsrc=" af = true ∨
     String.prefix "[0:a]anull" af = true).
Proof.
  unfold build_filtergraph. simpl negb. cbv iota. intros H.
  apply bind_Return in H as (t1 & [vc ac] & t2 & H1 & H2 & ->).
  apply bind_Return in H1 as (t3 & vc' & t4 & _ & H1 & _).
  apply bind_Return in H1 as (t5 & ac' & t6 & Hac & H1 & _).
  injection H1 as <- <- <-.
  apply audio_chain_shape in Hac as (x & r & -> & Hx).
  injection H2 as <- <-.
  exists ("[0:v]" +:+
          match vc' with
          | [] => "null[v]"
          | _ :: _ => Py.join "," vc' +:+ "[v]"
          end +:+ ";" +:+
          overlay_filter cfg env (o - (if Py.Qgtb o d then 0%Q else s))
            ad al an),
    (Py.join "," (x :: r) +:+ "[a]").
  split; [done|]. split; [by apply (prefix_app_l _ "[0:v]")|].
  destruct Hx as [Hx| ->].
  - left. by apply prefix_app_l, prefix_join.
  - right. by apply prefix_app_l, prefix_join.
Qed.

(** The vector returned for a dummy; nothing can raise on this path. *)
Lemma build_filtergraph_dummy cfg env d s o ad al an probe :
  ∃ vf,
    build_filtergraph cfg env d s o ad al an true probe =
      ([], Return ["-filter_complex"; vf; "-map"; "[logo]"; "-map"; "1:a"])
    ∧ String.prefix "[0:v]" vf = true.
Proof. unfold build_filtergraph. simpl. eexists. by split. Qed.

Ltac count_args :=
  unfold count_arg; simpl;
  repeat match goal with
  | |- context [String.string_dec ?x ?y] =>
      destruct (String.string_dec x y) as [?E|_];
      [try discriminate E; try (subst; simpl in *; discriminate);
       try (subst; simpl in *; intuition discriminate)|]
  end; try reflexivity.

(** Claim C1, as amended.  Every argument vector that [build_filtergraph]
    returns for a probed source ([dummy] false) contains exactly two
    [-filter_complex] arguments, one for the video chain and one for the
    audio chain, and exactly two [-map] arguments. *)
Theorem build_filtergraph_two_filter_complex
    cfg env d s o ad al an probe t V :
  build_filtergraph cfg env d s o ad al an false probe = (t, Return V) →
  count_arg "-filter_complex" V = 2%nat ∧ count_arg "-map" V = 2%nat.
Proof.
  intros H. apply build_filtergraph_real in H as (vf & af & -> & Hvf & Haf).
  split; count_args.
Qed.

Lemma build_filtergraph_two_filter_complex_witness :
  build_filtergraph sample_cfg sample_env 30 0 30 false false false false
    sample_probe = ([], Return sample_vector) ∧
  count_arg "-filter_complex" sample_vector = 2%nat ∧
  count_arg "-map" sample_vector = 2%nat.
Proof.
  split; [reflexivity|].
  apply (build_filtergraph_two_filter_complex sample_cfg sample_env
           30 0 30 false false false sample_probe [] sample_vector).
  reflexivity.
Defined.

(** Claim C1 as stated fails: the vector returned for the sample clip
    holds [-filter_complex] twice, not once. *)
Lemma build_filtergraph_one_filter_complex_counterexample :
  build_filtergraph sample_cfg sample_env 30 0 30 false false false false
    sample_probe = ([], Return sample_vector) ∧
  count_arg "-filter_complex" sample_vector ≠ 1%nat.
Proof. split; [reflexivity|]. vm_compute. discriminate. Qed.



(** ** Pad and setdar *)

Lemma video0_head probe v :
  head (probe_video probe) = Some (Some v) → video0 probe = mret v.
Proof.
  unfold video0. destruct (probe_video probe) as [|[?|] ?]; naive_solver.
Qed.

Ltac chain_forall :=
  repeat match goal with
  | |- Forall _ (_ ++ _) => apply Forall_app; split
  | |- Forall _ [] => constructor
  | |- Forall _ (_ :: _) => constructor
  | |- Forall _ (if ?b then _ else _) => destruct b
  | |- Forall _ (match ?o with Some _ => _ | None => _ end) => destruct o
  | |- plain _ => split; reflexivity
  | |- _ = false => reflexivity
  end.

(** Below [3e7] the relative tolerance of [math.isclose] stays under the
    absolute one. *)
Lemma rel_tol_below (a x : Q) :
  (Qabs a <= 30000000)%Q → (3 # 100 < x)%Q → (Py.rel_tol * Qabs a < x)%Q.
Proof.
  intros Ha Hx. eapply Qle_lt_trans; [|exact Hx].
  assert (H : (Py.rel_tol * Qabs a <= Py.rel_tol * 30000000)%Q).
  { rewrite (Qmult_comm _ (Qabs a)), (Qmult_comm _ 30000000).
    by apply Qmult_le_compat_r. }
  eapply Qle_trans; [exact H|]. by vm_compute.
Qed.




(** ** The list-end handler *)

Section list_end.
Context (cfg : Config) (env : Env).
Local Open Scope Q_scope.

Lemma capped_min dur seek remaining :
  capped dur seek remaining == Qmin (seek_offset seek + remaining) dur.
Proof.
  unfold capped, seek_offset.
  destruct (Py.Qgtb seek 0).
  - destruct (Py.Qgtb (seek + remaining) dur) eqn:E.
    + apply Qgtb_gt in E. symmetry. apply Q.min_r. by apply Qlt_le_weak.
    + apply Qgtb_le in E. symmetry. by apply Q.min_l.
  - destruct (Py.Qgtb remaining dur) eqn:E.
    + apply Qgtb_gt in E. symmetry. apply Q.min_r. rewrite Qplus_0_l.
      by apply Qlt_le_weak.
    + apply Qgtb_le in E. symmetry. rewrite Qplus_0_l. by apply Q.min_l.
Qed.

(** What the handler returns, with the trace left out. *)
Lemma handle_list_end_result Δ ref src begin dur seek out :
  result (handle_list_end cfg env Δ ref src begin dur seek out) =
  let remaining := ref - (begin + Δ) in
  let new_out := capped dur seek remaining in
  if Py.Qgtb remaining 3 then
    outcome_map (λ c, (Some c, seek, new_out, true))
      (result (src_or_dummy cfg env src dur seek new_out))
  else if Py.Qgtb remaining 1 then
    Return (Some (gen_dummy cfg env remaining), seek, new_out, true)
  else if Py.Qgtb remaining 0 then Return (None, seek, new_out, true)
  else
    outcome_map (λ c, (Some c, seek, out, false))
      (result (src_or_dummy cfg env src dur seek out)).
Proof.
  unfold handle_list_end, capped. cbv zeta.
  set (remaining := ref - (begin + Δ)).
  set (n := if Py.Qgtb seek 0 then seek + remaining else remaining).
  assert (Hn : ∀ (k : Q → M timed),
    result (x ← (if Py.Qgtb n dur then mret dur
                 else messenger_info cfg
                        ("We are over time, new length is: "
                           +:+ fmt_2f env remaining);; mret n); k x) =
    result (k (if Py.Qgtb n dur then dur else n))).
  { intros k. rewrite result_bind. by destruct (Py.Qgtb n dur). }
  rewrite Hn. clear Hn.
  destruct (Py.Qgtb remaining 3); [|destruct (Py.Qgtb remaining 1);
    [|destruct (Py.Qgtb remaining 0)]];
    rewrite ?result_bind; try reflexivity;
    destruct (result (src_or_dummy _ _ _ _ _ _)); try reflexivity.
Qed.

(** In the "playlist too short" case the trace ends with the error that
    reports the missing seconds. *)
Lemma handle_list_end_short_trace Δ ref src begin dur seek out c :
  ref - (begin + Δ) <= 0 →
  result (src_or_dummy cfg env src dur seek out) = Return c →
  ∃ t, trace (handle_list_end cfg env Δ ref src begin dur seek out) =
       t ++ trace (messenger_error cfg
                     ("Playlist is not long enough:" +:+ Py.nl
                        +:+ fmt_2f env (Qabs (ref - (begin + Δ) - dur))
                        +:+ " seconds needed.")).
Proof.
  intros Hr Hc. unfold handle_list_end. cbv zeta.
  set (remaining := ref - (begin + Δ)) in *.
  assert (H3 : Py.Qgtb remaining 3 = false) by (apply Qgtb_le; lra).
  assert (H1 : Py.Qgtb remaining 1 = false) by (apply Qgtb_le; lra).
  assert (H0 : Py.Qgtb remaining 0 = false) by (apply Qgtb_le; lra).
  rewrite H3, H1, H0.
  rewrite trace_bind.
  match goal with |- context [result ?m] =>
    assert (Hm : ∃ x, result m = Return x)
      by (destruct (Py.Qgtb _ dur); eexists; reflexivity) end.
  destruct Hm as [x ->].
  rewrite trace_bind, Hc, trace_bind. simpl result.
  change (trace (mret (Some c, seek, out, false))) with (@nil event).
  rewrite app_nil_r, app_assoc. by eexists.
Qed.

(** The input builder raises only through [loop_input], on a source of
    length zero. *)
Lemma src_or_dummy_returns src dur seek out :
  ¬ dur == 0 → ∃ c, result (src_or_dummy cfg env src dur seek out) = Return c.
Proof.
  intros Hd. unfold src_or_dummy.
  destruct (is_live cfg src).
  { rewrite result_bind. destruct (Py.Qgtb seek 0); by eexists. }
  destruct (is_local_file env src); [|by eexists].
  destruct (Py.Qgtb out dur); [|by eexists].
  destruct (Py.Qgtb seek 0); [by eexists|].
  unfold loop_input. destruct (Qeq_bool dur 0) eqn:E.
  - apply Qeq_bool_iff in E. contradiction.
  - by eexists.
Qed.

Lemma handle_list_end_returns Δ ref src begin dur seek out :
  ¬ dur == 0 →
  ∃ r, result (handle_list_end cfg env Δ ref src begin dur seek out)
       = Return r.
Proof.
  intros Hd. rewrite handle_list_end_result. cbv zeta.
  destruct (Py.Qgtb _ 3).
  { destruct (src_or_dummy_returns src dur seek
                (capped dur seek (ref - (begin + Δ))) Hd) as [c ->].
    by eexists. }
  destruct (Py.Qgtb _ 1); [by eexists|].
  destruct (Py.Qgtb _ 0); [by eexists|].
  destruct (src_or_dummy_returns src dur seek out Hd) as [c ->]. by eexists.
Qed.

(** Claim C3.  With [remaining = ref_time − (begin + time_delta)] the
    list-end handler has four cases.  [remaining > 3]: it emits the source
    (through [src_or_dummy]) cut to [new_out], next-playlist true.
    [1 < remaining ≤ 3]: it emits [gen_dummy(remaining)], next-playlist
    true.  [0 < remaining ≤ 1]: no command, next-playlist true.
    [remaining ≤ 0]: it emits the source at its full [out], next-playlist
    false, and logs the missing seconds as an error. *)
Theorem handle_list_end_cases Δ ref src begin dur seek out :
  let remaining := ref - (begin + Δ) in
  let new_out := capped dur seek remaining in
  let r := result (handle_list_end cfg env Δ ref src begin dur seek out) in
  (3 < remaining →
     r = outcome_map (λ c, (Some c, seek, new_out, true))
           (result (src_or_dummy cfg env src dur seek new_out))) ∧
  (1 < remaining <= 3 →
     r = Return (Some (gen_dummy cfg env remaining), seek, new_out, true)) ∧
  (0 < remaining <= 1 → r = Return (None, seek, new_out, true)) ∧
  (remaining <= 0 →
     r = outcome_map (λ c, (Some c, seek, out, false))
           (result (src_or_dummy cfg env src dur seek out)) ∧
     ∀ c, result (src_or_dummy cfg env src dur seek out) = Return c →
       Logged ERROR
         (Py.replace_nl
            ("Playlist is not long enough:" +:+ Py.nl
               +:+ fmt_2f env (Qabs (remaining - dur))
               +:+ " seconds needed."))
       ∈ trace (handle_list_end cfg env Δ ref src begin dur seek out)).
Proof.
  intros remaining new_out r. subst r. rewrite handle_list_end_result.
  fold remaining. cbv zeta. fold new_out.
  split; [|split; [|split]].
  - intros H. apply Qgtb_gt in H. by rewrite H.
  - intros [H1 H3]. apply Qgtb_gt in H1. apply Qgtb_le in H3.
    by rewrite H3, H1.
  - intros [H0 H1].
    assert (H3 : Py.Qgtb remaining 3 = false) by (apply Qgtb_le; lra).
    apply Qgtb_gt in H0. apply Qgtb_le in H1. by rewrite H3, H1, H0.
  - intros H0. split.
    { assert (H3 : Py.Qgtb remaining 3 = false) by (apply Qgtb_le; lra).
      assert (H1 : Py.Qgtb remaining 1 = false) by (apply Qgtb_le; lra).
      apply Qgtb_le in H0. by rewrite H3, H1, H0. }
    intros c Hc.
    destruct (handle_list_end_short_trace Δ ref src begin dur seek out c
                H0 Hc) as [t ->].
    apply elem_of_app. right. unfold messenger_error, emit, trace.
    simpl fst. apply elem_of_cons. by left.
Qed.

(** Claim C2, as amended.  The handler returns a [new_out] whenever the
    source's duration is not zero.  When [remaining > 0] the returned
    [new_out] is [offset + remaining] capped at [duration], where [offset]
    is [seek] if [seek > 0] and 0 otherwise; so [new_out − offset] equals
    [remaining] exactly whenever the cap does not apply.  When
    [remaining ≤ 0] the returned [new_out] is [out], unchanged. *)
Theorem handle_list_end_new_out Δ ref src begin dur seek out :
  let remaining := ref - (begin + Δ) in
  let r := result (handle_list_end cfg env Δ ref src begin dur seek out) in
  (¬ dur == 0 → ∃ new_out, new_out_of r = Some new_out) ∧
  (∀ new_out, new_out_of r = Some new_out →
     (0 < remaining →
        new_out == Qmin (seek_offset seek + remaining) dur ∧
        (seek_offset seek + remaining <= dur →
           new_out - seek_offset seek == remaining)) ∧
     (remaining <= 0 → new_out = out)).
Proof.
  intros remaining r. split.
  - intros Hd. subst r.
    destruct (handle_list_end_returns Δ ref src begin dur seek out Hd)
      as [[[[c sk] no] np] ->]. by exists no.
  - intros new_out. subst r. rewrite handle_list_end_result. cbv zeta.
    fold remaining. intros Hno. split.
    + intros Hpos.
      assert (E : new_out = capped dur seek remaining).
      { destruct (Py.Qgtb remaining 3).
        { destruct (result (src_or_dummy _ _ _ _ _ _)); simpl in Hno;
            congruence. }
        destruct (Py.Qgtb remaining 1); [simpl in Hno; congruence|].
        destruct (Py.Qgtb remaining 0) eqn:H0; [simpl in Hno; congruence|].
        apply Qgtb_le in H0. lra. }
      subst new_out. split; [apply capped_min|].
      intros Hle. rewrite capped_min, Q.min_l by done. ring.
    + intros Hneg.
      assert (H3 : Py.Qgtb remaining 3 = false) by (apply Qgtb_le; lra).
      assert (H1 : Py.Qgtb remaining 1 = false) by (apply Qgtb_le; lra).
      apply Qgtb_le in Hneg. rewrite H3, H1, Hneg in Hno.
      destruct (result (src_or_dummy _ _ _ _ _ _)); simpl in Hno; congruence.
Qed.

End list_end.

Lemma handle_list_end_cases_witness :
  ((3 < 25200 - (25180 + 0))%Q ∧
   result (handle_list_end sample_cfg sample_env 0 25200 (Some "clip.mp4")
             25180 60 0 60)
   = Return (Some ["-i"; "clip.mp4"; "-t"; "20.0"], 0%Q, 20%Q, true)) ∧
  ((25200 - (25200 + 0) <= 0)%Q ∧
   result (handle_list_end sample_cfg sample_env 0 25200 (Some "clip.mp4")
             25200 60 0 60)
   = Return (Some ["-i"; "clip.mp4"], 0%Q, 60%Q, false)).
Proof.
  split.
  - split; [reflexivity|].
    pose proof (handle_list_end_cases sample_cfg sample_env 0 25200
                  (Some "clip.mp4") 25180 60 0 60) as H.
    cbv zeta in H. destruct H as (H & _). rewrite H; reflexivity.
  - split; [by vm_compute|].
    pose proof (handle_list_end_cases sample_cfg sample_env 0 25200
                  (Some "clip.mp4") 25200 60 0 60) as H.
    cbv zeta in H. destruct H as (_ & _ & _ & H).
    destruct H as [H _]; [by vm_compute|]. rewrite H. reflexivity.
Defined.

Lemma handle_list_end_new_out_witness :
  (0 < 25200 - (25180 + 0))%Q ∧
  new_out_of (result (handle_list_end sample_cfg sample_env 0 25200
                        (Some "clip.mp4") 25180 60 5 60)) = Some 25%Q ∧
  (25 == Qmin (seek_offset 5 + (25200 - (25180 + 0))) 60)%Q.
Proof.
  split; [reflexivity|]. split; [reflexivity|].
  pose proof (handle_list_end_new_out sample_cfg sample_env 0 25200
                (Some "clip.mp4") 25180 60 5 60) as H.
  cbv zeta in H. destruct H as (_ & H).
  destruct (H 25%Q eq_refl) as (H' & _). apply H'. reflexivity.
Defined.

(** Claim C2 as stated fails when no time remains: with
    [begin + out + time_delta > ref_time] and [remaining = 0] the handler
    returns [new_out = out = 10], which is 10 s away from the remaining
    time clipped to [[0, duration]], whichever side the clip is taken
    on. *)
Lemma handle_list_end_round_trip_counterexample :
  let r := result (handle_list_end sample_cfg sample_env 0 108000
                     (Some "clip.mp4") 108000 10 0 10) in
  let remaining := (108000 - (108000 + 0))%Q in
  (108000 + 10 + 0 > 108000)%Q ∧
  new_out_of r = Some 10%Q ∧
  ¬ (Qabs ((10 - seek_offset 0) - clip 0 10 remaining) <= 1 # 1000000)%Q ∧
  ¬ (Qabs (10 - clip 0 10 (seek_offset 0 + remaining)) <= 1 # 1000000)%Q.
Proof.
  cbv zeta. split; [reflexivity|]. split; [reflexivity|].
  split; intros H; vm_compute in H; by apply H.
Qed.

(** The same input reaches the handler through [timed_source], at
    06:00:00 of the following day. *)
Lemma timed_source_reaches_list_end :
  result (timed_source sample_cfg sample_env 21600 (Some "clip.mp4")
            108000 10 0 10 false false)
  = result (handle_list_end sample_cfg sample_env 0 108000
              (Some "clip.mp4") 108000 10 0 10).
Proof. reflexivity. Qed.

(** ** The order on paths and [MediaStore] *)

Lemma ascii_compare_trans_lt a b c :
  Ascii.compare a b = Lt → Ascii.compare b c = Lt → Ascii.compare a c = Lt.
Proof. unfold Ascii.compare. rewrite !N.compare_lt_iff. lia. Qed.

Lemma string_compare_trans s1 s2 s3 :
  String.compare s1 s2 ≠ Gt → String.compare s2 s3 ≠ Gt →
  String.compare s1 s3 ≠ Gt.
Proof.
  revert s2 s3. induction s1 as [|a s1 IH]; intros [|b s2] [|c s3]; simpl;
    try done.
  destruct (Ascii.compare a b) eqn:Eab; [| |done].
  - apply Ascii.compare_eq_iff in Eab as ->.
    destruct (Ascii.compare b c) eqn:Ebc; [|done|done]. apply IH.
  - destruct (Ascii.compare b c) eqn:Ebc; [| |done].
    + apply Ascii.compare_eq_iff in Ebc as <-. by rewrite Eab.
    + by rewrite (ascii_compare_trans_lt a b c).
Qed.

Global Instance str_le_total : Total str_le.
Proof. intros a b. apply String.leb_total. Qed.

Global Instance str_le_trans : Transitive str_le.
Proof.
  intros a b c. unfold str_le, String.leb. intros H1 H2.
  pose proof (string_compare_trans a b c) as H.
  destruct (String.compare a b), (String.compare b c),
    (String.compare a c); try done; exfalso; by apply H.
Qed.

Global Instance str_le_antisym : AntiSymm (=) str_le.
Proof. intros a b. apply String.leb_antisym. Qed.

Lemma sort_sorted l : Sorted str_le (MediaStore.sort l).
Proof. apply Sorted_merge_sort, _. Qed.

Lemma sort_perm l : MediaStore.sort l ≡ₚ l.
Proof. apply merge_sort_Permutation. Qed.

(** The sorted store depends on the multiset of its paths only. *)
Lemma sort_unique l1 l2 :
  l1 ≡ₚ l2 → MediaStore.sort l1 = MediaStore.sort l2.
Proof.
  intros Hp. apply (Sorted_unique str_le); try apply sort_sorted.
  by rewrite !sort_perm.
Qed.

Lemma sort_idempotent l :
  MediaStore.sort (MediaStore.sort l) = MediaStore.sort l.
Proof. apply sort_unique, sort_perm. Qed.

Section store.
Import MediaStore.
Context (cfg : Config) (glob : string → list string).

Lemma fill_matched store :
  fill cfg glob store = sort (store ++ matched cfg glob).
Proof.
  unfold fill, matched. f_equal.
  generalize (storage_extensions cfg) as exts. intros exts.
  rewrite <- (app_nil_r store) at 1. generalize (@nil string) as acc.
  induction exts as [|e exts IH]; intros acc; simpl; [done|].
  by rewrite <- IH, (assoc_L (++)).
Qed.


End store.


(** ** Yielded clips *)

Lemma yielded_paths_app t1 t2 :
  yielded_paths (t1 ++ t2) = yielded_paths t1 ++ yielded_paths t2.
Proof.
  induction t1 as [|e t1 IH]; [done|]. simpl.
  destruct e as [| |[|? [|? ?]]]; simpl; by rewrite ?IH.
Qed.

Lemma quiet_ret {A} (a : A) : quiet (mret a).
Proof. done. Qed.

Lemma quiet_raise {A} (e : exn) : quiet (raise (A:=A) e).
Proof. done. Qed.

Lemma quiet_bind {A B} (m : M A) (f : A → M B) :
  quiet m → (∀ a, quiet (f a)) → quiet (m ≫= f).
Proof.
  unfold quiet. intros Hm Hf. rewrite trace_bind.
  destruct (result m); [|done]. by rewrite yielded_paths_app, Hm, Hf.
Qed.

Lemma quiet_send_mail cfg msg : yielded_paths (send_mail cfg msg) = [].
Proof. unfold send_mail. by destruct (Py.nonempty _). Qed.

Lemma quiet_warning cfg msg : quiet (messenger_warning cfg msg).
Proof.
  unfold quiet, messenger_warning, mailer_warning, emit, trace.
  cbn [fst yielded_paths].
  destruct (level_in cfg _); [apply quiet_send_mail | done].
Qed.

Lemma quiet_error cfg msg : quiet (messenger_error cfg msg).
Proof.
  unfold quiet, messenger_error, mailer_error, emit, trace.
  cbn [fst yielded_paths].
  destruct (level_in cfg _); [apply quiet_send_mail | done].
Qed.

Lemma quiet_info cfg msg : quiet (messenger_info cfg msg).
Proof.
  unfold quiet, messenger_info, mailer_info, emit, trace.
  cbn [fst yielded_paths].
  destruct (level_in cfg _); [apply quiet_send_mail | done].
Qed.

Ltac solve_quiet :=
  repeat first
    [ apply quiet_ret | apply quiet_raise | apply quiet_warning
    | apply quiet_error | apply quiet_info
    | apply quiet_bind; [|intros ?]
    | match goal with
      | |- quiet (match ?x with _ => _ end) => destruct x
      | |- quiet (let '(_, _) := ?x in _) => destruct x
      end ].

Lemma quiet_video0 probe : quiet (video0 probe).
Proof. unfold video0. solve_quiet. Qed.

Lemma quiet_build_filtergraph cfg env d s o ad al an dummy probe :
  quiet (build_filtergraph cfg env d s o ad al an dummy probe).
Proof.
  unfold build_filtergraph, video_chain, audio_chain, deinterlace_filter,
    pad_filter, fps_filter, scale_filter, extend_video, add_audio,
    add_loudnorm, extend_audio.
  solve_quiet; apply quiet_video0.
Qed.

Lemma quiet_load cfg env file : quiet (load cfg env file).
Proof.
  unfold load. destruct (ffprobe_info env file) as [info|]; [|solve_quiet].
  generalize {| probe_src := file; probe_format := Some (ri_format info);
                probe_audio := []; probe_video := [] |}.
  induction (ri_streams info) as [|[a|rv|] l IH]; intros p; simpl;
    [solve_quiet|..].
  - apply IH.
  - apply quiet_bind; [|intros ?; apply IH].
    unfold load_video, float_div. solve_quiet.
  - apply IH.
Qed.

(** A clip is yielded exactly when probing it and building its filter
    graph succeed. *)
Lemma emit_clip_paths cfg env clip :
  yielded_paths (trace (GetSource.emit_clip cfg env clip)) =
  match result (GetSource.emit_clip cfg env clip) with
  | Return _ => [clip]
  | Raise _ => []
  end.
Proof.
  unfold GetSource.emit_clip.
  pose proof (quiet_load cfg env clip) as Hl. unfold quiet in Hl.
  rewrite trace_bind, result_bind.
  destruct (result (load cfg env clip)) as [p|e]; [|done].
  rewrite yielded_paths_app, Hl. simpl.
  rewrite trace_bind, result_bind.
  assert (Hf : quiet (format_duration p))
    by (unfold format_duration; solve_quiet).
  destruct (result (format_duration p)) as [d|e]; [|done].
  rewrite yielded_paths_app, Hf. simpl.
  rewrite trace_bind, result_bind.
  destruct (result (format_duration p)) as [d'|e]; [|done].
  rewrite yielded_paths_app, Hf. simpl.
  rewrite trace_bind, result_bind.
  pose proof (quiet_build_filtergraph cfg env d 0 d' false false false false
                p) as Hb.
  destruct (result (build_filtergraph _ _ _ _ _ _ _ _ _ _)) as [fg|e];
    [|done].
  by rewrite yielded_paths_app, Hb.
Qed.

(** ** The shuffle history *)

(** [len(last_played) > len(store) / 2], in integers. *)
Lemma pop_condition (lp store : list string) :
  Py.Qgtb (GetSource.len_Q lp) (GetSource.len_Q store / 2) = true ↔
  (length store `div` 2 < length lp)%nat.
Proof.
  rewrite Qgtb_gt. unfold GetSource.len_Q.
  set (n := length store). set (k := length lp).
  assert (H2 : (inject_Z (Z.of_nat n) / 2 * 2 == inject_Z (Z.of_nat n))%Q)
    by (field; done).
  assert (H3 : (inject_Z (Z.of_nat k) * 2 == inject_Z (2 * Z.of_nat k))%Q).
  { rewrite inject_Z_mult. ring. }
  assert (E : (inject_Z (Z.of_nat n) / 2 < inject_Z (Z.of_nat k))%Q ↔
              (Z.of_nat n < 2 * Z.of_nat k)%Z).
  { split.
    - intros H. apply (Qmult_lt_r _ _ 2) in H; [|done].
      rewrite H2, H3 in H. by rewrite <- Zlt_Qlt in H.
    - intros H. apply (Qmult_lt_r _ _ 2); [done|].
      rewrite H2, H3. by rewrite <- Zlt_Qlt. }
  rewrite E. split; intros H.
  - apply Nat.Div0.div_lt_upper_bound. lia.
  - assert (n < 2 * k)%nat; [|lia].
    pose proof (Nat.div_mod_eq n 2) as Hd.
    pose proof (Nat.mod_upper_bound n 2). lia.
Qed.

Lemma history_inv_init m : history_inv m [] [].
Proof. split; [done|constructor|simpl; lia|by right]. Qed.

(** Dropping the oldest entry of a full history keeps the invariant. *)
Lemma history_inv_pop m H lp :
  history_inv m H lp →
  let lp' := if decide (m < length lp) then drop 1 lp else lp in
  history_inv m H lp' ∧ length lp' ≤ m.
Proof.
  intros [Hs Hn Hb Hr]. cbv zeta.
  destruct (decide (m < length lp)) as [Hlt|Hge].
  - split; [split|].
    + etrans; [apply suffix_drop|done].
    + eapply sublist_NoDup; [done|apply sublist_drop].
    + rewrite length_drop. lia.
    + left. rewrite length_drop. lia.
    + rewrite length_drop. lia.
  - split; [done|lia].
Qed.

(** Yielding a clip that the history does not hold keeps every window
    free of repeats. *)
Lemma windows_nodup_snoc m H lp c :
  windows_nodup (S m) H → history_inv m H lp → length lp ≤ m → c ∉ lp →
  windows_nodup (S m) (H ++ [c]) ∧ history_inv m (H ++ [c]) (lp ++ [c]).
Proof.
  intros HW [Hs Hn Hb Hr] Hm Hc.
  assert (Hnd : NoDup (lp ++ [c])).
  { apply NoDup_app. split; [done|]. split; [|apply NoDup_singleton].
    intros x Hx Hx'. apply list_elem_of_singleton in Hx'. by subst. }
  split.
  - intros i. destruct (decide (i ≤ length H)) as [Hi|Hi].
    + rewrite drop_app_le by done.
      destruct (decide (S m ≤ length (drop i H))) as [Hl|Hl].
      * rewrite take_app_le by done. apply HW.
      * rewrite take_ge by (rewrite length_app; simpl; lia).
        assert (Hsuf : drop i H `suffix_of` lp).
        { destruct Hr as [Hr| ->]; [|apply suffix_drop].
          destruct (suffix_weak_total (drop i H) lp H) as [?|Hlp];
            [apply suffix_drop|done|done|].
          rewrite (suffix_length_eq _ _ Hlp); [done|lia]. }
        destruct Hsuf as [k Hk].
        rewrite Hk, <- (assoc_L (++)) in Hnd.
        by apply NoDup_app in Hnd as (_ & _ & ?).
    + rewrite drop_ge by (rewrite length_app; simpl; lia). constructor.
  - split.
    + by apply suffix_app.
    + done.
    + rewrite length_app. simpl. lia.
    + destruct Hr as [Hr| ->]; [|by right].
      left. rewrite length_app. simpl. lia.
Qed.

Section shuffle.
Import GetSource.
Context (cfg : Config) (env : Env) (store : list string).
Local Abbreviation m := (length store `div` 2)%nat.

Lemma next_shuffle_inv r g H :
  history_inv m H (last_played g) → windows_nodup (S m) H →
  let turn := next_shuffle cfg env store r g in
  let H' := H ++ yielded_paths (trace turn) in
  windows_nodup (S m) H' ∧
  ∀ g', result turn = Return g' → history_inv m H' (last_played g').
Proof.
  intros Hinv HW. cbv zeta. unfold next_shuffle.
  rewrite trace_bind, result_bind.
  assert (Hq : quiet (random_choice store r)).
  { unfold random_choice. destruct (store !! _); done. }
  unfold quiet in Hq.
  destruct (result (random_choice store r)) as [clip|e] eqn:Hclip.
  2:{ rewrite Hq, app_nil_r. split; [done|discriminate]. }
  rewrite !yielded_paths_app, !Hq. simpl "++".
  pose proof (history_inv_pop m H (last_played g) Hinv) as Hpop.
  cbv zeta in Hpop.
  set (lp' := if Py.Qgtb (len_Q (last_played g)) (len_Q store / 2)
              then drop 1 (last_played g) else last_played g).
  assert (Elp : lp' = if decide (m < length (last_played g))
                      then drop 1 (last_played g) else last_played g).
  { subst lp'. destruct (Py.Qgtb _ _) eqn:E.
    - apply pop_condition in E. by rewrite decide_True.
    - rewrite decide_False; [done|]. intros Hlt.
      apply pop_condition in Hlt. congruence. }
  rewrite <- Elp in Hpop. destruct Hpop as [Hinv' Hlen].
  destruct (existsb (String.eqb clip) lp') eqn:Hex; simpl negb; cbv iota.
  - simpl. rewrite ?Hq, ?app_nil_r. simpl. rewrite ?app_nil_r.
    split; [done|]. by intros g' [= <-].
  - assert (Hc : clip ∉ lp').
    { intros Hc. apply existsb_eqb_elem_of in Hc. congruence. }
    destruct (windows_nodup_snoc m H lp' clip HW Hinv' Hlen Hc)
      as [HW' Hinv''].
    rewrite trace_bind, result_bind.
    pose proof (emit_clip_paths cfg env clip) as Hp.
    destruct (result (emit_clip cfg env clip)) as [[]|e].
    + rewrite yielded_paths_app, Hp. simpl. split; [done|].
      by intros g' [= <-].
    + rewrite Hp, app_nil_r. split; [done|discriminate].
Qed.

Lemma next_inv rs g H :
  storage_shuffle cfg = true →
  history_inv m H (last_played g) → windows_nodup (S m) H →
  windows_nodup (S m)
    (H ++ yielded_paths (trace (next cfg env store rs g))).
Proof.
  intros Hsh. revert g H. induction rs as [|r rs IH]; intros g H Hinv HW.
  - simpl. by rewrite app_nil_r.
  - simpl. unfold next_turn. rewrite Hsh. rewrite trace_bind.
    destruct (next_shuffle_inv r g H Hinv HW) as [HW' Hinv'].
    destruct (result (next_shuffle cfg env store r g)) as [g'|e]; [|done].
    rewrite yielded_paths_app, (assoc_L (++)). apply IH; [|done].
    by apply Hinv'.
Qed.

(** Claim C7.  In shuffle mode, for a store of fixed size [N] and whatever
    the random generator picks, any window of [⌊N/2⌋ + 1] consecutive
    clips yielded by [GetSource.next()] holds each path at most once. *)
Theorem shuffle_no_repeat rs :
  storage_shuffle cfg = true →
  windows_nodup (length store `div` 2 + 1)
    (yielded_paths (trace (next cfg env store rs init))).
Proof.
  intros Hsh. rewrite Nat.add_1_r.
  apply (next_inv rs init [] Hsh); [apply history_inv_init|].
  intros i. rewrite drop_nil, take_nil. constructor.
Qed.

End shuffle.

Lemma shuffle_no_repeat_witness :
  storage_shuffle sample_cfg = true ∧
  yielded_paths
    (trace (GetSource.next sample_cfg sample_env
              ["a.mp4"; "b.mp4"; "c.mp4"] [0; 0; 1; 1; 2; 0; 0; 1]%nat
              GetSource.init))
  = ["a.mp4"; "b.mp4"; "c.mp4"; "a.mp4"; "b.mp4"] ∧
  windows_nodup 2 ["a.mp4"; "b.mp4"; "c.mp4"; "a.mp4"; "b.mp4"].
Proof.
  split; [reflexivity|]. split; [reflexivity|].
  apply (shuffle_no_repeat sample_cfg sample_env
           ["a.mp4"; "b.mp4"; "c.mp4"] [0; 0; 1; 1; 2; 0; 0; 1]%nat).
  reflexivity.
Defined.

(** ** The playlist iterator *)

Ltac case_if_in H :=
  match type of H with
  | (if ?b then _ else _) = _ => destruct b
  end.

Section iterator.
Import GetSourceIter.
Context (cfg : Config) (env : Env).
Local Open Scope Q_scope.

(** Claim C8, as amended.  [check_for_next_playlist] updates [last_time]
    from [next_playlist]: when it is false, [last_time := begin]; when it
    is true and the configured playlist length differs from 86400 (shorter,
    longer or unset), [last_time := 2·86400]; when it is true and the
    length is 86400, [list_date] and [last_mod_time] are reset and
    [last_time := day_start − 1].  No other attribute changes. *)
Theorem check_for_next_playlist_cases today s :
  (∀ b, next_playlist s = Some false → begin s = Some b →
     ∃ s', check_for_next_playlist cfg today s = ([], Return s') ∧
       last_time s' = b ∧ list_date s' = list_date s ∧
       last_mod_time s' = last_mod_time s ∧ same_but_cursor s s') ∧
  (next_playlist s = Some true →
     (∀ l, playlist_length cfg = Some l → ¬ l == 86400) →
     ∃ s', check_for_next_playlist cfg today s = ([], Return s') ∧
       last_time s' == 2 * 86400 ∧ list_date s' = list_date s ∧
       last_mod_time s' = last_mod_time s ∧ same_but_cursor s s') ∧
  (next_playlist s = Some true →
     (∃ l, playlist_length cfg = Some l ∧ l == 86400) →
     ∃ s', check_for_next_playlist cfg today s = ([], Return s') ∧
       last_time s' == playlist_start cfg - 1 ∧ list_date s' = today ∧
       last_mod_time s' == 0 ∧ same_but_cursor s s').
Proof.
  unfold check_for_next_playlist, length_differs.
  split; [|split].
  - intros b -> Hb. rewrite Hb. simpl. eexists. split; [done|].
    by repeat split.
  - intros -> Hl. simpl.
    assert (E : match playlist_length cfg with
                | Some l => Py.Qneqb l 86400
                | None => true
                end = true).
    { destruct (playlist_length cfg) as [l|] eqn:El; [|done].
      unfold Py.Qneqb. apply negb_true_iff, not_true_iff_false.
      rewrite Qeq_bool_iff. by apply Hl. }
    rewrite E. eexists. split; [done|]. simpl. split; [ring|].
    by repeat split.
  - intros -> (l & El & Hl). simpl. rewrite El.
    assert (E : Py.Qneqb l 86400 = false).
    { unfold Py.Qneqb. apply negb_false_iff. by apply Qeq_bool_iff. }
    rewrite E. eexists. split; [done|]. simpl. by repeat split.
Qed.

(** Claim C10.  When the node has no [category] entry, [get_category]
    returns the iterator as it was: [ad], [ad_last] and [ad_next] keep the
    values of the previously prepared clip.  Whenever [get_category]
    returns, it has logged nothing and every attribute other than these
    three is unchanged. *)
Theorem get_category_frame index (nd : node) s :
  (nd !! "category" = None →
     get_category index nd s = ([], Return s)) ∧
  (∀ tr s', get_category index nd s = (tr, Return s') →
     tr = [] ∧ same_but_ads s s').
Proof.
  unfold get_category. split.
  - by intros ->.
  - intros tr s'. destruct (nd !! "category") as [c|].
    + intros H.
      apply bind_Return in H as (t1 & lc & t2 & H1 & H & ->).
      apply bind_Return in H as (t3 & p & t4 & H2 & H & ->).
      apply bind_Return in H as (t5 & nc & t6 & H3 & H & ->).
      injection H as <- <-.
      assert (Hp : ∀ tp p', program s = (tp, Return p') → tp = []).
      { unfold program. intros tp p'.
        destruct (clip_nodes s); [by intros [= <- _] | discriminate]. }
      assert (Hc : ∀ i tc c', category_at s i = (tc, Return c') → tc = []).
      { unfold category_at. intros i tc c' Hc.
        apply bind_Return in Hc as (ta & p' & tb & Ha & Hc & ->).
        apply Hp in Ha as ->.
        destruct (p' !! i) as [n|]; [|discriminate].
        destruct (n !! "category");
          [by injection Hc as <- _ | discriminate]. }
      apply Hp in H2 as ->.
      assert (t1 = []) as ->.
      { destruct (0 <=? Z.of_nat index - 1)%Z;
          [by eapply Hc | by injection H1 as <- _]. }
      assert (t5 = []) as ->.
      { destruct (Z.of_nat index + 2 <=? Z.of_nat (length p))%Z;
          [by eapply Hc | by injection H3 as <- _]. }
      split; [done|]. by repeat split.
    + intros [= <- <-]. split; [done|]. by repeat split.
Qed.

Lemma set_filtergraph_json_file s t s' :
  set_filtergraph cfg env s = (t, Return s') → json_file s' = json_file s.
Proof.
  unfold set_filtergraph. intros H.
  apply bind_Return in H as (t1 & fg & t2 & _ & H & _).
  by injection H as _ <-.
Qed.

(** Every call of [eof_handling] that returns has logged the error and,
    when the mail level lets errors through and a recipient is set, has
    mailed it, whatever [timestamp] and [last_error] hold. *)
Lemma eof_handling_notifies now today stamp stamp' message filler s t s' :
  eof_handling cfg env now today stamp stamp' message filler s
    = (t, Return s') →
  let msg := message +:+ " " +:+ str_json_file s in
  Logged ERROR (Py.replace_nl msg) ∈ t ∧
  (level_in cfg ["INFO"; "WARNING"; "ERROR"] = true →
   Py.nonempty (mail_recip cfg) = true → Mailed msg ∈ t).
Proof.
  unfold eof_handling. cbv zeta. intros H.
  apply bind_Return in H as (t1 & sa & t2 & Ha & H & ->).
  apply bind_Return in H as (t3 & sb & t4 & Hb & H & ->).
  apply bind_Return in H as (t5 & sc & t6 & Hc & H & ->).
  apply bind_Return in H as (t7 & [] & t8 & Hd & H & ->).
  injection H as <- _.
  assert (Ea : json_file sa = json_file s).
  { case_if_in Ha.
    - apply bind_Return in Ha as (? & cmd & ? & _ & Ha & _).
      case_if_in Ha.
      + apply bind_Return in Ha as (? & p & ? & _ & Ha & _).
        by injection Ha as _ <-.
      + by injection Ha as _ <-.
    - by injection Ha as _ <-. }
  assert (Eb : json_file sb = json_file sa)
    by (by eapply set_filtergraph_json_file).
  assert (Ec : json_file sc = json_file sb).
  { case_if_in Hc.
    - apply bind_Return in Hc as (? & [] & ? & _ & Hc & _).
      by injection Hc as _ <-.
    - by injection Hc as _ <-. }
  assert (E : str_json_file sc = str_json_file s).
  { unfold str_json_file. by rewrite Ec, Eb, Ea. }
  rewrite E in Hd. unfold messenger_error, emit in Hd.
  injection Hd as <-. rewrite app_nil_r.
  split.
  - rewrite !elem_of_app. right. right. right. apply elem_of_cons. by left.
  - intros Hl Hr. rewrite !elem_of_app. right. right. right.
    apply elem_of_cons. right. unfold mailer_error, send_mail.
    rewrite Hl, Hr. apply elem_of_cons. by left.
Qed.

End iterator.

Lemma check_for_next_playlist_cases_witness :
  (∃ s', GetSourceIter.check_for_next_playlist sample_cfg "2020-01-02"
           normal_iter = ([], Return s') ∧
         GetSourceIter.last_time s' = 21630%Q) ∧
  (∃ s', GetSourceIter.check_for_next_playlist long_cfg "2020-01-02"
           boundary_iter = ([], Return s') ∧
         (GetSourceIter.last_time s' == 172800)%Q ∧
         GetSourceIter.list_date s' = "2020-01-01") ∧
  (∃ s', GetSourceIter.check_for_next_playlist sample_cfg "2020-01-02"
           boundary_iter = ([], Return s') ∧
         (GetSourceIter.last_time s' == 21599)%Q ∧
         GetSourceIter.list_date s' = "2020-01-02" ∧
         (GetSourceIter.last_mod_time s' == 0)%Q).
Proof.
  split; [|split].
  - destruct (check_for_next_playlist_cases sample_cfg "2020-01-02"
                normal_iter) as (H & _).
    destruct (H 21630%Q eq_refl eq_refl) as (s' & Hs & Hl & _).
    exists s'. by split.
  - destruct (check_for_next_playlist_cases long_cfg "2020-01-02"
                boundary_iter) as (_ & H & _).
    destruct H as (s' & Hs & Hl & Hd & _); [reflexivity| |].
    + intros l [= <-]. by vm_compute.
    + exists s'. split; [done|]. split; [|done]. rewrite Hl. reflexivity.
  - destruct (check_for_next_playlist_cases sample_cfg "2020-01-02"
                boundary_iter) as (_ & _ & H).
    destruct H as (s' & Hs & Hl & Hd & Hm & _); [reflexivity| |].
    + exists 86400%Q. split; reflexivity.
    + exists s'. split; [done|]. split; [|done]. rewrite Hl. reflexivity.
Defined.

(** Claim C8 as stated fails for a playlist longer than a day: with a
    length of 90000 s, which is not less than 86400, a true
    [next_playlist] freezes [last_time] at [2·86400] and resets
    nothing. *)
Lemma check_for_next_playlist_counterexample :
  playlist_length long_cfg = Some 90000%Q ∧
  ¬ (90000 < 86400)%Q ∧
  GetSourceIter.next_playlist boundary_iter = Some true ∧
  ∃ s', GetSourceIter.check_for_next_playlist long_cfg "2020-01-02"
          boundary_iter = ([], Return s') ∧
    (GetSourceIter.last_time s' == 2 * 86400)%Q ∧
    ¬ (GetSourceIter.last_time s' == playlist_start long_cfg - 1)%Q ∧
    GetSourceIter.list_date s' ≠ "2020-01-02".
Proof.
  split; [reflexivity|]. split; [by vm_compute|]. split; [reflexivity|].
  eexists. split; [reflexivity|]. split; [reflexivity|].
  split; [by vm_compute|]. simpl. discriminate.
Qed.

Lemma get_category_frame_witness :
  (plain_node !! "category" = None ∧
   GetSourceIter.get_category 0 plain_node ads_iter
     = ([], Return ads_iter) ∧
   GetSourceIter.ad ads_iter = true ∧
   GetSourceIter.ad_last ads_iter = true ∧
   GetSourceIter.ad_next ads_iter = true) ∧
  (∃ s', GetSourceIter.get_category 0 ad_node loaded_iter
           = ([], Return s') ∧
         GetSourceIter.ad s' = true ∧ GetSourceIter.ad_next s' = true ∧
         same_but_ads loaded_iter s').
Proof.
  split.
  - split; [by vm_compute|]. split; [|done].
    apply (get_category_frame 0%nat plain_node ads_iter).
    by vm_compute.
  - eexists. split; [by vm_compute|]. split; [done|]. split; [done|].
    eapply (get_category_frame 0%nat ad_node loaded_iter).
    by vm_compute.
Defined.

(** Claim C5 fails on the code.  With the mail level at ERROR and a
    recipient set, the same error reported twice, 10 s apart, is mailed
    both times: the first call sends the guarded notification and sets
    [timestamp] and [last_error]; the second call, well inside the 3600 s
    window, still mails through the unconditional [messenger.error].  The
    error is logged on both calls. *)
Theorem eof_handling_repeat_mails :
  ∃ t1 s1 t2 s2,
    GetSourceIter.eof_handling sample_cfg sample_env 30000 "2020-01-01"
      5000 5000 eof_message false sample_iter = (t1, Return s1) ∧
    GetSourceIter.timestamp s1 = 5000%Q ∧
    GetSourceIter.last_error s1 = eof_message ∧
    GetSourceIter.eof_handling sample_cfg sample_env 30010 "2020-01-01"
      5010 5010 eof_message false s1 = (t2, Return s2) ∧
    (5010 - GetSourceIter.timestamp s1 <= 3600)%Q ∧
    mails t2 = [eof_notice] ∧
    error_logs t1 = [eof_notice; eof_notice] ∧
    error_logs t2 = [eof_notice].
Proof.
  eexists _, _, _, _. split; [by vm_compute|].
  split; [reflexivity|]. split; [reflexivity|].
  split; [by vm_compute|]. split; [by vm_compute|].
  split; [reflexivity|]. split; reflexivity.
Qed.

(** * Further properties *)

(** ** The drift check and the first clip *)

Lemma Qabs_le_iff (x y : Q) : (Qabs x <= y)%Q ↔ (- y <= x <= y)%Q.
Proof. apply Qabs_Qle_condition. Qed.

(** What [math.isclose(a, 86400.0, abs_tol=6)] accepts lies within 6 of
    86400: the relative tolerance adds nothing there. *)
Lemma isclose_day (a : Q) :
  Py.isclose a 86400 6 = true ↔ (Qabs (a - 86400) <= 6)%Q.
Proof.
  split; [|apply isclose_abs_tol].
  unfold Py.isclose. destruct (Qeq_bool a 86400) eqn:E.
  { intros _. apply Qeq_bool_iff in E. rewrite E.
    apply Qabs_le_iff. split; lra. }
  rewrite (Qabs_Qminus 86400 a), !orb_true_iff, !Qle_bool_iff.
  unfold Py.rel_tol. rewrite !Qabs_Qmult.
  change (Qabs (1 # 1000000000)) with (1 # 1000000000)%Q.
  change (Qabs 86400) with 86400%Q.
  intros [[H|H]|H]; [| |done].
  - eapply Qle_trans; [exact H|]. by vm_compute.
  - assert (Ha : (Qabs a <= Qabs (a - 86400) + 86400)%Q).
    { assert (Ea : (a == (a - 86400) + 86400)%Q) by ring.
      rewrite Ea at 1. eapply Qle_trans; [apply Qabs_triangle|].
      change (Qabs 86400) with 86400%Q. lra. }
    pose proof (Qabs_nonneg (a - 86400)). lra.
Qed.

Section timing_more.
Context (cfg : Config) (env : Env).
Local Open Scope Q_scope.

(** The value [get_delta] computes before the drift check. *)
Lemma get_delta_result (now begin seek : Q) (first : bool) :
  let now' := if Qle_bool now (playlist_start cfg)
                 && negb (Qeq_bool begin (playlist_start cfg))
              then now + total_playtime_of cfg else now in
  let raw := if first then begin + seek - now' else begin - now' in
  let Δ := if Py.isclose raw 86400 6 then raw - 86400 else raw in
  result (get_delta cfg env now begin seek first) =
  if negb first && negb (stdin_loop cfg) && general_stop cfg
     && Py.Qgtb (Qabs Δ) (general_threshold cfg)
  then Raise (SystemExit 1)
  else Return (total_playtime_of cfg, Δ).
Proof.
  cbv zeta. unfold get_delta. cbv zeta. rewrite result_bind.
  destruct (negb first && negb (stdin_loop cfg)); simpl andb; [|done].
  rewrite result_bind.
  destruct (general_stop cfg && _) eqn:E.
  - by rewrite result_bind.
  - simpl. done.
Qed.

(** X1.  [get_delta] can only leave through [sys.exit(1)], and only for a
    clip that is not the first, without [--loop], with [stop_on_error] set;
    it has then logged an error.  When it returns for such a clip, the
    drift it returns is within the threshold. *)
Theorem get_delta_drift (now begin seek : Q) (first : bool) :
  (∀ e, result (get_delta cfg env now begin seek first) = Raise e →
     e = SystemExit 1 ∧ first = false ∧ stdin_loop cfg = false ∧
     general_stop cfg = true ∧
     ∃ msg, Logged ERROR msg ∈ trace (get_delta cfg env now begin seek first))
  ∧
  (∀ tp Δ, result (get_delta cfg env now begin seek first) = Return (tp, Δ) →
     first = false → stdin_loop cfg = false → general_stop cfg = true →
     Qabs Δ <= general_threshold cfg).
Proof.
  split.
  - intros e He. pose proof He as He'.
    rewrite get_delta_result in He'. cbv zeta in He'.
    destruct (negb first && negb (stdin_loop cfg) && general_stop cfg
              && _) eqn:E; [|discriminate].
    injection He' as <-.
    apply andb_true_iff in E as [E Ht]. apply andb_true_iff in E as [E Hs].
    apply andb_true_iff in E as [Hf Hl].
    apply negb_true_iff in Hf, Hl. subst first.
    split; [done|]. split; [done|]. split; [done|]. split; [done|].
    unfold get_delta. cbv zeta. rewrite Hl, Hs. simpl negb. simpl andb.
    rewrite Ht. eexists. unfold trace. simpl. apply elem_of_cons. by left.
  - intros tp Δ H -> Hl Hs. rewrite get_delta_result in H. cbv zeta in H.
    rewrite Hl, Hs in H. simpl in H.
    destruct (Py.Qgtb _ _) eqn:E; [discriminate|].
    injection H as _ <-. by apply Qgtb_le in E.
Qed.

(** X2.  The drift [get_delta] returns never lies within 6 s of 86400:
    such a value is brought back by a whole day. *)
Theorem get_delta_no_day_offset (now begin seek : Q) (first : bool) :
  ∀ tp Δ, result (get_delta cfg env now begin seek first) = Return (tp, Δ) →
    ¬ (Qabs (Δ - 86400) <= 6).
Proof.
  intros tp Δ H. rewrite get_delta_result in H. cbv zeta in H.
  destruct (_ && Py.Qgtb _ _); [discriminate|]. injection H as _ <-.
  match goal with |- context [Py.isclose ?a _ _] => set (raw := a) end.
  destruct (Py.isclose raw 86400 6) eqn:E.
  - apply isclose_day in E. apply Qabs_le_iff in E.
    intros H. apply Qabs_le_iff in H. lra.
  - intros H. apply isclose_day in H. congruence.
Qed.


(** X4.  [timed_source] signals the next playlist only for a clip that is
    not the first, with a playlist length set and without [--loop], and
    only when the clip is the last one or does not end before the end of
    the window. *)
Theorem timed_source_next_playlist (now : Q) (src : option string)
    (begin dur seek out : Q) (first last : bool) :
  ∀ cmd sk o,
    result (timed_source cfg env now src begin dur seek out first last)
      = Return (cmd, sk, o, true) →
    first = false ∧ Py.truthy (playlist_length cfg) = true ∧
    stdin_loop cfg = false ∧
    ∃ Δ, result (get_delta cfg env now begin seek first)
           = Return (total_playtime_of cfg, Δ) ∧
         (last = true ∨
          total_playtime_of cfg + playlist_start cfg <= begin + out + Δ).
Proof.
  intros cmd sk o. unfold timed_source. rewrite result_bind.
  pose proof (get_delta_result now begin seek first) as Hd. cbv zeta in Hd.
  destruct (result (get_delta cfg env now begin seek first))
    as [[tp Δ]|e] eqn:Hg; [|discriminate].
  assert (tp = total_playtime_of cfg) as ->.
  { destruct (_ && Py.Qgtb _ _); [discriminate|]. by injection Hd as ->. }
  clear Hd. destruct first.
  { rewrite result_bind. destruct (result (src_or_dummy _ _ _ _ _ _));
      discriminate. }
  destruct (Py.Qltb (begin + out + Δ) _ && negb last) eqn:Hin.
  { simpl orb. cbv iota. rewrite result_bind.
    destruct (result (src_or_dummy _ _ _ _ _ _)); discriminate. }
  destruct (Py.truthy (playlist_length cfg)) eqn:Hlen.
  2:{ simpl. rewrite result_bind.
      destruct (result (src_or_dummy _ _ _ _ _ _)); discriminate. }
  destruct (stdin_loop cfg) eqn:Hloop.
  { simpl. rewrite result_bind.
    destruct (result (src_or_dummy _ _ _ _ _ _)); discriminate. }
  intros _. split; [done|]. split; [done|]. split; [done|].
  exists Δ. split; [done|].
  apply andb_false_iff in Hin as [Hin|Hin].
  - right. by apply Qltb_ge in Hin.
  - left. by apply negb_false_iff in Hin.
Qed.


End timing_more.

Lemma get_delta_no_day_offset_witness :
  result (get_delta sample_cfg sample_env 21601 108000 0 false)
    = Return (86400%Q, (-1)%Q) ∧
  ¬ (Qabs (-1 - 86400) <= 6)%Q.
Proof.
  split; [reflexivity|].
  apply (get_delta_no_day_offset sample_cfg sample_env 21601 108000 0 false
           86400%Q (-1)%Q).
  reflexivity.
Defined.

Lemma timed_source_next_playlist_witness :
  result (timed_source sample_cfg sample_env 21570 (Some "clip.mp4")
            107970 60 0 60 false false)
    = Return (Some ["-i"; "clip.mp4"; "-t"; "30.0"], 0%Q, 30%Q, true) ∧
  Py.truthy (playlist_length sample_cfg) = true ∧
  stdin_loop sample_cfg = false.
Proof.
  split; [reflexivity|].
  destruct (timed_source_next_playlist sample_cfg sample_env 21570
              (Some "clip.mp4") 107970 60 0 60 false false
              (Some ["-i"; "clip.mp4"; "-t"; "30.0"]) 0%Q 30%Q eq_refl)
    as (_ & H1 & H2 & _).
  by split.
Defined.


(** ** Looped inputs, the filler and the file named in the log *)

Section inputs_more.
Context (cfg : Config) (env : Env).
Local Open Scope Q_scope.

Lemma Qdiv_mult_cancel (a b : Q) : ¬ b == 0 → a / b * b == a.
Proof. intros. by field. Qed.


Lemma gen_filler_dummy (duration : Q) :
  storage_filler cfg = "" ∨
  Py.truthy (ffprobe_duration env (storage_filler cfg)
               ≫= parse_float env) = false →
  result (gen_filler cfg env duration) = Return (gen_dummy cfg env duration).
Proof.
  unfold gen_filler. intros H.
  destruct (storage_filler cfg) as [|a f] eqn:Hf; [done|].
  destruct H as [H|H]; [done|]. cbn [Py.nonempty negb].
  destruct (ffprobe_duration env (String a f)) as [output|];
    cbn [mbind option_bind] in *; [|done].
  destruct (parse_float env output) as [fd|]; [|done].
  cbn [Py.truthy] in H. by rewrite H.
Qed.

Lemma gen_filler_file (duration : Q) (output : string) (fd : Q) :
  storage_filler cfg ≠ "" →
  ffprobe_duration env (storage_filler cfg) = Some output →
  parse_float env output = Some fd → ¬ fd == 0 →
  result (gen_filler cfg env duration) =
    Return (if Py.Qgtb fd duration
            then ["-i"; storage_filler cfg;
                  "-t"; str_float env (duration - 0)]
            else ["-stream_loop"; Py.str_int (Qceiling (duration / fd));
                  "-i"; storage_filler cfg;
                  "-t"; str_float env duration]).
Proof.
  unfold gen_filler. intros Hf Hp Hfd Hne.
  destruct (storage_filler cfg) as [|a f]; [done|].
  cbn [Py.nonempty negb]. rewrite Hp, Hfd.
  assert (E0 : Qeq_bool fd 0 = false).
  { apply not_true_iff_false. by rewrite Qeq_bool_iff. }
  rewrite E0. cbn [negb].
  destruct (Py.Qgtb fd duration) eqn:Eg.
  - apply Qgtb_gt in Eg.
    assert (El : Py.Qltb duration fd = true) by by apply Qltb_lt.
    unfold set_length. by rewrite El.
  - unfold loop_input. by rewrite E0.
Qed.

(** X7.  [gen_filler] never raises: the only division, in [loop_input],
    is reached with a filler duration that is not zero.  Without a
    configured filler, or when the filler's duration cannot be read or is
    zero, the result is the dummy clip; a filler longer than the gap is cut
    with [-t]; any other filler is looped. *)
Theorem gen_filler_total (duration : Q) :
  (∃ c, result (gen_filler cfg env duration) = Return c) ∧
  (storage_filler cfg = "" ∨
   Py.truthy (ffprobe_duration env (storage_filler cfg)
                ≫= parse_float env) = false →
   result (gen_filler cfg env duration)
     = Return (gen_dummy cfg env duration)) ∧
  (∀ output fd,
     storage_filler cfg ≠ "" →
     ffprobe_duration env (storage_filler cfg) = Some output →
     parse_float env output = Some fd → ¬ fd == 0 →
     (duration < fd →
      result (gen_filler cfg env duration)
        = Return ["-i"; storage_filler cfg;
                  "-t"; str_float env (duration - 0)]) ∧
     (fd <= duration →
      result (gen_filler cfg env duration)
        = Return ["-stream_loop"; Py.str_int (Qceiling (duration / fd));
                  "-i"; storage_filler cfg;
                  "-t"; str_float env duration])).
Proof.
  split; [|split].
  - destruct (decide (storage_filler cfg = "")) as [Hf|Hf].
    { rewrite gen_filler_dummy by by left. by eexists. }
    destruct (ffprobe_duration env (storage_filler cfg)) as [output|] eqn:Hp.
    2:{ rewrite gen_filler_dummy; [by eexists|]. right. by rewrite Hp. }
    destruct (parse_float env output) as [fd|] eqn:Hfd.
    2:{ rewrite gen_filler_dummy; [by eexists|]. right.
        rewrite Hp. cbn. by rewrite Hfd. }
    destruct (Qeq_bool fd 0) eqn:E0.
    { rewrite gen_filler_dummy; [by eexists|]. right.
      rewrite Hp. cbn. rewrite Hfd. cbn. by rewrite E0. }
    rewrite (gen_filler_file duration output fd); [by eexists|done..|].
    intros H. apply Qeq_bool_iff in H. congruence.
  - apply gen_filler_dummy.
  - intros output fd Hf Hp Hfd Hne.
    rewrite (gen_filler_file duration output fd) by done. split.
    + intros Hlt. by rewrite (proj2 (Qgtb_gt fd duration) Hlt).
    + intros Hle. by rewrite (proj2 (Qgtb_le fd duration) Hle).
Qed.

(** X8.  Whatever [src_or_dummy] returns, with any filter arguments
    appended, the emission loop of [main] finds a file name in it: the
    clip's own source in each of the four real input shapes (plain, with
    [-ss], cut, looped), and the [color] source of the dummy when the clip
    is missing.  The subscripts [src_cmd[1]] and [src_cmd[3]] never fail. *)
Theorem current_file_src_or_dummy (src : option string) (dur seek out : Q)
    (c fg : list string) :
  result (src_or_dummy cfg env src dur seek out) = Return c →
  result (current_file (c ++ fg)) =
    Return (if is_live cfg src || is_local_file env src then str_src src
            else "color=c=#121212:s=" +:+ Py.str_int (pre_comp_w cfg)
                   +:+ "x" +:+ Py.str_int (pre_comp_h cfg)
                   +:+ ":d=" +:+ str_float env (out - seek)
                   +:+ ":r=" +:+ Py.str_int (pre_comp_fps cfg)
                   +:+ ",format=pix_fmts=yuv420p").
Proof.
  unfold src_or_dummy.
  destruct (is_live cfg src); cbn [orb].
  { rewrite result_bind.
    destruct (Py.Qgtb seek 0); cbn; by intros [= <-]. }
  destruct (is_local_file env src); cbn [orb].
  2:{ cbn. by intros [= <-]. }
  destruct (Py.Qgtb out dur).
  - destruct (Py.Qgtb seek 0); [cbn; by intros [= <-]|].
    unfold loop_input. destruct (Qeq_bool dur 0); [discriminate|].
    cbn. by intros [= <-].
  - unfold seek_in. destruct (Py.Qgtb seek 0); cbn; by intros [= <-].
Qed.

End inputs_more.



Lemma current_file_src_or_dummy_witness :
  result (current_file
            (["-ss"; show_Q 5; "-i"; "clip.mp4"; "-t"; show_Q 25]
               ++ ["-filter_complex"; "[0:v]null[v]"]))
    = Return "clip.mp4".
Proof.
  apply (current_file_src_or_dummy sample_cfg sample_env
           (Some "clip.mp4") 60 5 30).
  vm_compute. reflexivity.
Defined.

(** ** Which probes the filter builder accepts, and what [load] stores *)

Section probe_more.
Context (cfg : Config) (env : Env).
Local Open Scope Q_scope.

(** X9.  [build_filtergraph] for a real clip ([dummy] false) fails in
    exactly these cases: [IndexError] when the probe has no video stream,
    [TypeError] when its first video entry is the [None] of a failed
    ffprobe call; with a first video stream and at least one audio entry,
    [ZeroDivisionError] when the configured frame rate is 0 and
    [TypeError] when the first audio entry is [None].  With a first video
    stream and either no audio at all or a first audio stream and a frame
    rate other than 0 it returns.  For a dummy it always returns. *)
Theorem build_filtergraph_raises (d s o : Q) (ad al an : bool)
    (probe : MediaProbe) :
  let r := result (build_filtergraph cfg env d s o ad al an false probe) in
  (probe_video probe = [] → r = Raise IndexError) ∧
  (head (probe_video probe) = Some None → r = Raise TypeError) ∧
  (∀ v, head (probe_video probe) = Some (Some v) →
     (probe_audio probe = [] → ∃ fg, r = Return fg) ∧
     (probe_audio probe ≠ [] → pre_comp_fps cfg = 0%Z →
      r = Raise ZeroDivisionError) ∧
     (pre_comp_fps cfg ≠ 0%Z → head (probe_audio probe) = Some None →
      r = Raise TypeError) ∧
     (∀ a, pre_comp_fps cfg ≠ 0%Z →
        head (probe_audio probe) = Some (Some a) → ∃ fg, r = Return fg)) ∧
  (∃ fg, result (build_filtergraph cfg env d s o ad al an true probe)
         = Return fg).
Proof.
  cbv zeta. split; [|split; [|split]].
  - intros Hv. unfold build_filtergraph, video_chain, deinterlace_filter,
      video0. rewrite Hv. reflexivity.
  - intros Hv. unfold build_filtergraph, video_chain, deinterlace_filter,
      video0. destruct (probe_video probe) as [|[v|] l]; [done|done|].
    reflexivity.
  - intros v Hv.
    assert (Hvc : ∀ s', ∃ vc,
      video_chain cfg env d s' o probe = ([], Return vc)).
    { intros s'. unfold video_chain, deinterlace_filter, pad_filter,
        fps_filter, scale_filter, extend_video.
      rewrite (video0_head _ _ Hv). by eexists. }
    unfold build_filtergraph. cbn [negb].
    destruct (Hvc (if Py.Qgtb o d then 0 else s)) as [vc Evc].
    set (s' := if Py.Qgtb o d then 0 else s) in *.
    rewrite !result_bind. rewrite Evc. cbn [result snd].
    rewrite !result_bind.
    unfold audio_chain, add_audio, add_loudnorm, extend_audio.
    destruct (probe_audio probe) as [|oa la] eqn:Ha.
    { split; [intros _|split; [done|split; [done|]]].
      - rewrite result_bind. cbn. by eexists.
      - by intros. }
    split; [done|]. split; [|split].
    + intros _ Hfps. rewrite Hfps. reflexivity.
    + intros Hfps [= ->].
      apply Z.eqb_neq in Hfps. rewrite Hfps. reflexivity.
    + intros a Hfps [= ->].
      apply Z.eqb_neq in Hfps. rewrite Hfps. cbn.
      destruct vc; by eexists.
  - destruct (build_filtergraph_dummy cfg env d s o ad al an probe)
      as (vf & -> & _). by eexists.
Qed.

Lemma float_div_nonzero (a b : Q) :
  Qeq_bool b 0 = false → float_div a b = mret (a / b).
Proof. unfold float_div. by intros ->. Qed.

Lemma load_video_derived (rv : raw_video) :
  zero_denominator rv = false → load_video rv = mret (derived_stream rv).
Proof.
  unfold zero_denominator, load_video, derived_stream, derived_aspect,
    derived_fps.
  intros [H1 H2]%orb_false_elim.
  destruct (rv_display_aspect_ratio rv) as [[a b]|].
  - rewrite !float_div_nonzero by done. reflexivity.
  - rewrite !float_div_nonzero; [reflexivity|..]; try done.
    apply not_true_iff_false. rewrite Qeq_bool_iff.
    apply Z.eqb_neq in H1. intros H. apply H1.
    unfold Qeq in H. simpl in H. lia.
Qed.

Lemma load_video_zero (rv : raw_video) :
  zero_denominator rv = true →
  load_video rv = ([], Raise ZeroDivisionError).
Proof.
  unfold zero_denominator, load_video, float_div.
  destruct (rv_display_aspect_ratio rv) as [[a b]|].
  - destruct (Qeq_bool b 0); [done|]. cbn [orb]. by intros ->.
  - destruct (rv_height rv =? 0)%Z eqn:E.
    + apply Z.eqb_eq in E. by rewrite E.
    + cbn [orb]. intros ->. by destruct (Qeq_bool _ 0).
Qed.

Lemma load_streams_sound (streams : list raw_stream) (probe : MediaProbe) :
  Forall (λ rv, zero_denominator rv = false) (video_streams streams) →
  load_streams streams probe =
    mret {| probe_src := probe_src probe;
            probe_format := probe_format probe;
            probe_audio := probe_audio probe ++ audio_streams streams;
            probe_video :=
              probe_video probe
                ++ (Some ∘ derived_stream <$> video_streams streams) |}.
Proof.
  revert probe. induction streams as [|[a|rv|] streams IH]; intros probe H.
  - cbn. rewrite !app_nil_r. by destruct probe.
  - cbn in *. rewrite IH by done. cbn. by rewrite <- !app_assoc.
  - cbn in H. apply Forall_cons in H as [H1 H2].
    cbn [load_streams]. rewrite load_video_derived by done.
    rewrite bind_ret_l. rewrite IH by done. cbn.
    by rewrite <- !app_assoc.
  - cbn in *. by apply IH.
Qed.

Lemma load_streams_zero (streams : list raw_stream) (probe : MediaProbe) :
  Exists (λ rv, zero_denominator rv = true) (video_streams streams) →
  load_streams streams probe = ([], Raise ZeroDivisionError).
Proof.
  revert probe. induction streams as [|[a|rv|] streams IH]; intros probe H.
  - by apply Exists_nil in H.
  - cbn in *. by apply IH.
  - cbn in H. cbn [load_streams].
    destruct (zero_denominator rv) eqn:E.
    + by rewrite load_video_zero.
    + rewrite load_video_derived by done. rewrite bind_ret_l.
      apply IH. apply Exists_cons in H as [H|H]; [congruence|done].
  - cbn in *. by apply IH.
Qed.

(** X10.  What [MediaProbe.load] stores for a report of ffprobe: the
    audio streams in the report's order, the video streams in the
    report's order with [aspect] and [fps] derived, streams of other
    kinds dropped, nothing logged.  It raises [ZeroDivisionError] exactly
    when some video stream has a zero denominator (height 0 without a
    display aspect ratio, a ratio [w:0], or a frame rate [a/0]). *)
Theorem load_report (file : string) (info : raw_info) :
  ffprobe_info env file = Some info →
  (Forall (λ rv, zero_denominator rv = false)
     (video_streams (ri_streams info)) →
   load cfg env file =
     ([], Return {| probe_src := file;
                    probe_format := Some (ri_format info);
                    probe_audio := audio_streams (ri_streams info);
                    probe_video :=
                      Some ∘ derived_stream
                        <$> video_streams (ri_streams info) |})) ∧
  (Exists (λ rv, zero_denominator rv = true)
     (video_streams (ri_streams info)) ↔
   result (load cfg env file) = Raise ZeroDivisionError).
Proof.
  intros Hi. unfold load. rewrite Hi. split.
  - intros H. by rewrite load_streams_sound.
  - split.
    + intros H. by rewrite load_streams_zero.
    + intros H.
      destruct (decide (Exists (λ rv, zero_denominator rv = true)
                          (video_streams (ri_streams info))))
        as [|Hn]; [done|].
      exfalso. rewrite load_streams_sound in H; [done|].
      apply Forall_forall. intros rv Hin.
      apply not_true_iff_false. intros E. apply Hn.
      apply Exists_exists. by exists rv.
Qed.

(** X11.  A clip ffprobe cannot read ([CalledProcessError]) stops the
    engine with [TypeError], in both modes: in folder mode
    [float(self.probe.format['duration'])] subscripts [None], after the
    error is logged and before anything is yielded; in playlist mode the
    probe holds [None] for its streams and [set_filtergraph] raises for
    every clip that is not a dummy. *)
Theorem unreadable_clip_raises (clip : string) :
  ffprobe_info env clip = None →
  result (GetSource.emit_clip cfg env clip) = Raise TypeError ∧
  Logged ERROR (Py.replace_nl ("MediaProbe error in: " +:+ clip))
    ∈ trace (GetSource.emit_clip cfg env clip) ∧
  yielded_paths (trace (GetSource.emit_clip cfg env clip)) = [] ∧
  ∃ p, result (load cfg env clip) = Return p ∧
    ∀ s, GetSourceIter.probe s = p → GetSourceIter.is_dummy s = false →
      result (GetSourceIter.set_filtergraph cfg env s) = Raise TypeError.
Proof.
  intros Hi.
  assert (Hr : result (GetSource.emit_clip cfg env clip) = Raise TypeError).
  { unfold GetSource.emit_clip, load. by rewrite Hi. }
  split; [done|]. split; [|split].
  - unfold GetSource.emit_clip, load. rewrite Hi.
    cbn. apply elem_of_cons. by left.
  - by rewrite emit_clip_paths, Hr.
  - unfold load. rewrite Hi. eexists. split; [reflexivity|].
    intros s Hp Hd. unfold GetSourceIter.set_filtergraph.
    rewrite Hd, Hp. reflexivity.
Qed.

End probe_more.

Lemma load_report_witness :
  load sample_cfg sample_env "clip.mp4" =
    ([], Return {| probe_src := "clip.mp4";
                   probe_format := Some (ri_format sample_raw);
                   probe_audio := audio_streams (ri_streams sample_raw);
                   probe_video :=
                     Some ∘ derived_stream
                       <$> video_streams (ri_streams sample_raw) |}).
Proof.
  apply (load_report sample_cfg sample_env "clip.mp4" sample_raw).
  - reflexivity.
  - repeat constructor.
Defined.

Lemma unreadable_clip_raises_witness :
  result (GetSource.emit_clip sample_cfg bare_env "clip.mp4")
    = Raise TypeError.
Proof.
  apply (unreadable_clip_raises sample_cfg bare_env "clip.mp4").
  reflexivity.
Defined.

(** ** The store under the watcher *)

Lemma list_remove_None (file : string) (l : list string) :
  MediaStore.list_remove file l = None ↔ file ∉ l.
Proof.
  induction l as [|x l IH]; simpl.
  - split; [intros _; apply not_elem_of_nil|done].
  - rewrite not_elem_of_cons. destruct (String.eqb x file) eqn:E.
    + apply String.eqb_eq in E. split; [done|]. intros [? _]. congruence.
    + apply String.eqb_neq in E.
      destruct (MediaStore.list_remove file l); simpl.
      * split; [done|]. intros [_ H]. by apply IH in H.
      * split; [|done]. intros _. split; [congruence|by apply IH].
Qed.

Lemma list_remove_Some (file : string) (l l' : list string) :
  MediaStore.list_remove file l = Some l' → l ≡ₚ file :: l'.
Proof.
  revert l'. induction l as [|x l IH]; intros l'; simpl; [done|].
  destruct (String.eqb x file) eqn:E.
  - apply String.eqb_eq in E as ->. by intros [= ->].
  - destruct (MediaStore.list_remove file l) as [r|]; [|done].
    simpl. intros [= <-]. rewrite (IH r eq_refl). apply Permutation_swap.
Qed.

Lemma sort_of_sorted (l : list string) :
  Sorted str_le l → MediaStore.sort l = l.
Proof.
  intros H. apply (Sorted_unique str_le); [apply sort_sorted|done|].
  apply sort_perm.
Qed.

Section watcher.
Context (cfg : Config).

(** X12.  Adding a path and removing it again restores the sorted store:
    [remove] after [add] gives the store sorted, which is the store itself
    once it has been sorted, as it is after every operation. *)
Theorem add_remove_round_trip (store : list string) (file : string) :
  MediaStore.remove (MediaStore.add store file) file
    = Some (MediaStore.sort store) ∧
  (Sorted str_le store →
   MediaStore.remove (MediaStore.add store file) file = Some store).
Proof.
  assert (H : MediaStore.remove (MediaStore.add store file) file
              = Some (MediaStore.sort store)).
  { unfold MediaStore.remove, MediaStore.add.
    destruct (MediaStore.list_remove file (MediaStore.sort (store ++ [file])))
      as [l'|] eqn:E.
    - simpl. f_equal. apply sort_unique.
      apply list_remove_Some in E. rewrite sort_perm in E.
      apply (Permutation_cons_inv (a:=file)).
      rewrite <- E. by rewrite Permutation_app_comm.
    - apply list_remove_None in E. exfalso. apply E.
      rewrite sort_perm. set_solver. }
  split; [done|]. intros Hs. by rewrite H, sort_of_sorted.
Qed.

(** X13.  [on_deleted] fails with [ValueError] exactly when the path is
    not in the store.  Otherwise exactly one occurrence of the path
    leaves the store and the store stays sorted. *)
Theorem on_deleted_removes_one (store : list string) (src_path : string) :
  (MediaWatcher.on_deleted cfg store src_path = None ↔ src_path ∉ store) ∧
  (∀ t store',
     MediaWatcher.on_deleted cfg store src_path = Some (t, store') →
     store ≡ₚ src_path :: store' ∧ Sorted str_le store').
Proof.
  unfold MediaWatcher.on_deleted, MediaStore.remove.
  destruct (MediaStore.list_remove src_path store) as [l'|] eqn:E; simpl.
  - split.
    + split; [done|]. intros H. apply list_remove_None in H. congruence.
    + intros t store' [= <- <-]. apply list_remove_Some in E.
      split; [by rewrite sort_perm|apply sort_sorted].
  - split; [|done]. split; [|done]. intros _. by apply list_remove_None.
Qed.

(** X14.  [on_moved] fails with [ValueError] exactly when the old path is
    not in the store, and then the new path is not added.  Otherwise the
    new store is sorted and holds the new path in place of one occurrence
    of the old one. *)
Theorem on_moved_replaces (store : list string) (src_path dest_path : string) :
  (MediaWatcher.on_moved cfg store src_path dest_path = None
   ↔ src_path ∉ store) ∧
  (∀ t store',
     MediaWatcher.on_moved cfg store src_path dest_path = Some (t, store') →
     src_path :: store' ≡ₚ dest_path :: store ∧ Sorted str_le store' ∧
     length store' = length store).
Proof.
  unfold MediaWatcher.on_moved, MediaStore.remove.
  destruct (MediaStore.list_remove src_path store) as [l'|] eqn:E; simpl.
  - split.
    + split; [done|]. intros H. apply list_remove_None in H. congruence.
    + intros t store' [= <- <-]. apply list_remove_Some in E.
      unfold MediaStore.add.
      assert (Hp : src_path :: MediaStore.sort (MediaStore.sort l' ++ [dest_path])
                   ≡ₚ dest_path :: store).
      { rewrite !sort_perm, E.
        rewrite <- Permutation_cons_append. apply Permutation_swap. }
      split; [done|]. split; [apply sort_sorted|].
      apply Permutation_length in Hp. simpl in Hp. lia.
  - split; [|done]. split; [|done]. intros _. by apply list_remove_None.
Qed.

End watcher.

Lemma add_remove_round_trip_witness :
  MediaStore.remove (MediaStore.add ["a.mp4"; "c.mp4"] "b.mp4") "b.mp4"
    = Some ["a.mp4"; "c.mp4"].
Proof.
  apply (proj2 (add_remove_round_trip ["a.mp4"; "c.mp4"] "b.mp4")).
  repeat constructor.
Defined.

Lemma on_deleted_removes_one_witness :
  ["a.mp4"; "b.mp4"] ≡ₚ "b.mp4" :: ["a.mp4"].
Proof.
  refine (proj1 (proj2 (on_deleted_removes_one sample_cfg
                          ["a.mp4"; "b.mp4"] "b.mp4") _ ["a.mp4"] _)).
  reflexivity.
Defined.

Lemma on_moved_replaces_witness :
  "b.mp4" :: ["a.mp4"; "c.mp4"] ≡ₚ "c.mp4" :: ["a.mp4"; "b.mp4"].
Proof.
  refine (proj1 (proj2 (on_moved_replaces sample_cfg
                          ["a.mp4"; "b.mp4"] "b.mp4" "c.mp4")
                   _ ["a.mp4"; "c.mp4"] _)).
  reflexivity.
Defined.

(** ** The folder source over a fixed store *)

Section folder_more.
Import GetSource.
Context (cfg : Config) (env : Env) (store : list string).

Lemma random_choice_elem_of (r : nat) (clip : string) :
  result (random_choice store r) = Return clip → clip ∈ store.
Proof.
  unfold random_choice.
  destruct (store !! _) as [c|] eqn:E; [|done].
  intros [= <-]. by eapply list_elem_of_lookup_2.
Qed.

Lemma next_turn_from_store (r : nat) (g : t) :
  Forall (.∈ store) (yielded_paths (trace (next_turn cfg env store r g))).
Proof.
  unfold next_turn, next_shuffle, next_sorted.
  destruct (storage_shuffle cfg).
  - rewrite trace_bind.
    assert (Hq : yielded_paths (trace (random_choice store r)) = []).
    { unfold random_choice. by destruct (store !! _). }
    destruct (result (random_choice store r)) as [clip|e] eqn:Hc;
      [|by rewrite Hq].
    apply random_choice_elem_of in Hc.
    rewrite yielded_paths_app, Hq. simpl.
    destruct (negb _); [|constructor].
    rewrite trace_bind. pose proof (emit_clip_paths cfg env clip) as Hp.
    destruct (result (emit_clip cfg env clip)) as [[]|e].
    + rewrite yielded_paths_app, Hp. simpl. by constructor.
    + rewrite Hp. constructor.
  - destruct (store !! index g) as [clip|] eqn:E; [|constructor].
    apply list_elem_of_lookup_2 in E.
    rewrite trace_bind. pose proof (emit_clip_paths cfg env clip) as Hp.
    destruct (result (emit_clip cfg env clip)) as [[]|e].
    + rewrite yielded_paths_app, Hp. simpl. by constructor.
    + rewrite Hp. constructor.
Qed.

(** X15.  In either mode, whatever the random picks, the generator
    yields paths of the store only. *)
Theorem next_yields_from_store (rs : list nat) (g : t) :
  Forall (.∈ store) (yielded_paths (trace (next cfg env store rs g))).
Proof.
  revert g. induction rs as [|r rs IH]; intros g; [constructor|].
  simpl. rewrite trace_bind.
  pose proof (next_turn_from_store r g) as H.
  destruct (result (next_turn cfg env store r g)) as [g'|e]; [|done].
  rewrite yielded_paths_app. apply Forall_app. split; [done|apply IH].
Qed.

(** The clips of the store from [index] on are emitted in order. *)
Lemma next_sorted_run (rs : list nat) (g : t) :
  storage_shuffle cfg = false →
  Forall (λ c, ∃ u, result (emit_clip cfg env c) = Return u) store →
  index g + length rs ≤ length store →
  result (next cfg env store rs g)
    = Return {| last_played := last_played g;
                index := index g + length rs |} ∧
  yielded_paths (trace (next cfg env store rs g))
    = take (length rs) (drop (index g) store).
Proof.
  intros Hsh Hok. revert g. induction rs as [|r rs IH]; intros g Hlen.
  - simpl. rewrite Nat.add_0_r. by destruct g.
  - simpl in Hlen. simpl next. unfold next_turn. rewrite Hsh.
    unfold next_sorted.
    destruct (store !! index g) as [clip|] eqn:E.
    2:{ apply lookup_ge_None in E. lia. }
    assert (Hc : ∃ u, result (emit_clip cfg env clip) = Return u).
    { eapply (proj1 (Forall_forall _ _) Hok).
      by eapply list_elem_of_lookup_2. }
    destruct Hc as [[] Hc].
    pose proof (emit_clip_paths cfg env clip) as Hp. rewrite Hc in Hp.
    rewrite result_bind, trace_bind, !result_bind, trace_bind, Hc.
    cbn [result trace fst snd mret M_ret].
    destruct (IH {| last_played := last_played g; index := S (index g) |})
      as [Hr Ht]; [simpl; lia|].
    simpl in Hr, Ht. rewrite Hr. split.
    + do 2 f_equal. simpl. lia.
    + rewrite yielded_paths_app, yielded_paths_app, Hp, Ht. simpl.
      rewrite (drop_S _ _ _ E). reflexivity.
Qed.

Lemma M_bind_assoc {A B C} (m : M A) (f : A → M B) (h : B → M C) :
  (m ≫= f) ≫= h = m ≫= (λ a, f a ≫= h).
Proof.
  unfold mbind, M_bind. destruct m as [t1 [a|e]]; [|done].
  destruct (f a) as [t2 [b|e]]; [|by rewrite ?app_nil_r].
  destruct (h b) as [t3 r]. by rewrite (assoc_L (++)).
Qed.

Lemma M_bind_ext {A B} (m : M A) (f h : A → M B) :
  (∀ a, f a = h a) → m ≫= f = m ≫= h.
Proof.
  intros H. unfold mbind, M_bind. destruct m as [t1 [a|e]]; [|done].
  by rewrite H.
Qed.

Lemma next_app (rs1 rs2 : list nat) (g : t) :
  next cfg env store (rs1 ++ rs2) g
    = next cfg env store rs1 g ≫= next cfg env store rs2.
Proof.
  revert g. induction rs1 as [|r rs1 IH]; intros g.
  - symmetry. apply bind_ret_l.
  - cbn [app next]. rewrite M_bind_assoc. apply M_bind_ext. intros g'.
    apply IH.
Qed.

(** X16.  Sorted mode plays the store in order and starts over: when
    every clip of the store can be prepared, [length store + 1] turns from
    index 0 yield exactly the store, in its order, and leave the generator
    where it started. *)
Theorem next_sorted_cycle (rs : list nat) (g : t) :
  storage_shuffle cfg = false →
  Forall (λ c, ∃ u, result (emit_clip cfg env c) = Return u) store →
  index g = 0 → length rs = S (length store) →
  result (next cfg env store rs g) = Return g ∧
  yielded_paths (trace (next cfg env store rs g)) = store.
Proof.
  intros Hsh Hok Hi Hlen.
  rewrite <- (take_drop (length store) rs).
  assert (Ht : length (take (length store) rs) = length store)
    by (rewrite length_take; lia).
  destruct (drop (length store) rs) as [|r [|??]] eqn:Ed.
  1,3: apply (f_equal length) in Ed; rewrite length_drop in Ed;
       simpl in Ed; lia.
  rewrite next_app.
  destruct (next_sorted_run (take (length store) rs) g Hsh Hok)
    as [Hr Hy]; [lia|].
  rewrite Ht, Hi in Hr, Hy. rewrite drop_0, firstn_all in Hy.
  rewrite result_bind, trace_bind, Hr, yielded_paths_app, Hy.
  simpl next. unfold next_turn. rewrite Hsh. unfold next_sorted.
  cbn [index]. rewrite (proj2 (lookup_ge_None store (length store)))
    by lia.
  cbn. rewrite app_nil_r. split; [|done].
  destruct g as [lp i]. simpl in *. by subst.
Qed.

(** A list shorter than a repeat-free store misses one of its paths. *)
Lemma fresh_path (lp : list string) :
  NoDup store → length lp < length store → ∃ c, c ∈ store ∧ c ∉ lp.
Proof.
  intros Hnd Hlen.
  destruct (decide (Exists (λ c, c ∉ lp) store)) as [H|H].
  - apply Exists_exists in H as (c & ? & ?). by exists c.
  - exfalso. apply not_Exists_Forall in H; [|intros c; apply _].
    assert (Hsub : store ⊆+ lp).
    { apply NoDup_submseteq; [done|]. intros c Hc.
      pose proof (proj1 (Forall_forall _ _) H c Hc) as Hn. simpl in Hn.
      by destruct (decide (c ∈ lp)). }
    apply submseteq_length in Hsub. lia.
Qed.

(** X17.  Shuffle mode cannot lock up on a store without duplicates: when
    the history is no longer than the store, some pick takes a clip that
    the history does not hold, so that the turn yields it (or raises while
    preparing it) instead of passing silently. *)
Theorem next_shuffle_progress (g : t) :
  NoDup store → store ≠ [] → length (last_played g) ≤ length store →
  ∃ r clip, r < length store ∧ store !! r = Some clip ∧
    match result (next_shuffle cfg env store r g) with
    | Return g' =>
        yielded_paths (trace (next_shuffle cfg env store r g)) = [clip]
        ∧ last (last_played g') = Some clip
    | Raise e => result (emit_clip cfg env clip) = Raise e
    end.
Proof.
  intros Hnd Hne Hlen.
  set (lp' := if Py.Qgtb (len_Q (last_played g)) (len_Q store / 2)
              then drop 1 (last_played g) else last_played g).
  assert (Hn : 0 < length store) by (destruct store; [done|simpl; lia]).
  assert (Hlp : length lp' < length store).
  { subst lp'. destruct (Py.Qgtb _ _) eqn:E.
    - apply pop_condition in E. rewrite length_drop. lia.
    - assert (Hle : ¬ (length store `div` 2 < length (last_played g))).
      { intros Hlt. apply pop_condition in Hlt. congruence. }
      pose proof (Nat.div_lt (length store) 2 Hn). lia. }
  destruct (fresh_path lp' Hnd Hlp) as (clip & Hin & Hout).
  apply list_elem_of_lookup_1 in Hin as [r Hr].
  assert (Hrl : r < length store) by by eapply lookup_lt_Some.
  exists r, clip. split; [done|]. split; [done|].
  unfold next_shuffle, random_choice.
  rewrite Nat.mod_small by done. rewrite Hr, bind_ret_l.
  fold lp'.
  assert (Hex : existsb (String.eqb clip) lp' = false).
  { apply not_true_iff_false. by rewrite existsb_eqb_elem_of. }
  rewrite Hex. cbn [negb].
  rewrite result_bind, trace_bind.
  pose proof (emit_clip_paths cfg env clip) as Hp.
  destruct (result (emit_clip cfg env clip)) as [[]|e]; [|done].
  cbn [result snd mret M_ret last_played].
  rewrite yielded_paths_app, Hp. split; [done|].
  by rewrite last_snoc.
Qed.

End folder_more.

Lemma next_sorted_cycle_witness :
  result (GetSource.next sorted_cfg sample_env ["a.mp4"; "b.mp4"]
            [0; 0; 0] (GetSource.init))
    = Return GetSource.init ∧
  yielded_paths (trace (GetSource.next sorted_cfg sample_env
                          ["a.mp4"; "b.mp4"] [0; 0; 0] GetSource.init))
    = ["a.mp4"; "b.mp4"].
Proof.
  apply (next_sorted_cycle sorted_cfg sample_env ["a.mp4"; "b.mp4"]
           [0; 0; 0] GetSource.init).
  - reflexivity.
  - repeat constructor; by exists tt.
  - reflexivity.
  - reflexivity.
Defined.

Lemma next_shuffle_progress_witness :
  ∃ r clip, r < 2 ∧ ["a.mp4"; "b.mp4"] !! r = Some clip ∧
    match result (GetSource.next_shuffle sample_cfg sample_env
                    ["a.mp4"; "b.mp4"] r
                    {| GetSource.last_played := ["a.mp4"];
                       GetSource.index := 0 |}) with
    | Return g' =>
        yielded_paths (trace (GetSource.next_shuffle sample_cfg sample_env
                                ["a.mp4"; "b.mp4"] r
                                {| GetSource.last_played := ["a.mp4"];
                                   GetSource.index := 0 |})) = [clip]
        ∧ last (GetSource.last_played g') = Some clip
    | Raise e => result (GetSource.emit_clip sample_cfg sample_env clip)
                 = Raise e
    end.
Proof.
  apply (next_shuffle_progress sample_cfg sample_env ["a.mp4"; "b.mp4"]
           {| GetSource.last_played := ["a.mp4"]; GetSource.index := 0 |}).
  - apply (bool_decide_unpack _). by vm_compute.
  - done.
  - simpl. lia.
Defined.

(** ** The playlist iterator: end of the list, neighbours, missing clips *)

Lemma result_bind_Return {A B} (m : M A) (f : A → M B) (b : B) :
  result (m ≫= f) = Return b →
  ∃ a, result m = Return a ∧ result (f a) = Return b.
Proof.
  rewrite result_bind. destruct (result m) as [a|e]; [|done].
  intros H. by exists a.
Qed.

Ltac case_result_if H :=
  match type of H with
  | result (if ?b then _ else _) = _ => destruct b eqn:?
  end.

Ltac case_result_top :=
  match goal with
  | |- match result (if ?b then _ else _) with _ => _ end => destruct b
  | |- match (if ?b then _ else _) with _ => _ end => destruct b
  end.

Section iterator_more.
Import GetSourceIter.
Context (cfg : Config) (env : Env).
Local Open Scope Q_scope.

Lemma set_filtergraph_Return (s s' : t) :
  result (set_filtergraph cfg env s) = Return s' →
  ∃ fg, s' = with_filtergraph fg s.
Proof.
  unfold set_filtergraph. intros H.
  apply result_bind_Return in H as (fg & _ & H).
  injection H as <-. by exists fg.
Qed.


(** X19.  When [eof_handling] plays the filler, the flag [is_dummy]
    follows [os.path.isfile] while the command follows ffprobe's duration,
    and the two can disagree.  A filler file that exists but whose
    duration cannot be read leaves the dummy command with [is_dummy]
    false, so that the filter graph is built for a real clip.  A filler
    that is no local file but has a duration (a URL) leaves the filler as
    input with [is_dummy] true, so that the filter graph maps the audio of
    a second input. *)
Theorem eof_handling_filler_mismatch (now : Q) (today : string)
    (stamp stamp' : Q) (message : string) (s s' : t) :
  result (eof_handling cfg env now today stamp stamp' message true s)
    = Return s' →
  2 < out s' → storage_filler cfg ≠ "" →
  (isfile env (storage_filler cfg) = true →
   Py.truthy (ffprobe_duration env (storage_filler cfg)
                ≫= parse_float env) = false →
   is_dummy s' = false ∧
   src_cmd s' = Some (gen_dummy cfg env (out s'))) ∧
  (isfile env (storage_filler cfg) = false →
   ∀ output fd,
     ffprobe_duration env (storage_filler cfg) = Some output →
     parse_float env output = Some fd → ¬ fd == 0 →
     is_dummy s' = true ∧
     ∃ cmd, src_cmd s' = Some cmd ∧
            result (current_file cmd) = Return (storage_filler cfg)).
Proof.
  unfold eof_handling. cbv zeta. intros H Hout Hf.
  apply result_bind_Return in H as (sa & Ha & H).
  apply result_bind_Return in H as (sb & Hb & H).
  apply result_bind_Return in H as (sc & Hc & H).
  apply result_bind_Return in H as ([] & _ & H).
  injection H as <-.
  apply set_filtergraph_Return in Hb as [fg ->].
  assert (Ec : ∃ e ts, sc = with_timestamp ts (with_last_error e
                              (with_filtergraph fg sa))).
  { case_result_if Hc.
    - apply result_bind_Return in Hc as ([] & _ & Hc).
      injection Hc as <-. by eexists _, _.
    - injection Hc as <-. exists (last_error sa), (timestamp sa).
      by destruct sa. }
  destruct Ec as (e & ts & ->).
  set (len := Qabs _) in Ha.
  assert (Hne : Py.nonempty (storage_filler cfg) = true)
    by (by destruct (storage_filler cfg)).
  cbn [andb] in Ha. cbn [out with_out with_duration with_list_date
    with_last_mod_time with_first with_last_time] in Ha.
  case_result_if Ha.
  2:{ injection Ha as <-. cbn in Hout.
      match goal with H : Py.Qgtb _ 2 = false |- _ =>
        apply Qgtb_le in H; cbn in H end.
      exfalso. lra. }
  apply result_bind_Return in Ha as (cmd & Hcmd & Ha).
  rewrite Hne in Ha. cbn [andb] in Ha. split.
  - intros Hfile Htr. rewrite Hfile in Ha.
    apply result_bind_Return in Ha as (p & _ & Ha).
    injection Ha as <-. cbn.
    rewrite gen_filler_dummy in Hcmd by (by right).
    injection Hcmd as <-. done.
  - intros Hfile output fd Hp Hfd Hn0. rewrite Hfile in Ha.
    injection Ha as <-. cbn. split; [done|].
    rewrite (gen_filler_file cfg env _ output fd) in Hcmd by done.
    injection Hcmd as <-. eexists. split; [done|].
    by destruct (Py.Qgtb fd _).
Qed.

(** X20.  For a node with a [category], [get_category] raises exactly
    when a neighbour in the program has none, and then with [KeyError]:
    the entry before it (when there is one) or the entry after it (when
    there is one).  A node without neighbours on a side counts that side
    as no advertisement. *)
Theorem get_category_neighbours (index : nat) (nd : node) (s : t)
    (c : jval) (doc : playlist_doc) :
  nd !! "category" = Some c → clip_nodes s = Some doc →
  (index < length (doc_program doc))%nat →
  let missing (i : nat) :=
    ∃ n, doc_program doc !! i = Some n ∧ n !! "category" = None in
  ((0 < index)%nat ∧ missing (index - 1)%nat ∨ missing (index + 1)%nat
   ↔ result (get_category index nd s) = Raise KeyError) ∧
  (∀ e, result (get_category index nd s) = Raise e → e = KeyError) ∧
  (∀ s', result (get_category index nd s) = Return s' →
     (index = 0%nat → ad_last s' = false) ∧
     ((index + 1)%nat = length (doc_program doc) → ad_next s' = false)).
Proof.
  intros Hc Hdoc Hlen. cbv zeta.
  unfold get_category. rewrite Hc.
  unfold category_at, program. rewrite Hdoc.
  set (p := doc_program doc) in *.
  rewrite !result_bind.
  destruct (0 <=? Z.of_nat index - 1)%Z eqn:E1.
  - apply Z.leb_le in E1. assert (H0 : (0 < index)%nat) by lia.
    destruct (lookup_lt_is_Some_2 p (index - 1)) as [n1 Hn1]; [lia|].
    rewrite bind_ret_l, Hn1.
    destruct (n1 !! "category") as [c1|] eqn:Hc1.
    + cbn [result snd mret M_ret]. rewrite bind_ret_l, !result_bind.
      destruct (Z.of_nat index + 2 <=? Z.of_nat (length p))%Z eqn:E2.
      * apply Z.leb_le in E2.
        destruct (lookup_lt_is_Some_2 p (index + 1)) as [n2 Hn2]; [lia|].
        rewrite bind_ret_l, Hn2.
        destruct (n2 !! "category") as [c2|] eqn:Hc2.
        -- cbn. split; [|split; [done|]].
           ++ split; [|done].
              intros [[_ (n & Hn & Hm)]|(n & Hn & Hm)]; congruence.
           ++ intros s' [= <-]. split; intros; lia.
        -- cbn. split; [|split; [by intros e [= <-]|done]].
           split; [done|]. intros _. right. by exists n2.
      * apply Z.leb_gt in E2. cbn. split; [|split; [done|]].
        -- split; [|done].
           intros [[_ (n & Hn & Hm)]|(n & Hn & Hm)]; [congruence|].
           apply lookup_lt_Some in Hn. lia.
        -- intros s' [= <-]. cbn. split; [lia|done].
    + cbn. split; [|split; [by intros e [= <-]|done]].
      split; [done|]. intros _. left. split; [done|]. by exists n1.
  - apply Z.leb_gt in E1. assert (H0 : index = 0%nat) by lia. subst index.
    cbn [result snd mret M_ret]. rewrite bind_ret_l, !result_bind.
    destruct (Z.of_nat 0 + 2 <=? Z.of_nat (length p))%Z eqn:E2.
    + apply Z.leb_le in E2.
      destruct (lookup_lt_is_Some_2 p (0 + 1)) as [n2 Hn2]; [lia|].
      rewrite bind_ret_l, Hn2.
      destruct (n2 !! "category") as [c2|] eqn:Hc2.
      * cbn. split; [|split; [done|]].
        -- split; [|done].
           intros [[? _]|(n & Hn & Hm)]; [lia|congruence].
        -- intros s' [= <-]. cbn. split; [done|]. intros; lia.
      * cbn. split; [|split; [by intros e [= <-]|done]].
        split; [done|]. intros _. right. by exists n2.
    + apply Z.leb_gt in E2. cbn. split; [|split; [done|]].
      * split; [|done].
        intros [[? _]|(n & Hn & Hm)]; [lia|].
        apply lookup_lt_Some in Hn. simpl in Hn. lia.
      * intros s' [= <-]. by cbn.
Qed.

Lemma src_or_dummy_missing (src : option string) (dur seek out : Q) :
  is_live cfg src = false → is_local_file env src = false →
  result (src_or_dummy cfg env src dur seek out)
    = Return (gen_dummy cfg env (out - seek)).
Proof. unfold src_or_dummy. by intros -> ->. Qed.

(** A clip that is neither a live source nor a file reaches the decoder
    as a dummy or not at all, and only the sync stop can interrupt. *)
Lemma timed_source_missing (now : Q) (src : option string)
    (begin dur seek out : Q) (first last : bool) :
  is_live cfg src = false → is_local_file env src = false →
  match result (timed_source cfg env now src begin dur seek out first last)
  with
  | Return (Some cmd, sk, o, np) => ∃ d, cmd = gen_dummy cfg env d
  | Return (None, _, _, _) => first = false
  | Raise e => e = SystemExit 1 ∧ first = false
  end.
Proof.
  intros Hl Hf. unfold timed_source. rewrite result_bind.
  pose proof (get_delta_result cfg env now begin seek first) as Hd.
  cbv zeta in Hd. rewrite Hd. clear Hd.
  destruct (negb first && _ && _ && _) eqn:E.
  { split; [done|]. by destruct first. }
  cbn iota beta. destruct first.
  { rewrite result_bind, src_or_dummy_missing by done. by eexists. }
  case_result_top.
  { rewrite result_bind, src_or_dummy_missing by done. by eexists. }
  case_result_top; [reflexivity|].
  case_result_top; [|reflexivity].
  rewrite handle_list_end_result. cbv zeta.
  rewrite !src_or_dummy_missing by done.
  repeat case_result_top; by eexists.
Qed.

Lemma is_source_dummy_gen_dummy (d : Q) (s : t) :
  src_cmd s = Some (gen_dummy cfg env d) →
  is_source_dummy s = with_is_dummy true s.
Proof. unfold is_source_dummy. by intros ->. Qed.

Lemma url_or_live_source_local (s : t) (source : string) :
  src s = Some source → is_live cfg (Some source) = false →
  url_or_live_source cfg env s = mret s.
Proof. unfold url_or_live_source. by intros -> ->. Qed.

Lemma is_source_dummy_flag (s : t) :
  ∃ fl, is_source_dummy s = with_is_dummy fl s.
Proof.
  unfold is_source_dummy. destruct (src_cmd s) as [[|x l]|]; [by eexists| |by eexists].
  destruct (existsb _ _); by eexists.
Qed.

Lemma check_for_next_playlist_frame (today : string) (s s' : t) :
  result (check_for_next_playlist cfg today s) = Return s' →
  src_cmd s' = src_cmd s ∧ is_dummy s' = is_dummy s ∧
  out s' = out s ∧ seek s' = seek s ∧
  (next_playlist s = Some false → begin s = Some (last_time s')).
Proof.
  unfold check_for_next_playlist.
  destruct (next_playlist s) as [[|]|]; [| |done]; cbn [negb andb].
  - destruct (length_differs cfg); intros [= <-]; by repeat split.
  - destruct (begin s) as [b|]; [|done]. intros [= <-]. by repeat split.
Qed.

Lemma load_unreadable (file : string) :
  ffprobe_info env file = None →
  result (load cfg env file)
    = Return {| probe_src := file; probe_format := None;
                probe_audio := [None]; probe_video := [None] |}.
Proof. unfold load. by intros ->. Qed.

Lemma set_filtergraph_dummy (s : t) :
  is_dummy s = true →
  ∃ fg, result (set_filtergraph cfg env s) = Return (with_filtergraph fg s).
Proof.
  intros Hd. unfold set_filtergraph. rewrite Hd, result_bind.
  destruct (build_filtergraph_dummy cfg env (duration s) (seek s) (out s)
              (ad s) (ad_last s) (ad_next s) (probe s)) as (vf & Hb & _).
  rewrite Hb. by eexists.
Qed.

Lemma set_filtergraph_unreadable (s : t) :
  is_dummy s = false → head (probe_video (probe s)) = Some None →
  result (set_filtergraph cfg env s) = Raise TypeError.
Proof.
  intros Hd Hp. unfold set_filtergraph. rewrite Hd, result_bind.
  unfold build_filtergraph, video_chain, deinterlace_filter, video0.
  destruct (probe_video (probe s)) as [|[v|] l]; [done|done|].
  reflexivity.
Qed.

(** The steps of [peperation_task] for a source that is no live stream
    and a node without category. *)
Lemma peperation_task_steps (now : Q) (today : string) (index : nat)
    (nd : node) (s : t) (source : string) (b : Q) :
  nd !! "source" = Some (JStr source) → nd !! "category" = None →
  is_live cfg (Some source) = false → begin s = Some b →
  result (peperation_task cfg env now today index nd s) =
  match result (load cfg env source) with
  | Raise e => Raise e
  | Return p =>
      match result (timed_source cfg env now (Some source) b (duration s)
                      (seek s) (out s) (first s) (last s)) with
      | Raise e => Raise e
      | Return (cmd, sk, o, np) =>
          let s4 :=
            is_source_dummy
              (with_next_playlist (Some np)
                 (with_out o (with_seek sk (with_src_cmd cmd
                    (with_probe p (with_src (Some source) s)))))) in
          match result (set_filtergraph cfg env s4) with
          | Raise e => Raise e
          | Return s5 => result (check_for_next_playlist cfg today s5)
          end
      end
  end.
Proof.
  intros Hsrc Hcat Hl Hb. unfold peperation_task.
  rewrite Hsrc, bind_ret_l, result_bind.
  destruct (result (load cfg env source)) as [p|e]; [|done].
  rewrite (url_or_live_source_local _ source) by done.
  rewrite bind_ret_l, result_bind.
  unfold get_input. cbn [begin with_probe with_src]. rewrite Hb.
  cbn [src duration seek out first last with_probe with_src].
  rewrite result_bind.
  destruct (timed_source cfg env now (Some source) b (duration s)
              (seek s) (out s) (first s) (last s))
    as [tr [[[[cmd sk] o] np]|e]]; [|reflexivity].
  cbn [result snd mret M_ret].
  unfold get_category. rewrite Hcat, bind_ret_l.
  apply result_bind.
Qed.

Lemma timed_source_first_missing (now : Q) (source : string)
    (b dur seek out : Q) (last : bool) :
  is_live cfg (Some source) = false →
  is_local_file env (Some source) = false →
  ∃ sk, result (timed_source cfg env now (Some source) b dur seek out
                  true last)
        = Return (Some (gen_dummy cfg env (out - sk)), sk, out, false).
Proof.
  intros Hl Hf. unfold timed_source. rewrite result_bind.
  pose proof (get_delta_result cfg env now b seek true) as Hd.
  cbv zeta in Hd. rewrite Hd. clear Hd. cbn [negb andb].
  cbv iota beta. rewrite result_bind, src_or_dummy_missing by done.
  by eexists.
Qed.

(** The end of [peperation_task] after [get_input], for a node without
    category: the flag, the filter graph and the cursor. *)
Lemma finish_frame (today : string) (s3 s5 s' : t) :
  result (set_filtergraph cfg env (is_source_dummy s3)) = Return s5 →
  result (check_for_next_playlist cfg today s5) = Return s' →
  src_cmd s' = src_cmd s3 ∧
  (∀ d, src_cmd s3 = Some (gen_dummy cfg env d) → is_dummy s' = true).
Proof.
  intros H5 H.
  apply set_filtergraph_Return in H5 as [fg ->].
  apply check_for_next_playlist_frame in H as (E1 & E2 & _).
  rewrite E1, E2. split.
  - destruct (is_source_dummy_flag s3) as [fl ->]. reflexivity.
  - intros d Hd. by rewrite (is_source_dummy_gen_dummy d s3 Hd).
Qed.

Lemma finish_dummy (today : string) (s3 : t) (d b : Q) :
  src_cmd s3 = Some (gen_dummy cfg env d) →
  next_playlist s3 = Some false → begin s3 = Some b →
  ∃ s5 s',
    result (set_filtergraph cfg env (is_source_dummy s3)) = Return s5 ∧
    result (check_for_next_playlist cfg today s5) = Return s' ∧
    src_cmd s' = src_cmd s3 ∧ out s' = out s3 ∧ seek s' = seek s3 ∧
    is_dummy s' = true ∧ last_time s' = b.
Proof.
  intros Hc Hn Hb. rewrite (is_source_dummy_gen_dummy d s3 Hc).
  destruct (set_filtergraph_dummy (with_is_dummy true s3) eq_refl)
    as [fg Hfg].
  exists (with_filtergraph fg (with_is_dummy true s3)),
    (with_last_time b (with_filtergraph fg (with_is_dummy true s3))).
  split; [exact Hfg|]. split; [|by repeat split].
  unfold check_for_next_playlist.
  change (next_playlist (with_filtergraph fg (with_is_dummy true s3)))
    with (next_playlist s3).
  change (begin (with_filtergraph fg (with_is_dummy true s3)))
    with (begin s3).
  by rewrite Hn, Hb.
Qed.

(** What a returning [peperation_task] went through, for a source that is
    no live stream and a node without category. *)
Lemma peperation_task_Return (now : Q) (today : string) (index : nat)
    (nd : node) (s s' : t) (source : string) (b : Q) :
  nd !! "source" = Some (JStr source) → nd !! "category" = None →
  is_live cfg (Some source) = false → begin s = Some b →
  result (peperation_task cfg env now today index nd s) = Return s' →
  ∃ cmd sk o np s3 s5,
    result (timed_source cfg env now (Some source) b (duration s) (seek s)
              (out s) (first s) (last s)) = Return (cmd, sk, o, np) ∧
    src_cmd s3 = cmd ∧
    result (set_filtergraph cfg env (is_source_dummy s3)) = Return s5 ∧
    result (check_for_next_playlist cfg today s5) = Return s'.
Proof.
  intros Hsrc Hcat Hl Hb. unfold peperation_task.
  rewrite Hsrc, bind_ret_l. intros H.
  apply result_bind_Return in H as (p & _ & H).
  rewrite (url_or_live_source_local _ source) in H by done.
  rewrite bind_ret_l in H.
  apply result_bind_Return in H as (s3 & H3 & H).
  unfold get_input in H3. cbn [begin with_probe with_src] in H3.
  rewrite Hb in H3.
  cbn [src duration seek out first last with_probe with_src] in H3.
  apply result_bind_Return in H3 as ([[[cmd sk] o] np] & Ht & H3).
  injection H3 as H3.
  unfold get_category in H. rewrite Hcat, bind_ret_l in H.
  apply result_bind_Return in H as (s5 & H5 & H).
  exists cmd, sk, o, np, s3, s5.
  split; [exact Ht|]. split; [by rewrite <- H3|]. by split.
Qed.

Lemma peperation_task_missing_dummy (now : Q) (today : string)
    (index : nat) (nd : node) (s s' : t) (source : string) (b : Q)
    (cmd : list string) :
  nd !! "source" = Some (JStr source) → nd !! "category" = None →
  is_live cfg (Some source) = false →
  is_local_file env (Some source) = false →
  begin s = Some b →
  result (peperation_task cfg env now today index nd s) = Return s' →
  src_cmd s' = Some cmd →
  is_dummy s' = true ∧ ∃ d, cmd = gen_dummy cfg env d.
Proof.
  intros Hsrc Hcat Hl Hf Hb H Hcmd.
  destruct (peperation_task_Return now today index nd s s' source b
              Hsrc Hcat Hl Hb H)
    as (oc & sk & o & np & s3 & s5 & Ht & Hc3 & H5 & H').
  pose proof (timed_source_missing now (Some source) b (duration s)
                (seek s) (out s) (first s) (last s) Hl Hf) as Hm.
  unfold timed in *. rewrite Ht in Hm.
  destruct (finish_frame today s3 s5 s' H5 H') as [E1 E2].
  rewrite E1, Hc3 in Hcmd. subst oc. destruct Hm as [d ->].
  split; [|by exists d]. by apply (E2 d).
Qed.

Lemma peperation_task_missing_first (now : Q) (today : string)
    (index : nat) (nd : node) (s : t) (source : string) (b : Q) :
  nd !! "source" = Some (JStr source) → nd !! "category" = None →
  is_live cfg (Some source) = false →
  is_local_file env (Some source) = false →
  begin s = Some b → first s = true → ffprobe_info env source = None →
  ∃ s', result (peperation_task cfg env now today index nd s) = Return s' ∧
        src_cmd s' = Some (gen_dummy cfg env (out s' - seek s')) ∧
        is_dummy s' = true ∧ last_time s' = b.
Proof.
  intros Hsrc Hcat Hl Hf Hb Hfirst Hinfo.
  rewrite (peperation_task_steps now today index nd s source b) by done.
  rewrite (load_unreadable _ Hinfo), Hfirst.
  destruct (timed_source_first_missing now source b (duration s) (seek s)
              (out s) (last s) Hl Hf) as [sk Ht].
  unfold timed in *. rewrite Ht. cbv zeta.
  match goal with
  | |- context [is_source_dummy ?x] =>
      assert (Hc3 : src_cmd x = Some (gen_dummy cfg env (out s - sk)))
        by reflexivity;
      assert (Hn3 : next_playlist x = Some false) by reflexivity;
      assert (Hb3 : begin x = Some b) by exact Hb;
      assert (Ho3 : out x = out s) by reflexivity;
      assert (Hs3 : seek x = sk) by reflexivity;
      generalize dependent x; intros s3 Hc3 Hn3 Hb3 Ho3 Hs3
  end.
  destruct (finish_dummy today s3 (out s - sk) b Hc3 Hn3 Hb3)
    as (s5 & s' & H5 & H & E1 & E2 & E3 & E4 & E5).
  rewrite H5. exists s'. split; [exact H|].
  split; [|by split]. by rewrite E1, E2, E3, Ho3, Hs3.
Qed.

(** X21.  A playlist entry whose source is neither a live stream nor an
    existing file never reaches the decoder as a file: whenever
    [peperation_task] returns with a command, the command is the dummy and
    [is_dummy] is set.  For the first clip after the start, with ffprobe
    failing on the missing file, the task returns: the dummy takes the
    clip's place for [out − seek] seconds and the cursor moves on to the
    clip's begin. *)
Theorem peperation_task_missing_clip (now : Q) (today : string)
    (index : nat) (nd : node) (s : t) (source : string) (b : Q) :
  nd !! "source" = Some (JStr source) → nd !! "category" = None →
  is_live cfg (Some source) = false →
  is_local_file env (Some source) = false →
  begin s = Some b →
  (∀ s' cmd,
     result (peperation_task cfg env now today index nd s) = Return s' →
     src_cmd s' = Some cmd →
     is_dummy s' = true ∧ ∃ d, cmd = gen_dummy cfg env d) ∧
  (first s = true → ffprobe_info env source = None →
   ∃ s', result (peperation_task cfg env now today index nd s) = Return s' ∧
         src_cmd s' = Some (gen_dummy cfg env (out s' - seek s')) ∧
         is_dummy s' = true ∧ last_time s' = b).
Proof.
  intros Hsrc Hcat Hl Hf Hb. split.
  - intros s' cmd. by apply (peperation_task_missing_dummy now today index
                               nd s s' source b cmd).
  - by apply peperation_task_missing_first.
Qed.


End iterator_more.


Lemma eof_handling_filler_mismatch_witness :
  match result (GetSourceIter.eof_handling sample_cfg sample_env 100000
                  "2020-01-02" 5000 5000 eof_message true sample_iter) with
  | Return s' =>
      GetSourceIter.is_dummy s' = false ∧
      GetSourceIter.src_cmd s'
        = Some (gen_dummy sample_cfg sample_env (GetSourceIter.out s'))
  | Raise _ => False
  end.
Proof.
  destruct (result (GetSourceIter.eof_handling sample_cfg sample_env 100000
                      "2020-01-02" 5000 5000 eof_message true sample_iter))
    as [s'|e] eqn:E.
  - refine (proj1 (eof_handling_filler_mismatch sample_cfg sample_env 100000
                     "2020-01-02" 5000 5000 eof_message sample_iter s' E
                     _ _) _ _).
    + vm_compute in E. injection E as <-. by vm_compute.
    + discriminate.
    + by vm_compute.
    + by vm_compute.
  - vm_compute in E. discriminate E.
Defined.

Lemma get_category_neighbours_witness :
  result (GetSourceIter.get_category 0 ad_node mixed_iter) = Raise KeyError.
Proof.
  refine (proj1 (proj1 (get_category_neighbours 0 ad_node mixed_iter
                          (JStr "advertisement") mixed_doc _ _ _)) _).
  - by vm_compute.
  - reflexivity.
  - simpl. lia.
  - right. exists plain_node. split; [reflexivity|by vm_compute].
Defined.

Lemma peperation_task_missing_clip_witness :
  ∃ s',
    result (GetSourceIter.peperation_task sample_cfg bare_env 30000
              "2020-01-01" 0 missing_node first_iter) = Return s' ∧
    GetSourceIter.src_cmd s'
      = Some (gen_dummy sample_cfg bare_env
                (GetSourceIter.out s' - GetSourceIter.seek s')) ∧
    GetSourceIter.is_dummy s' = true ∧
    GetSourceIter.last_time s' = 21600%Q.
Proof.
  refine (proj2 (peperation_task_missing_clip sample_cfg bare_env 30000
                   "2020-01-01" 0 missing_node first_iter "gone.mp4"
                   21600%Q _ _ _ _ _) _ _); by vm_compute.
Defined.


(** ** What every trace of the engine satisfies *)

Create HintDb trace_inv.

Section trace_invariants.
Context (cfg : Config) (env : Env).
(** A property of traces that holds of the empty trace, of what the four
    [Messenger] methods emit and of a yield, and that is kept by
    appending. *)
Context (P : list event → Prop).
Context (P_nil : P []).
Context (P_app : ∀ t1 t2, P t1 → P t2 → P (t1 ++ t2)).
Context (P_debug : ∀ msg, P (trace (messenger_debug msg))).
Context (P_info : ∀ msg, P (trace (messenger_info cfg msg))).
Context (P_warning : ∀ msg, P (trace (messenger_warning cfg msg))).
Context (P_error : ∀ msg, P (trace (messenger_error cfg msg))).
Context (P_yield : ∀ c, P [Yielded c]).

Lemma inv_ret {A} (a : A) : P (trace (mret a)).
Proof. done. Qed.

Lemma inv_raise {A} (e : exn) : P (trace (raise (A:=A) e)).
Proof. done. Qed.

Lemma inv_bind {A B} (m : M A) (f : A → M B) :
  P (trace m) → (∀ a, P (trace (f a))) → P (trace (m ≫= f)).
Proof.
  intros Hm Hf. rewrite trace_bind.
  destruct (result m) as [a|e]; [|done]. by apply P_app.
Qed.

Local Hint Resolve inv_ret inv_raise P_debug P_info P_warning P_error
  : trace_inv.

Ltac solve_trace :=
  repeat first
    [ solve [auto 1 with trace_inv nocore]
    | apply inv_bind; [|intros ?]
    | match goal with
      | |- _ (trace (match ?x with _ => _ end)) => destruct x
      | |- _ (trace (let '(_, _) := ?x in _)) => destruct x
      end ].

Lemma inv_loop_input source sd td : P (trace (loop_input cfg env source sd td)).
Proof. unfold loop_input. solve_trace. Qed.
Local Hint Resolve inv_loop_input : trace_inv.

Lemma inv_gen_filler d : P (trace (gen_filler cfg env d)).
Proof. unfold gen_filler. solve_trace. Qed.
Local Hint Resolve inv_gen_filler : trace_inv.

Lemma inv_src_or_dummy src dur seek out :
  P (trace (src_or_dummy cfg env src dur seek out)).
Proof. unfold src_or_dummy. solve_trace. Qed.
Local Hint Resolve inv_src_or_dummy : trace_inv.

Lemma inv_get_delta now begin seek first :
  P (trace (get_delta cfg env now begin seek first)).
Proof. unfold get_delta. cbv zeta. solve_trace. Qed.
Local Hint Resolve inv_get_delta : trace_inv.

Lemma inv_handle_list_end Δ ref src begin dur seek out :
  P (trace (handle_list_end cfg env Δ ref src begin dur seek out)).
Proof. unfold handle_list_end. cbv zeta. solve_trace. Qed.
Local Hint Resolve inv_handle_list_end : trace_inv.

Lemma inv_timed_source now src begin dur seek out first last :
  P (trace (timed_source cfg env now src begin dur seek out first last)).
Proof. unfold timed_source. solve_trace. Qed.
Local Hint Resolve inv_timed_source : trace_inv.

Lemma inv_video0 probe : P (trace (video0 probe)).
Proof. unfold video0. solve_trace. Qed.
Local Hint Resolve inv_video0 : trace_inv.

Lemma inv_build_filtergraph d s o ad al an dummy probe :
  P (trace (build_filtergraph cfg env d s o ad al an dummy probe)).
Proof.
  unfold build_filtergraph, video_chain, audio_chain, deinterlace_filter,
    pad_filter, fps_filter, scale_filter, extend_video, add_audio,
    add_loudnorm, extend_audio.
  solve_trace.
Qed.
Local Hint Resolve inv_build_filtergraph : trace_inv.

Lemma inv_load file : P (trace (load cfg env file)).
Proof.
  unfold load. destruct (ffprobe_info env file) as [info|]; [|solve_trace].
  generalize {| probe_src := file; probe_format := Some (ri_format info);
                probe_audio := []; probe_video := [] |}.
  induction (ri_streams info) as [|[a|rv|] l IH]; intros p; simpl;
    [solve_trace|..].
  - apply IH.
  - apply inv_bind; [|intros ?; apply IH].
    unfold load_video, float_div. solve_trace.
  - apply IH.
Qed.
Local Hint Resolve inv_load : trace_inv.

Lemma inv_emit_clip clip : P (trace (GetSource.emit_clip cfg env clip)).
Proof.
  unfold GetSource.emit_clip, format_duration. solve_trace.
  apply P_yield.
Qed.
Local Hint Resolve inv_emit_clip : trace_inv.

Lemma inv_next_turn store r g :
  P (trace (GetSource.next_turn cfg env store r g)).
Proof.
  unfold GetSource.next_turn, GetSource.next_shuffle, GetSource.next_sorted,
    GetSource.random_choice.
  solve_trace.
Qed.
Local Hint Resolve inv_next_turn : trace_inv.

Lemma inv_next store rs g : P (trace (GetSource.next cfg env store rs g)).
Proof.
  revert g. induction rs as [|r rs IH]; intros g; simpl; solve_trace.
Qed.

Lemma inv_set_filtergraph s :
  P (trace (GetSourceIter.set_filtergraph cfg env s)).
Proof. unfold GetSourceIter.set_filtergraph. solve_trace. Qed.
Local Hint Resolve inv_set_filtergraph : trace_inv.

Lemma inv_eof_handling now today stamp stamp' message filler s :
  P (trace (GetSourceIter.eof_handling cfg env now today stamp stamp'
              message filler s)).
Proof. unfold GetSourceIter.eof_handling. cbv zeta. solve_trace. Qed.

Lemma inv_peperation_task now today index nd s :
  P (trace (GetSourceIter.peperation_task cfg env now today index nd s)).
Proof.
  unfold GetSourceIter.peperation_task, GetSourceIter.url_or_live_source,
    GetSourceIter.get_input, GetSourceIter.get_category,
    GetSourceIter.category_at, GetSourceIter.program,
    GetSourceIter.check_for_next_playlist.
  solve_trace.
Qed.

End trace_invariants.

Lemma replace_nl_one_line (msg : string) :
  has_newline (Py.replace_nl msg) = false.
Proof.
  induction msg as [|c r IH]; [done|]. simpl.
  destruct (Ascii.eqb c Py.newline) eqn:E; [by rewrite IH|].
  by rewrite E, IH.
Qed.

Lemma one_line_send_mail cfg msg : Forall one_line (send_mail cfg msg).
Proof.
  unfold send_mail. destruct (Py.nonempty _); repeat constructor.
Qed.

Lemma mail_follows_log_app cfg t1 t2 :
  mail_follows_log cfg t1 → mail_follows_log cfg t2 →
  mail_follows_log cfg (t1 ++ t2).
Proof.
  unfold mail_follows_log, mails, logs_mailable. intros H1 H2.
  by rewrite !omap_app, fmap_app, H1, H2.
Qed.

Lemma mailable_INFO cfg :
  mailable cfg INFO
  = Py.nonempty (mail_recip cfg) && level_in cfg ["INFO"].
Proof.
  unfold mailable, mail_threshold, level_in. simpl. f_equal.
  destruct (String.eqb (mail_level cfg) "INFO"); [done|].
  by repeat destruct (String.eqb (mail_level cfg) _).
Qed.

Lemma mailable_WARNING cfg :
  mailable cfg WARNING
  = Py.nonempty (mail_recip cfg) && level_in cfg ["INFO"; "WARNING"].
Proof.
  unfold mailable, mail_threshold, level_in. simpl. f_equal.
  destruct (String.eqb (mail_level cfg) "INFO"); [done|].
  destruct (String.eqb (mail_level cfg) "WARNING"); [done|].
  by destruct (String.eqb (mail_level cfg) _).
Qed.

Lemma mailable_ERROR cfg :
  mailable cfg ERROR
  = Py.nonempty (mail_recip cfg)
    && level_in cfg ["INFO"; "WARNING"; "ERROR"].
Proof.
  unfold mailable, mail_threshold, level_in. simpl. f_equal.
  destruct (String.eqb (mail_level cfg) "INFO"); [done|].
  destruct (String.eqb (mail_level cfg) "WARNING"); [done|].
  by destruct (String.eqb (mail_level cfg) "ERROR").
Qed.

Lemma mailable_DEBUG cfg : mailable cfg DEBUG = false.
Proof.
  unfold mailable, mail_threshold.
  destruct (Py.nonempty _); [|done].
  by repeat destruct (String.eqb (mail_level cfg) _).
Qed.

Lemma mail_follows_log_messenger cfg l msg lv :
  mailable cfg l = Py.nonempty (mail_recip cfg) && level_in cfg lv →
  mail_follows_log cfg
    (Logged l (Py.replace_nl msg)
       :: (if level_in cfg lv then send_mail cfg msg else [])).
Proof.
  unfold mail_follows_log, logs_mailable, send_mail. cbn [omap list_omap].
  intros ->. generalize (level_in cfg lv) as b. intros b.
  by destruct b, (Py.nonempty (mail_recip cfg)).
Qed.

Section everywhere.
Context (cfg : Config) (env : Env).


(** X24.  Every entry that the playlist iterator and the folder source
    log takes one line: line breaks of a message are replaced before it is
    logged (the mailed text keeps them). *)
Theorem log_entries_one_line :
  (∀ now today index nd s,
     one_line_log
       (trace (GetSourceIter.peperation_task cfg env now today index nd s)))
  ∧ (∀ now today stamp stamp' message filler s,
       one_line_log
         (trace (GetSourceIter.eof_handling cfg env now today stamp stamp'
                   message filler s)))
  ∧ (∀ store rs g,
       one_line_log (trace (GetSource.next cfg env store rs g))).
Proof.
  assert (Hd : ∀ msg, one_line_log (trace (messenger_debug msg))).
  { intros msg. repeat constructor. apply replace_nl_one_line. }
  assert (Hi : ∀ msg, one_line_log (trace (messenger_info cfg msg))).
  { intros msg. constructor; [apply replace_nl_one_line|].
    unfold mailer_info. destruct (level_in _ _);
      [apply one_line_send_mail|constructor]. }
  assert (Hw : ∀ msg, one_line_log (trace (messenger_warning cfg msg))).
  { intros msg. constructor; [apply replace_nl_one_line|].
    unfold mailer_warning. destruct (level_in _ _);
      [apply one_line_send_mail|constructor]. }
  assert (He : ∀ msg, one_line_log (trace (messenger_error cfg msg))).
  { intros msg. constructor; [apply replace_nl_one_line|].
    unfold mailer_error. destruct (level_in _ _);
      [apply one_line_send_mail|constructor]. }
  assert (Ha : ∀ t1 t2, one_line_log t1 → one_line_log t2 →
                        one_line_log (t1 ++ t2)).
  { intros t1 t2 H1 H2. by apply Forall_app. }
  assert (Hy : ∀ c, one_line_log [Yielded c]) by (by repeat constructor).
  split; [|split]; intros.
  - by apply inv_peperation_task; [constructor|..].
  - by apply inv_eof_handling; [constructor|..].
  - by apply inv_next; [constructor|..].
Qed.

End everywhere.

(** ** The start time of the playlist day *)

Lemma split_nonempty (sep : Ascii.ascii) (s : string) :
  Clock.split sep s ≠ [].
Proof.
  destruct s as [|c r]; simpl; [done|].
  destruct (Ascii.eqb c sep); [done|]. by destruct (Clock.split sep r).
Qed.

Lemma split_no_sep (sep : Ascii.ascii) (a : string) :
  has_char sep a = false → Clock.split sep a = [a].
Proof.
  induction a as [|c a IH]; simpl; [done|].
  intros [Hc Ha]%orb_false_elim. rewrite Hc, (IH Ha). done.
Qed.

Lemma split_app_sep (sep : Ascii.ascii) (a r : string) :
  has_char sep a = false →
  Clock.split sep (a +:+ String sep r) = a :: Clock.split sep r.
Proof.
  induction a as [|c a IH]; simpl.
  - intros _. by rewrite Ascii.eqb_refl.
  - intros [Hc Ha]%orb_false_elim. rewrite Hc.
    change (a ++ String sep r)%string with (a +:+ String sep r).
    by rewrite (IH Ha).
Qed.

Lemma split_join (sep : Ascii.ascii) (fields : list string) :
  fields ≠ [] → Forall (λ f, has_char sep f = false) fields →
  Clock.split sep (Py.join (String sep EmptyString) fields) = fields.
Proof.
  unfold Py.join. induction fields as [|a [|b fields] IH]; [done| |].
  - intros _ [Ha _]%Forall_cons. simpl. by apply split_no_sep.
  - intros _ [Ha Hf]%Forall_cons.
    change (String.concat (String sep "") (a :: b :: fields))
      with (a +:+ String sep (String.concat (String sep "") (b :: fields))).
    rewrite split_app_sep by done. f_equal. by apply IH.
Qed.

Section clock_more.
Context (env : Env).
Local Open Scope Q_scope.

Lemma field_parsed (parts : list string) (i : nat) (f : string) (x : Q) :
  parts !! i = Some f → parse_float env f = Some x →
  Clock.field env parts i = mret x.
Proof. unfold Clock.field. by intros -> ->. Qed.

(** X25.  [str_to_sec] on a text of colon-separated fields other than
    [now]: three fields that read as numbers give
    [h * 3600 + m * 60 + s], and further fields are ignored; with this
    text as the start argument, a start of zero seconds (midnight) is
    replaced by the current time.  Fewer than three fields, all numbers,
    raise [IndexError]; a field among the first three that is no number,
    after fields that are, ends the program with exit code 1. *)
Theorem str_to_sec_fields (fields : list string) :
  fields ≠ [] → Forall (λ f, has_char Clock.colon f = false) fields →
  let s := Py.join ":" fields in
  s ≠ "now" → s ≠ "" →
  (∀ a b c rest h m sec,
     fields = a :: b :: c :: rest →
     parse_float env a = Some h → parse_float env b = Some m →
     parse_float env c = Some sec →
     result (Clock.str_to_sec env (Some s))
       = Return (Some (h * 3600 + m * 60 + sec)) ∧
     ∀ day_start now,
       result (Clock.playlist_start_of env (Some s) day_start now)
         = Return (if Qeq_bool (h * 3600 + m * 60 + sec) 0 then now
                   else h * 3600 + m * 60 + sec)) ∧
  ((length fields < 3)%nat →
   Forall (λ f, is_Some (parse_float env f)) fields →
   result (Clock.str_to_sec env (Some s)) = Raise IndexError) ∧
  (∀ i f,
     (i < 3)%nat → fields !! i = Some f → parse_float env f = None →
     Forall (λ f, is_Some (parse_float env f)) (take i fields) →
     result (Clock.str_to_sec env (Some s)) = Raise (SystemExit 1)).
Proof.
  intros Hne Hcf s Hnow Hempty.
  assert (Hs : Clock.str_to_sec env (Some s) =
    (h ← Clock.field env fields 0; m ← Clock.field env fields 1;
     sec ← Clock.field env fields 2;
     mret (Some (h * 3600 + m * 60 + sec)))).
  { unfold Clock.str_to_sec.
    apply String.eqb_neq in Hnow, Hempty. rewrite Hnow, Hempty.
    cbn [orb]. subst s.
    change ":"%string with (String Clock.colon EmptyString).
    by rewrite split_join. }
  split; [|split].
  - intros a b c rest h m sec -> Ha Hb Hc.
    assert (Hr : result (Clock.str_to_sec env (Some s))
                 = Return (Some (h * 3600 + m * 60 + sec))).
    { rewrite Hs.
      rewrite (field_parsed _ 0 a h), bind_ret_l by done.
      rewrite (field_parsed _ 1 b m), bind_ret_l by done.
      by rewrite (field_parsed _ 2 c sec), bind_ret_l by done. }
    split; [done|]. intros day_start now.
    unfold Clock.playlist_start_of.
    assert (Hn : Py.nonempty s = true) by (by destruct s).
    rewrite Hn, result_bind, Hr. cbn.
    by destruct (Qeq_bool _ 0).
  - intros Hlen Hp. rewrite Hs. unfold Clock.field.
    destruct fields as [|a [|b [|c rest]]]; [done| | |simpl in Hlen; lia].
    + apply Forall_cons in Hp as [[h Ha] _]. cbn. by rewrite Ha.
    + apply Forall_cons in Hp as [[h Ha] [[m Hb] _]%Forall_cons].
      cbn. by rewrite Ha, Hb.
  - intros i f Hi Hf Hnone Hp. rewrite Hs. unfold Clock.field.
    destruct i as [|[|[|i]]]; [| | |lia].
    + by rewrite Hf, Hnone.
    + destruct fields as [|a fields]; [done|].
      apply Forall_cons in Hp as [[h Ha] _]. cbn in Hf |- *.
      by rewrite Ha, Hf, Hnone.
    + destruct fields as [|a [|b fields]]; [done|done|].
      apply Forall_cons in Hp as [[h Ha] [[m Hb] _]%Forall_cons].
      cbn in Hf |- *. by rewrite Ha, Hb, Hf, Hnone.
Qed.

End clock_more.

Lemma str_to_sec_fields_witness :
  result (Clock.str_to_sec bare_env (Some "00:00:00")) = Return (Some 0%Q) ∧
  ∀ day_start now,
    result (Clock.playlist_start_of bare_env (Some "00:00:00") day_start now)
      = Return now.
Proof.
  exact (proj1 (str_to_sec_fields bare_env ["00"; "00"; "00"]
                  ltac:(done) ltac:(repeat constructor) ltac:(done)
                  ltac:(done))
           "00" "00" "00" [] 0%Q 0%Q 0%Q eq_refl eq_refl eq_refl eq_refl).
Defined.

(** ** The cursor at start-up and the walk over the playlist *)

Section cursor.
Context (cfg : Config).
Local Open Scope Q_scope.

Lemma full_sec_range (h mi sec us : Z) :
  (0 <= h < 24)%Z → (0 <= mi < 60)%Z → (0 <= sec < 60)%Z →
  (0 <= us < 1000000)%Z →
  0 <= Clock.full_sec h mi sec us < 86400.
Proof.
  intros Hh Hm Hs Hu. unfold Clock.full_sec.
  assert (H1 : 0 <= inject_Z (h * 3600 + mi * 60 + sec)).
  { change 0 with (inject_Z 0). rewrite <- Zle_Qle. lia. }
  assert (H2 : inject_Z (h * 3600 + mi * 60 + sec) <= 86399).
  { change 86399 with (inject_Z 86399). rewrite <- Zle_Qle. lia. }
  assert (H3 : 0 <= inject_Z us).
  { change 0 with (inject_Z 0). rewrite <- Zle_Qle. lia. }
  assert (H4 : inject_Z us < 1000000).
  { change 1000000 with (inject_Z 1000000). rewrite <- Zlt_Qlt. lia. }
  set (a := inject_Z (h * 3600 + mi * 60 + sec)) in *.
  set (b := inject_Z us) in *.
  assert (E : b / 1000000 == b * (1 # 1000000)) by (field; done).
  rewrite E. split; lra.
Qed.

(** X26.  The iterator starts with its cursor inside the playlist day:
    for every reading of the clock, a day start within the day and a
    playlist of at least 24 hours, [__init__] leaves
    [init_time <= last_time < init_time + total_playtime]. *)
Theorem init_cursor_in_day (h mi sec us : Z) (stamp : Q) (date : string) :
  (0 <= h < 24)%Z → (0 <= mi < 60)%Z → (0 <= sec < 60)%Z →
  (0 <= us < 1000000)%Z →
  0 <= playlist_start cfg < 86400 → 86400 <= total_playtime_of cfg →
  let s := GetSourceIter.init cfg (Clock.full_sec h mi sec us) stamp date in
  GetSourceIter.init_time s <= GetSourceIter.last_time s ∧
  GetSourceIter.last_time s
    < GetSourceIter.init_time s + GetSourceIter.total_playtime s.
Proof.
  intros Hh Hm Hs Hu Hstart Htotal.
  pose proof (full_sec_range h mi sec us Hh Hm Hs Hu) as Hnow.
  cbv zeta. unfold GetSourceIter.init. cbn.
  destruct (Py.Qltb _ _) eqn:E.
  - apply Qltb_lt in E. lra.
  - apply Qltb_ge in E. lra.
Qed.

End cursor.

Lemma init_cursor_in_day_witness :
  (GetSourceIter.init_time
     (GetSourceIter.init sample_cfg (Clock.full_sec 5 30 0 0) 1000
        "2020-01-01")
   <= GetSourceIter.last_time
        (GetSourceIter.init sample_cfg (Clock.full_sec 5 30 0 0) 1000
           "2020-01-01"))%Q ∧
  (GetSourceIter.last_time
     (GetSourceIter.init sample_cfg (Clock.full_sec 5 30 0 0) 1000
        "2020-01-01")
   < GetSourceIter.init_time
       (GetSourceIter.init sample_cfg (Clock.full_sec 5 30 0 0) 1000
          "2020-01-01")
     + GetSourceIter.total_playtime
         (GetSourceIter.init sample_cfg (Clock.full_sec 5 30 0 0) 1000
            "2020-01-01"))%Q.
Proof.
  apply (init_cursor_in_day sample_cfg 5 30 0 0 1000 "2020-01-01");
    try lia; by vm_compute.
Defined.

Section walk_more.
Import Walk.
Context (env : Env).
Local Open Scope Q_scope.

Lemma get_clip_in_out_numeric (nd : node) (x : Q * Q * Q) :
  numeric_node nd x →
  get_clip_in_out env nd
    = mret {| seek := PNum x.1.1; duration := PNum x.1.2;
              out := PNum x.2 |}.
Proof.
  intros (Hi & Hd & Ho). unfold get_clip_in_out, item.
  by rewrite Hi, Hd, Ho.
Qed.

Lemma begin_of_0 (b : Q) (xs : list (Q * Q * Q)) : begin_of b xs 0 == b.
Proof.
  unfold begin_of. rewrite take_0, fmap_nil.
  change (Qsum []) with 0. ring.
Qed.

Lemma begin_of_S (b : Q) (x : Q * Q * Q) (xs : list (Q * Q * Q)) (k : nat) :
  begin_of b (x :: xs) (S k) == begin_of (b + playing_length x) xs k.
Proof.
  unfold begin_of. rewrite firstn_cons, fmap_cons.
  change (Qsum (?a :: ?l)) with (a + Qsum l). ring.
Qed.

(** What the loop has passed over before entry [k]: every earlier entry
    begins no later than the cursor and, on the first run, also ends no
    later than the cursor. *)
Local Abbreviation passed first last_time b xs k :=
  (∀ j, (j < k)%nat →
     begin_of b xs j <= last_time ∧
     (first = true → begin_of b xs (S j) <= last_time)).

Lemma walk_numeric (first : bool) (last_time : Q) (last : bool) (len : nat)
    (program : list node) (xs : list (Q * Q * Q)) :
  Forall2 numeric_node program xs →
  ∀ (index : nat) (b : Q),
    match result (walk env first last_time last len index b program) with
    | Return (Prepare i nd c b' cu l) =>
        ∃ k, i = (index + k)%nat ∧ program !! k = Some nd ∧
          b' == begin_of b xs k ∧ passed first last_time b xs k ∧
          if cu then first = true ∧ last_time < begin_of b xs (S k) ∧
                     l = last
          else last_time < begin_of b xs k ∧
               l = (i + 1 =? len)%nat ∧
               (first = true → begin_of b xs (S k) <= last_time)
    | Return (Exhausted b') =>
        b' == begin_of b xs (length xs) ∧
        passed first last_time b xs (length xs)
    | Raise _ => False
    end.
Proof.
  induction 1 as [|nd x program xs Hx Hxs IH]; intros index b.
  - cbn. split; [by rewrite begin_of_0|]. intros j Hj. lia.
  - cbn [walk]. rewrite (get_clip_in_out_numeric nd x Hx), bind_ret_l.
    unfold clip_end, clip_length. cbn [operand out seek].
    rewrite !bind_ret_l.
    assert (E1 : begin_of b (x :: xs) 1 == b + x.2 - x.1.1).
    { rewrite begin_of_S, begin_of_0. unfold playing_length. ring. }
    assert (E0 : begin_of b (x :: xs) 0 == b) by apply begin_of_0.
    destruct first.
    + rewrite bind_ret_l.
      destruct (Py.Qltb last_time (b + x.2 - x.1.1)) eqn:Ec.
      { cbn. exists 0%nat. apply Qltb_lt in Ec.
        split; [lia|]. split; [done|]. split; [by rewrite E0|].
        split; [intros j Hj; lia|].
        split; [done|]. split; [by rewrite E1|done]. }
      apply Qltb_ge in Ec.
      destruct (Py.Qltb last_time b) eqn:Eb.
      { cbn. exists 0%nat. apply Qltb_lt in Eb.
        split; [lia|]. split; [done|]. split; [by rewrite E0|].
        split; [intros j Hj; lia|].
        split; [by rewrite E0|]. split; [done|].
        intros _. by rewrite E1. }
      apply Qltb_ge in Eb.
      specialize (IH (S index) (b + (x.2 - x.1.1))).
      destruct (result (walk env true last_time last len (S index)
                          (b + (x.2 - x.1.1)) program))
        as [[i nd' c b' cu l|b']|e]; [| |done].
      * destruct IH as (k & -> & Hk & Hb & Hp & Hcu).
        exists (S k). split; [lia|]. split; [done|].
        split; [by rewrite begin_of_S|].
        split.
        { intros [|j] Hj.
          - split; [by rewrite E0|]. intros _. by rewrite E1.
          - destruct (Hp j ltac:(lia)) as [H1 H2].
            split; [by rewrite begin_of_S|].
            intros Hf. rewrite begin_of_S. by apply H2. }
        destruct cu.
        -- destruct Hcu as (? & Hlt & ?). split; [done|].
           split; [by rewrite begin_of_S|done].
        -- destruct Hcu as (Hlt & ? & Hle).
           split; [by rewrite begin_of_S|]. split; [done|].
           intros Hf. rewrite begin_of_S. by apply Hle.
      * destruct IH as (Hb & Hp). cbn [length].
        split; [by rewrite begin_of_S|].
        intros [|j] Hj.
        -- split; [by rewrite E0|]. intros _. by rewrite E1.
        -- destruct (Hp j ltac:(lia)) as [H1 H2].
           split; [by rewrite begin_of_S|].
           intros Hf. rewrite begin_of_S. by apply H2.
    + rewrite bind_ret_l.
      destruct (Py.Qltb last_time b) eqn:Eb.
      { cbn. exists 0%nat. apply Qltb_lt in Eb.
        split; [lia|]. split; [done|]. split; [by rewrite E0|].
        split; [intros j Hj; lia|].
        split; [by rewrite E0|]. split; [done|done]. }
      apply Qltb_ge in Eb.
      specialize (IH (S index) (b + (x.2 - x.1.1))).
      destruct (result (walk env false last_time last len (S index)
                          (b + (x.2 - x.1.1)) program))
        as [[i nd' c b' cu l|b']|e]; [| |done].
      * destruct IH as (k & -> & Hk & Hb & Hp & Hcu).
        exists (S k). split; [lia|]. split; [done|].
        split; [by rewrite begin_of_S|].
        split.
        { intros [|j] Hj.
          - split; [by rewrite E0|done].
          - destruct (Hp j ltac:(lia)) as [H1 H2].
            split; [by rewrite begin_of_S|done]. }
        destruct cu.
        -- by destruct Hcu as (? & _).
        -- destruct Hcu as (Hlt & ? & Hle).
           split; [by rewrite begin_of_S|]. split; [done|done].
      * destruct IH as (Hb & Hp). cbn [length].
        split; [by rewrite begin_of_S|].
        intros [|j] Hj.
        -- split; [by rewrite E0|done].
        -- destruct (Hp j ltac:(lia)) as [H1 H2].
           split; [by rewrite begin_of_S|done].
Qed.

Lemma begin_of_step (b : Q) (xs : list (Q * Q * Q)) (k : nat)
    (x : Q * Q * Q) :
  xs !! k = Some x →
  begin_of b xs (S k) == begin_of b xs k + playing_length x.
Proof.
  revert b xs. induction k as [|k IH]; intros b [|y xs] Hk; try done.
  - injection Hk as ->. rewrite begin_of_S, !begin_of_0. ring.
  - rewrite !begin_of_S. by apply IH.
Qed.

Lemma begin_of_mono (b : Q) (xs : list (Q * Q * Q)) (j k : nat) :
  Forall (λ x, 0 < playing_length x) xs →
  (j < k)%nat → (k <= length xs)%nat →
  begin_of b xs j < begin_of b xs k.
Proof.
  intros Hpos Hjk. induction Hjk as [|k Hjk IH]; intros Hk.
  - destruct (lookup_lt_is_Some_2 xs j ltac:(lia)) as [x Hx].
    rewrite (begin_of_step b xs j x Hx).
    pose proof (proj1 (Forall_lookup _ _) Hpos j x Hx) as Hp. simpl in Hp.
    lra.
  - destruct (lookup_lt_is_Some_2 xs k ltac:(lia)) as [x Hx].
    rewrite (begin_of_step b xs k x Hx).
    pose proof (proj1 (Forall_lookup _ _) Hpos k x Hx) as Hp. simpl in Hp.
    specialize (IH ltac:(lia)). lra.
Qed.





End walk_more.

Lemma sample_program_numeric : Forall2 numeric_node sample_program sample_times.
Proof. repeat constructor; by vm_compute. Qed.




